(** * go-agent: a shallow embedding of the tool-dispatch loop of [main.go]

    The development follows the layout of the Go program.  The packages of
    the Go standard library that the program calls ([unicode/utf8],
    [strings], [encoding/json], [path], [path/filepath], [os]) are modelled
    in modules named after them; the functions of the repository itself
    ([ReadFile], [ListFiles], [EditFile], [createNewFile], [executeTool],
    [processClaudeResponse], [Run]) are translated one by one from
    [main.go].  Go strings are byte sequences: they are [string]s of
    [ascii] bytes here. *)

From Stdlib Require Import String Ascii List Bool Arith NArith ZArith Lia DecimalString.
Import ListNotations.
Open Scope string_scope.
Set Warnings "-register-all".

(* ================================================================== *)
(** ** Byte strings: slicing *)
(* ================================================================== *)

(** [s[:n]] for [n <= len(s)]. *)
Fixpoint slice_to (n : nat) (s : string) : string :=
  match n, s with
  | S n', String c s' => String c (slice_to n' s')
  | _, _ => ""
  end.

(** [s[n:]] for [n <= len(s)]. *)
Fixpoint slice_from (n : nat) (s : string) : string :=
  match n, s with
  | S n', String _ s' => slice_from n' s'
  | _, _ => s
  end.

(* ================================================================== *)
(** ** Package unicode/utf8 *)
(* ================================================================== *)

Module utf8.

Definition byte_val (c : ascii) : N := N_of_ascii c.

Definition between (lo hi : N) (c : ascii) : bool :=
  (lo <=? byte_val c)%N && (byte_val c <=? hi)%N.

(** The table [first] of the Go package, restricted to the non-ASCII
    leading bytes: the size of the encoding and the range accepted for
    the second byte.  [None] is the table's invalid entry [xx]. *)
Definition first (b : N) : option (nat * (N * N)) :=
  (if b <? 0xC2 then None
   else if b <=? 0xDF then Some (2%nat, (0x80, 0xBF))
   else if b =? 0xE0 then Some (3%nat, (0xA0, 0xBF))
   else if b <=? 0xEC then Some (3%nat, (0x80, 0xBF))
   else if b =? 0xED then Some (3%nat, (0x80, 0x9F))
   else if b <=? 0xEF then Some (3%nat, (0x80, 0xBF))
   else if b =? 0xF0 then Some (4%nat, (0x90, 0xBF))
   else if b <=? 0xF3 then Some (4%nat, (0x80, 0xBF))
   else if b =? 0xF4 then Some (4%nat, (0x80, 0x8F))
   else None)%N.

(** The width returned by [utf8.DecodeRuneInString]: 0 on the empty
    string, 1 on an ASCII byte and on every invalid or truncated
    encoding, otherwise the length of the encoding. *)
Definition DecodeRuneWidth (s : string) : nat :=
  match s with
  | "" => 0
  | String s0 rest =>
      if (byte_val s0 <? 0x80)%N then 1
      else
        match first (byte_val s0) with
        | None => 1
        | Some (sz, (lo, hi)) =>
            if (String.length s <? sz)%nat then 1
            else
              match rest with
              | String s1 rest1 =>
                  if negb (between lo hi s1) then 1
                  else if (sz <=? 2)%nat then 2
                  else
                    match rest1 with
                    | String s2 rest2 =>
                        if negb (between 0x80 0xBF s2) then 1
                        else if (sz <=? 3)%nat then 3
                        else
                          match rest2 with
                          | String s3 _ =>
                              if negb (between 0x80 0xBF s3) then 1 else 4
                          | "" => 1
                          end
                    | "" => 1
                    end
              | "" => 1
              end
        end
  end.

(** The runes of [s], each as the bytes that encode it (an invalid byte
    is a rune of its own).  [fuel] bounds the number of runes. *)
Fixpoint runes_fuel (fuel : nat) (s : string) : list string :=
  match fuel with
  | O => []
  | S fuel' =>
      match s with
      | "" => []
      | _ =>
          let w := DecodeRuneWidth s in
          slice_to w s :: runes_fuel fuel' (slice_from w s)
      end
  end.

Definition runes (s : string) : list string := runes_fuel (String.length s) s.

Definition RuneCountInString (s : string) : nat := List.length (runes s).

End utf8.

(* ================================================================== *)
(** ** Package strings *)
(* ================================================================== *)

Module strings.

Fixpoint HasPrefix (s prefix : string) : bool :=
  match prefix, s with
  | "", _ => true
  | String p prefix', String c s' => Ascii.eqb c p && HasPrefix s' prefix'
  | String _ _, "" => false
  end.

(** [strings.Index]: the byte offset of the first occurrence of [substr]
    in [s]; Go's [-1] is [None]. *)
Fixpoint Index (s substr : string) : option nat :=
  if HasPrefix s substr then Some 0
  else
    match s with
    | "" => None
    | String _ s' => option_map S (Index s' substr)
    end.

Definition Contains (s substr : string) : bool :=
  match Index s substr with Some _ => true | None => false end.

(** The loop of [strings.Count] for a non-empty [substr]:
    [for { i := Index(s, substr); if i == -1 { return n }; n++;
           s = s[i+len(substr):] }]. *)
Fixpoint count_loop (fuel : nat) (s substr : string) : nat :=
  match fuel with
  | O => 0
  | S fuel' =>
      match Index s substr with
      | None => 0
      | Some i => S (count_loop fuel' (slice_from (i + String.length substr) s) substr)
      end
  end.

Definition Count (s substr : string) : nat :=
  if String.eqb substr "" then utf8.RuneCountInString s + 1
  else count_loop (S (String.length s)) s substr.

(** The replacement loop of [strings.Replace].  [rest] is [s[start:]],
    [b] the builder, [i] the loop counter and [n] the number of
    iterations left. *)
Fixpoint replace_loop (n i : nat) (rest old new b : string) : string :=
  match n with
  | O => b ++ rest
  | S n' =>
      let j :=
        if String.eqb old "" then
          if (0 <? i)%nat then utf8.DecodeRuneWidth rest else 0
        else
          match Index rest old with Some k => k | None => 0 end in
      replace_loop n' (S i) (slice_from (j + String.length old) rest) old new
                   (b ++ slice_to j rest ++ new)
  end.

(** [strings.Replace(s, old, new, n)]; [n < 0] lifts the limit on the
    number of replacements. *)
Definition Replace (s old new : string) (n : Z) : string :=
  if String.eqb old new || (n =? 0)%Z then s
  else
    let m := Count s old in
    if (m =? 0)%nat then s
    else
      let n' := if (n <? 0)%Z || (Z.of_nat m <? n)%Z then m else Z.to_nat n in
      replace_loop n' 0 s old new "".

End strings.

(* ================================================================== *)
(** ** Errors *)
(* ================================================================== *)

(** The [syscall.Errno] values the model of the file system can produce. *)
Inductive Errno : Type := ENOENT | ENOTDIR | EISDIR.

Definition Errno_Error (e : Errno) : string :=
  match e with
  | ENOENT => "no such file or directory"
  | ENOTDIR => "not a directory"
  | EISDIR => "is a directory"
  end.

(** Go's [error] values, by dynamic type. *)
Inductive error : Type :=
| errorString (s : string)                       (* errors.New, fmt.Errorf without %w *)
| wrapError (msg : string) (err : error)         (* fmt.Errorf with %w; [msg] is the full text *)
| PathError (Op Path : string) (Err : Errno)     (* *fs.PathError *)
| SyntaxError (msg : string)                     (* *json.SyntaxError *)
| UnmarshalTypeError (Value GoType Struct Field : string).  (* *json.UnmarshalTypeError *)

(** The method [Error() string]. *)
Definition Error (e : error) : string :=
  match e with
  | errorString s => s
  | wrapError msg _ => msg
  | PathError op path errno => op ++ " " ++ path ++ ": " ++ Errno_Error errno
  | SyntaxError msg => msg
  | UnmarshalTypeError v ty st f =>
      if String.eqb st "" && String.eqb f "" then
        "json: cannot unmarshal " ++ v ++ " into Go value of type " ++ ty
      else
        "json: cannot unmarshal " ++ v ++ " into Go struct field " ++ st ++ "." ++ f
        ++ " of type " ++ ty
  end.

(** [fmt.Errorf(prefix + "%w", err)]. *)
Definition Errorf_w (prefix : string) (err : error) : error :=
  wrapError (prefix ++ Error err) err.

(** A Go result pair [(T, error)] in which exactly one side is set. *)
Inductive result (A : Type) : Type :=
| Ok (a : A)
| Err (e : error).
Arguments Ok {A} a.
Arguments Err {A} e.

(* ================================================================== *)
(** ** Package encoding/json *)
(* ================================================================== *)

Module json.

Inductive Value : Type :=
| Null
| Bool (b : bool)
| Number (literal : string)
| Str (s : string)
| Array (elems : list Value)
| Object (members : list (string * Value)).

(** [json.RawMessage]: the undecoded bytes of a value.  The scanner of
    the package is not modelled; [parsed] is what it makes of [bytes]:
    the value they encode, or the message of its syntax error. *)
Record RawMessage : Type := mkRaw {
  bytes : string;
  parsed : string + Value
}.

Definition kind_name (v : Value) : string :=
  match v with
  | Null => "null"
  | Bool _ => "bool"
  | Number _ => "number"
  | Str _ => "string"
  | Array _ => "array"
  | Object _ => "object"
  end.

(** ASCII case folding of object keys (the folding of the two non-ASCII
    letters that fold to [k] and [s] is not modelled). *)
Definition lower (c : ascii) : ascii :=
  let n := N_of_ascii c in
  if (0x41 <=? n)%N && (n <=? 0x5A)%N then ascii_of_N (n + 0x20) else c.

Fixpoint EqualFold (s t : string) : bool :=
  match s, t with
  | "", "" => true
  | String a s', String b t' => Ascii.eqb (lower a) (lower b) && EqualFold s' t'
  | _, _ => false
  end.

(** The struct field a key is stored in: an exact match of the field
    name is preferred, a case-insensitive match is accepted. *)
Definition find_field (fields : list string) (key : string) : option string :=
  match find (String.eqb key) fields with
  | Some f => Some f
  | None => find (EqualFold key) fields
  end.

(** A struct all of whose fields are strings, as a map from the JSON name
    of a field to its value. *)
Definition Struct : Type := string -> string.

Definition zero : Struct := fun _ => "".

Definition set (f v : string) (st : Struct) : Struct :=
  fun g => if String.eqb g f then v else st g.

(** Decoding of the members of an object into a struct of string fields:
    unknown keys are skipped, [null] leaves the field alone, a value of
    another kind is a type error; decoding goes on after an error and
    the first one is reported. *)
Fixpoint decode_members (ty : string) (fields : list string)
    (members : list (string * Value)) (st : Struct) (saved : option error)
    : Struct * option error :=
  match members with
  | [] => (st, saved)
  | (key, v) :: rest =>
      match find_field fields key with
      | None => decode_members ty fields rest st saved
      | Some f =>
          match v with
          | Str s => decode_members ty fields rest (set f s st) saved
          | Null => decode_members ty fields rest st saved
          | _ =>
              let e := UnmarshalTypeError (kind_name v) "string" ty f in
              decode_members ty fields rest st
                (match saved with None => Some e | Some _ => saved end)
          end
      end
  end.

(** [json.Unmarshal(data, &v)] for [v] a zero struct named [ty] with the
    string fields [fields]. *)
Definition Unmarshal (data : RawMessage) (ty : string) (fields : list string)
    : Struct * option error :=
  match parsed data with
  | inl msg => (zero, Some (SyntaxError msg))
  | inr Null => (zero, None)
  | inr (Object members) => decode_members ty fields members zero None
  | inr v => (zero, Some (UnmarshalTypeError (kind_name v) ("main." ++ ty) "" ""))
  end.

Definition hex_digit (n : N) : ascii :=
  if (n <? 10)%N then ascii_of_N (0x30 + n) else ascii_of_N (0x61 + (n - 10)).

Definition u00 (c : ascii) : string :=
  let n := N_of_ascii c in
  "\u00" ++ String (hex_digit (n / 16)) (String (hex_digit (n mod 16)) "").

(** The encoding of a string: quotes, backslashes, control characters
    and the HTML characters are escaped (the replacement of invalid
    UTF-8 and of U+2028, U+2029 is not modelled). *)
Fixpoint escape (s : string) : string :=
  match s with
  | "" => ""
  | String c s' =>
      let n := N_of_ascii c in
      (if (n =? 0x22)%N then "\" ++ String c ""
       else if (n =? 0x5C)%N then "\\"
       else if (n =? 0x0A)%N then "\n"
       else if (n =? 0x0D)%N then "\r"
       else if (n =? 0x09)%N then "\t"
       else if (n <? 0x20)%N || (n =? 0x3C)%N || (n =? 0x3E)%N || (n =? 0x26)%N
            then u00 c
       else String c "") ++ escape s'
  end.

Definition quote (s : string) : string :=
  String (ascii_of_N 0x22) (escape s ++ String (ascii_of_N 0x22) "").

(** [json.Marshal] of a [[]string]: a nil slice ([None]) is encoded as
    [null], any other slice as an array. *)
Definition Marshal_strings (v : option (list string)) : string :=
  match v with
  | None => "null"
  | Some l => "[" ++ String.concat "," (map quote l) ++ "]"
  end.

End json.

(** Go slices of strings: [None] is the nil slice. *)
Definition append_slice (s : option (list string)) (x : string) : option (list string) :=
  match s with
  | None => Some [x]
  | Some l => Some (l ++ [x])%list
  end.

(* ================================================================== *)
(** ** Packages path and path/filepath (Unix) *)
(* ================================================================== *)

Definition slash : ascii := "/"%char.

(** [strings.Split(s, "/")]. *)
Fixpoint split_slash (s : string) : list string :=
  match s with
  | "" => [""]
  | String c s' =>
      if Ascii.eqb c slash then "" :: split_slash s'
      else
        match split_slash s' with
        | [] => [String c ""]
        | h :: t => String c h :: t
        end
  end.

Definition join_slash (l : list string) : string := String.concat "/" l.

Definition rooted (p : string) : bool := strings.HasPrefix p "/".

Module path.

(** The elements of the cleaned path, [out] holding the ones kept so far
    in reverse: empty and [.] elements are dropped, [..] removes the
    element before it, is dropped at the root and kept at the start of
    a relative path. *)
Fixpoint clean_elems (is_rooted : bool) (elems out : list string) : list string :=
  match elems with
  | [] => rev out
  | e :: rest =>
      if String.eqb e "" || String.eqb e "." then clean_elems is_rooted rest out
      else if String.eqb e ".." then
        match out with
        | o :: out' =>
            if String.eqb o ".." then clean_elems is_rooted rest (e :: out)
            else clean_elems is_rooted rest out'
        | [] =>
            if is_rooted then clean_elems is_rooted rest []
            else clean_elems is_rooted rest [e]
        end
      else clean_elems is_rooted rest (e :: out)
  end.

(** [path.Clean] (and [filepath.Clean] on Unix). *)
Definition Clean (p : string) : string :=
  if String.eqb p "" then "."
  else
    let r := rooted p in
    match clean_elems r (split_slash p) [] with
    | [] => if r then "/" else "."
    | elems => (if r then "/" else "") ++ join_slash elems
    end.

Fixpoint LastIndexSlash (s : string) : option nat :=
  match s with
  | "" => None
  | String c s' =>
      match LastIndexSlash s' with
      | Some i => Some (S i)
      | None => if Ascii.eqb c slash then Some 0 else None
      end
  end.

(** [path.Split]: the path up to and with its last slash, and the rest. *)
Definition Split (p : string) : string * string :=
  match LastIndexSlash p with
  | Some i => (slice_to (S i) p, slice_from (S i) p)
  | None => ("", p)
  end.

Definition Dir (p : string) : string := Clean (fst (Split p)).

End path.

(* ================================================================== *)
(** ** The file system *)
(* ================================================================== *)

(** A tree of regular files and directories without links and in which
    every node is accessible to the process: the errors of the model are
    not-exist, not-a-directory and is-a-directory. *)
Module vfs.

Inductive node : Type :=
| File (data : string)
| Dir (entries : list (string * node)).

Definition IsDir (n : node) : bool :=
  match n with Dir _ => true | File _ => false end.

Fixpoint lookup {A : Type} (name : string) (es : list (string * A)) : option A :=
  match es with
  | [] => None
  | (k, v) :: es' => if String.eqb k name then Some v else lookup name es'
  end.

(** Entries are kept in the order of their names, the order in which a
    directory is read. *)
Fixpoint upsert {A : Type} (name : string) (v : A) (es : list (string * A))
    : list (string * A) :=
  match es with
  | [] => [(name, v)]
  | (k, x) :: es' =>
      match String.compare name k with
      | Eq => (name, v) :: es'
      | Lt => (name, v) :: (k, x) :: es'
      | Gt => (k, x) :: upsert name v es'
      end
  end.

(** A location is the list of names from the root to a node. *)
Definition loc : Type := list string.

Fixpoint node_at (n : node) (l : loc) : option node :=
  match l with
  | [] => Some n
  | name :: l' =>
      match n with
      | Dir es =>
          match lookup name es with
          | Some c => node_at c l'
          | None => None
          end
      | File _ => None
      end
  end.

(** [put l new n]: the tree [n] with [new] at [l], the parent of [l]
    being a directory of [n]. *)
Fixpoint put (l : loc) (new : node) (n : node) : node :=
  match l with
  | [] => new
  | name :: l' =>
      match n with
      | Dir es =>
          match lookup name es with
          | Some c => Dir (upsert name (put l' new c) es)
          | None =>
              match l' with
              | [] => Dir (upsert name new es)
              | _ :: _ => n
              end
          end
      | File _ => n
      end
  end.

Record FileSystem : Type := mkFS {
  root : node;
  cwd : loc        (* the working directory of the process *)
}.

Definition is_dot (e : string) : bool := String.eqb e "" || String.eqb e ".".

(** Path resolution, element by element, from the location [cur]. *)
Fixpoint walk_elems (r : node) (cur : loc) (elems : list string) : Errno + loc :=
  match elems with
  | [] => inr cur
  | e :: rest =>
      match node_at r cur with
      | Some (Dir es) =>
          if is_dot e then walk_elems r cur rest
          else if String.eqb e ".." then walk_elems r (removelast cur) rest
          else
            match lookup e es with
            | Some _ => walk_elems r (cur ++ [e])%list rest
            | None => inl ENOENT
            end
      | Some (File _) => inl ENOTDIR
      | None => inl ENOENT
      end
  end.

Definition start (fs : FileSystem) (p : string) : loc :=
  if rooted p then [] else cwd fs.

Definition namei (fs : FileSystem) (p : string) : Errno + loc :=
  if String.eqb p "" then inl ENOENT
  else walk_elems (root fs) (start fs p) (split_slash p).

Definition stat (fs : FileSystem) (p : string) : Errno + node :=
  match namei fs p with
  | inl e => inl e
  | inr l =>
      match node_at (root fs) l with
      | Some n => inr n
      | None => inl ENOENT
      end
  end.

(** Opening [p] for reading and reading it to its end. *)
Definition read (fs : FileSystem) (p : string) : result string :=
  match stat fs p with
  | inl e => Err (PathError "open" p e)
  | inr (File data) => Ok data
  | inr (Dir _) => Err (PathError "read" p EISDIR)
  end.

(** Opening [p] with [O_WRONLY|O_CREATE|O_TRUNC] and writing [data]. *)
Definition write (fs : FileSystem) (p data : string) : Errno + FileSystem :=
  if String.eqb p "" then inl ENOENT
  else
    let elems := split_slash p in
    let name := last elems "" in
    match walk_elems (root fs) (start fs p) (removelast elems) with
    | inl e => inl e
    | inr parent =>
        match node_at (root fs) parent with
        | Some (Dir es) =>
            if is_dot name || String.eqb name ".." then inl EISDIR
            else
              match lookup name es with
              | Some (Dir _) => inl EISDIR
              | _ => inr (mkFS (put (parent ++ [name])%list (File data) (root fs)) (cwd fs))
              end
        | Some (File _) => inl ENOTDIR
        | None => inl ENOENT
        end
    end.

(** Creation of the directory named by [elems] and of its missing
    parents, from the location [cur]. *)
Fixpoint mkdir_elems (r : node) (cur : loc) (elems : list string) : Errno + node :=
  match elems with
  | [] => inr r
  | e :: rest =>
      match node_at r cur with
      | Some (Dir es) =>
          if is_dot e then mkdir_elems r cur rest
          else if String.eqb e ".." then mkdir_elems r (removelast cur) rest
          else
            match lookup e es with
            | Some (Dir _) => mkdir_elems r (cur ++ [e])%list rest
            | Some (File _) => inl ENOTDIR
            | None => mkdir_elems (put (cur ++ [e])%list (Dir []) r) (cur ++ [e])%list rest
            end
      | _ => inl ENOTDIR
      end
  end.

Definition mkdir_all (fs : FileSystem) (p : string) : Errno + FileSystem :=
  if String.eqb p "" then inl ENOENT
  else
    match mkdir_elems (root fs) (start fs p) (split_slash p) with
    | inl e => inl e
    | inr r => inr (mkFS r (cwd fs))
    end.

End vfs.

(* ================================================================== *)
(** ** The Anthropic SDK: messages *)
(* ================================================================== *)

Module anthropic.

(** A content block of a request. *)
Inductive ContentBlockParamUnion : Type :=
| OfText (Text : string)
| OfToolUse (ID Name : string) (Input : json.RawMessage)
| OfToolResult (ToolUseID Content : string) (IsError : bool)
| OfOther (Kind : string).

Inductive MessageParamRole : Type := user | assistant.

Record MessageParam : Type := mkMessageParam {
  Role : MessageParamRole;
  ParamContent : list ContentBlockParamUnion
}.

(** A content block of a reply, with the discriminating field [Type]. *)
Record ContentBlockUnion : Type := mkBlock {
  Kind : string;
  Text : string;
  ID : string;
  Name : string;
  Input : json.RawMessage
}.

Record Message : Type := mkMessage {
  Content : list ContentBlockUnion
}.

Definition NewTextBlock (text : string) : ContentBlockParamUnion := OfText text.

Definition NewToolResultBlock (toolUseID content : string) (isError : bool)
    : ContentBlockParamUnion :=
  OfToolResult toolUseID content isError.

Definition NewUserMessage (blocks : list ContentBlockParamUnion) : MessageParam :=
  mkMessageParam user blocks.

Definition BlockToParam (b : ContentBlockUnion) : ContentBlockParamUnion :=
  if String.eqb (Kind b) "text" then OfText (Text b)
  else if String.eqb (Kind b) "tool_use" then OfToolUse (ID b) (Name b) (Input b)
  else OfOther (Kind b).

(** [message.ToParam()]. *)
Definition ToParam (m : Message) : MessageParam :=
  mkMessageParam assistant (map BlockToParam (Content m)).

End anthropic.

(* ================================================================== *)
(** ** The process: world, events, the monad of Go computations *)
(* ================================================================== *)

(** What the process does to its environment, in order. *)
Inductive Event : Type :=
| Stdout (text : string)                                   (* fmt.Print* *)
| StdinRead (line : option string)                         (* scanner.Scan *)
| Inference (conversation : list anthropic.MessageParam)
            (toolNames : list string)                      (* client.Messages.New *)
| Syscall (op path : string).                              (* a call of package os *)

Record World : Type := mkWorld {
  fs : vfs.FileSystem;
  stdin : list string;     (* the lines not read yet *)
  trace : list Event
}.

(** A Go call returns or panics. *)
Inductive Outcome (A : Type) : Type :=
| Returned (a : A) (w : World)
| Panicked (v : error) (w : World).
Arguments Returned {A} a w.
Arguments Panicked {A} v w.

Definition Go (A : Type) : Type := World -> Outcome A.

Definition ret {A : Type} (a : A) : Go A := fun w => Returned a w.

Definition bind {A B : Type} (c : Go A) (k : A -> Go B) : Go B :=
  fun w =>
    match c w with
    | Returned a w' => k a w'
    | Panicked v w' => Panicked v w'
    end.

Definition panic {A : Type} (v : error) : Go A := fun w => Panicked v w.

Declare Scope go_scope.
Delimit Scope go_scope with go.
Notation "x <- c ;; k" := (bind c (fun x => k))
  (at level 61, c at next level, right associativity) : go_scope.
Notation "' pat <- c ;; k" := (bind c (fun x => match x with pat => k end))
  (at level 61, pat pattern, c at next level, right associativity) : go_scope.
Notation "c ;; k" := (bind c (fun _ => k))
  (at level 61, right associativity) : go_scope.
Open Scope go_scope.

Definition emit (ev : Event) : Go unit :=
  fun w => Returned tt (mkWorld (fs w) (stdin w) (trace w ++ [ev])).

Definition Print (text : string) : Go unit := emit (Stdout text).

Definition ESC : string := String (ascii_of_N 27) "".
Definition LF : string := String (ascii_of_N 10) "".

(* ================================================================== *)
(** ** Package os, and filepath.Walk *)
(* ================================================================== *)

Module os.

Definition ReadFile (name : string) : Go (result string) :=
  fun w =>
    Returned (vfs.read (fs w) name)
             (mkWorld (fs w) (stdin w) (trace w ++ [Syscall "ReadFile" name])).

Definition WriteFile (name data : string) : Go (option error) :=
  fun w =>
    let tr := (trace w ++ [Syscall "WriteFile" name])%list in
    match vfs.write (fs w) name data with
    | inl e => Returned (Some (PathError "open" name e)) (mkWorld (fs w) (stdin w) tr)
    | inr fs' => Returned None (mkWorld fs' (stdin w) tr)
    end.

Definition MkdirAll (p : string) : Go (option error) :=
  fun w =>
    let tr := (trace w ++ [Syscall "MkdirAll" p])%list in
    match vfs.mkdir_all (fs w) p with
    | inl e => Returned (Some (PathError "mkdir" p e)) (mkWorld (fs w) (stdin w) tr)
    | inr fs' => Returned None (mkWorld fs' (stdin w) tr)
    end.

(** [os.IsNotExist]: looks through a [PathError], not through [%w]. *)
Definition IsNotExist (err : error) : bool :=
  match err with
  | PathError _ _ ENOENT => true
  | _ => false
  end.

End os.

Module filepath.

(** [filepath.Join] of two elements. *)
Definition Join (a b : string) : string :=
  if String.eqb a "" then (if String.eqb b "" then "" else path.Clean b)
  else if String.eqb b "" then path.Clean a
  else path.Clean (a ++ "/" ++ b).

(** [s[:i]] and [s[i:]] for [i] the offset of the first slash of [s], or
    its length. *)
Fixpoint word (s : string) : string :=
  match s with
  | "" => ""
  | String c s' => if Ascii.eqb c slash then "" else String c (word s')
  end.

Fixpoint after_word (s : string) : string :=
  match s with
  | "" => ""
  | String c s' => if Ascii.eqb c slash then s else after_word s'
  end.

Definition skip_byte (s : string) : string :=
  match s with "" => "" | String _ s' => s' end.

(** The loop of [filepath.Rel] that skips the common leading elements.
    [brest] is [base[b0:]] and [trest] is [targ[t0:]]; the result is
    [(base[b0:bi], base[b0:], targ[t0:])] at the exit of the loop. *)
Fixpoint rel_loop (fuel : nat) (brest trest : string) : string * (string * string) :=
  match fuel with
  | O => ("", (brest, trest))
  | S fuel' =>
      if String.eqb brest "" || String.eqb trest "" then ("", (brest, trest))
      else if negb (String.eqb (word trest) (word brest)) then
        (word brest, (brest, trest))
      else
        rel_loop fuel' (skip_byte (after_word brest)) (skip_byte (after_word trest))
  end.

Fixpoint dotdots (seps : nat) : string :=
  match seps with
  | O => ""
  | S n => "/.." ++ dotdots n
  end.

Definition Rel (basepath targpath : string) : result string :=
  let base := path.Clean basepath in
  let targ := path.Clean targpath in
  if String.eqb targ base then Ok "."
  else
    let base := if String.eqb base "." then "" else base in
    if negb (Bool.eqb (rooted base) (rooted targ)) then
      Err (errorString ("Rel: can't make " ++ targpath ++ " relative to " ++ basepath))
    else
      let '(bword, (brest, trest)) := rel_loop (S (String.length base)) base targ in
      if String.eqb bword ".." then
        Err (errorString ("Rel: can't make " ++ targpath ++ " relative to " ++ basepath))
      else if negb (String.eqb brest "") then
        Ok (".." ++ dotdots (strings.Count brest "/")
                 ++ (if String.eqb trest "" then "" else "/" ++ trest))
      else Ok trest.

Record FileInfo : Type := mkFileInfo { IsDir : bool }.

Definition info_of (n : vfs.node) : FileInfo := mkFileInfo (vfs.IsDir n).

(** A [filepath.WalkFunc] that is a closure over a variable of type [S]:
    [func(path string, info os.FileInfo, err error) error]. *)
Definition WalkFunc (S : Type) : Type :=
  string -> option FileInfo -> option error -> S -> S * option error.

(** The function [walk] of the package.  The tree does not change while
    it is walked, so [lstat] of a name just read from a directory gives
    the entry read, and reading a directory does not fail.  The
    sentinels [SkipDir] and [SkipAll], which no callback of this program
    returns, are left out. *)
Fixpoint walk {S : Type} (walkFn : WalkFunc S) (path : string) (n : vfs.node) (st : S)
    : S * option error :=
  match n with
  | vfs.File _ => walkFn path (Some (info_of n)) None st
  | vfs.Dir entries =>
      let '(st1, err1) := walkFn path (Some (info_of n)) None st in
      match err1 with
      | Some _ => (st1, err1)
      | None =>
          (fix walk_entries (es : list (string * vfs.node)) (st : S) : S * option error :=
             match es with
             | [] => (st, None)
             | (name, child) :: es' =>
                 let '(st', err) := walk walkFn (Join path name) child st in
                 match err with
                 | Some _ => (st', err)
                 | None => walk_entries es' st'
                 end
             end) entries st1
      end
  end.

(** [filepath.Walk(root, fn)], [st] being the initial value of the
    variable [fn] closes over. *)
Definition Walk {S : Type} (root : string) (fn : WalkFunc S) (st : S)
    : Go (S * option error) :=
  fun w =>
    let w' := mkWorld (fs w) (stdin w) (trace w ++ [Syscall "Walk" root]) in
    match vfs.stat (fs w) root with
    | inl e => Returned (fn root None (Some (PathError "lstat" root e)) st) w'
    | inr n => Returned (walk fn root n st) w'
    end.

End filepath.

(* ================================================================== *)
(** ** main.go: the tools *)
(* ================================================================== *)

(** [ToolDefinition]; the input schema, which only the remote service
    reads, is left out. *)
Record ToolDefinition : Type := mkTool {
  Name : string;
  Description : string;
  Function : json.RawMessage -> Go (result string)
}.

(** *** read_file *)

Record ReadFileInput : Type := mkReadFileInput {
  ReadFileInput_Path : string      (* json:"path" *)
}.

Definition Unmarshal_ReadFileInput (input : json.RawMessage)
    : ReadFileInput * option error :=
  let '(st, err) := json.Unmarshal input "ReadFileInput" ["path"] in
  (mkReadFileInput (st "path"), err).

Definition ReadFile (input : json.RawMessage) : Go (result string) :=
  let '(readFileInput, err) := Unmarshal_ReadFileInput input in
  match err with
  | Some err => ret (Err (Errorf_w "invalid input format: " err))
  | None =>
      r <- os.ReadFile (ReadFileInput_Path readFileInput) ;;
      match r with
      | Err err =>
          ret (Err (Errorf_w ("failed to read file " ++ ReadFileInput_Path readFileInput ++ ": ")
                             err))
      | Ok content => ret (Ok content)
      end
  end.

Definition ReadFileDefinition : ToolDefinition :=
  mkTool "read_file"
    "Read the contents of a given relative file path. Use this when you want to see what's inside a file. Do not use this with directory names."
    ReadFile.

(** *** list_files *)

Record ListFilesInput : Type := mkListFilesInput {
  ListFilesInput_Path : string     (* json:"path,omitempty" *)
}.

Definition Unmarshal_ListFilesInput (input : json.RawMessage)
    : ListFilesInput * option error :=
  let '(st, err) := json.Unmarshal input "ListFilesInput" ["path"] in
  (mkListFilesInput (st "path"), err).

(** The function literal passed to [filepath.Walk]; it closes over [dir]
    and over the slice [files]. *)
Definition ListFiles_walkFn (dir : string) : filepath.WalkFunc (option (list string)) :=
  fun path info err files =>
    match err with
    | Some err => (files, Some err)
    | None =>
        match filepath.Rel dir path with
        | Err err => (files, Some err)
        | Ok relPath =>
            if negb (String.eqb relPath ".") then
              if match info with Some i => filepath.IsDir i | None => false end
              then (append_slice files (relPath ++ "/"), None)
              else (append_slice files relPath, None)
            else (files, None)
        end
    end.

Definition ListFiles (input : json.RawMessage) : Go (result string) :=
  let '(listFilesInput, err) := Unmarshal_ListFilesInput input in
  match err with
  | Some err => panic err
  | None =>
      let dir :=
        if negb (String.eqb (ListFilesInput_Path listFilesInput) "")
        then ListFilesInput_Path listFilesInput else "." in
      (* var files []string *)
      '(files, err) <- filepath.Walk dir (ListFiles_walkFn dir) None ;;
      match err with
      | Some err => ret (Err err)
      | None =>
          (* json.Marshal of a []string does not fail *)
          ret (Ok (json.Marshal_strings files))
      end
  end.

Definition ListFilesDefinition : ToolDefinition :=
  mkTool "list_files"
    "List files and directories at a given path. If no path is provided, lists files in the current directory."
    ListFiles.

(** *** edit_file *)

Record EditFileInput : Type := mkEditFileInput {
  Path : string;       (* json:"path" *)
  OldStr : string;     (* json:"old_str" *)
  NewStr : string      (* json:"new_str" *)
}.

Definition Unmarshal_EditFileInput (input : json.RawMessage)
    : EditFileInput * option error :=
  let '(st, err) := json.Unmarshal input "EditFileInput" ["path"; "old_str"; "new_str"] in
  (mkEditFileInput (st "path") (st "old_str") (st "new_str"), err).

Definition createNewFile (filePath content : string) : Go (result string) :=
  let dir := path.Dir filePath in
  err <- (if negb (String.eqb dir ".") then os.MkdirAll dir else ret None) ;;
  match err with
  | Some err => ret (Err (Errorf_w "failed to create directory: " err))
  | None =>
      err <- os.WriteFile filePath content ;;
      match err with
      | Some err => ret (Err (Errorf_w "failed to create file: " err))
      | None => ret (Ok ("Successfully created file " ++ filePath))
      end
  end.

Definition EditFile (input : json.RawMessage) : Go (result string) :=
  let '(editFileInput, err) := Unmarshal_EditFileInput input in
  match err with
  | Some err => ret (Err err)
  | None =>
      if String.eqb (Path editFileInput) ""
         || String.eqb (OldStr editFileInput) (NewStr editFileInput)
      then ret (Err (errorString "invalid input parameters"))
      else
        r <- os.ReadFile (Path editFileInput) ;;
        match r with
        | Err err =>
            if os.IsNotExist err && String.eqb (OldStr editFileInput) ""
            then createNewFile (Path editFileInput) (NewStr editFileInput)
            else ret (Err err)
        | Ok content =>
            let oldContent := content in
            let newContent :=
              strings.Replace oldContent (OldStr editFileInput) (NewStr editFileInput) (-1) in
            if String.eqb oldContent newContent
               && negb (String.eqb (OldStr editFileInput) "")
            then ret (Err (errorString "old_str not found in file"))
            else
              err <- os.WriteFile (Path editFileInput) newContent ;;
              match err with
              | Some err => ret (Err err)
              | None => ret (Ok "OK")
              end
        end
  end.

Definition EditFileDefinition : ToolDefinition :=
  mkTool "edit_file"
    ("Make edits to a text file." ++ LF ++ LF
     ++ "Replaces 'old_str' with 'new_str' in the given file. 'old_str' and 'new_str' MUST be different from each other."
     ++ LF ++ LF
     ++ "If the file specified with path doesn't exist, it will be created." ++ LF)
    EditFile.

(* ================================================================== *)
(** ** main.go: the agent *)
(* ================================================================== *)

(** The remote service behind [client.Messages.New]: it answers a
    conversation and the advertised tools with a reply or an error. *)
Definition Client : Type :=
  list anthropic.MessageParam -> list (string * string) -> result anthropic.Message.

Record Agent : Type := mkAgent {
  client : Client;
  getUserMessage : Go (string * bool);
  tools : list ToolDefinition
}.

Definition NewAgent (client : Client) (getUserMessage : Go (string * bool))
    (tools : list ToolDefinition) : Agent :=
  mkAgent client getUserMessage tools.

(** The closure [getUserMessage] of [main], over a scanner of the standard
    input. *)
Definition scanner_getUserMessage : Go (string * bool) :=
  fun w =>
    match stdin w with
    | [] => Returned ("", false) (mkWorld (fs w) [] (trace w ++ [StdinRead None]))
    | line :: rest =>
        Returned (line, true) (mkWorld (fs w) rest (trace w ++ [StdinRead (Some line)]))
    end.

(** The name and description of each tool, as the service is sent them. *)
Definition convertToolsToAnthropicFormat (a : Agent) : list (string * string) :=
  map (fun tool => (Name tool, Description tool)) (tools a).

Definition runInference (a : Agent) (conversation : list anthropic.MessageParam)
    : Go (result anthropic.Message) :=
  let anthropicTools := convertToolsToAnthropicFormat a in
  emit (Inference conversation (map fst anthropicTools)) ;;
  ret (client a conversation anthropicTools).

Definition executeTool (a : Agent) (id name : string) (input : json.RawMessage)
    : Go anthropic.ContentBlockParamUnion :=
  match find (fun tool => String.eqb (Name tool) name) (tools a) with
  | None => ret (anthropic.NewToolResultBlock id "tool not found" true)
  | Some toolDef =>
      Print (ESC ++ "[92mtool" ++ ESC ++ "[0m: " ++ name ++ "(" ++ json.bytes input ++ ")" ++ LF) ;;
      r <- Function toolDef input ;;
      match r with
      | Err err => ret (anthropic.NewToolResultBlock id (Error err) true)
      | Ok response => ret (anthropic.NewToolResultBlock id response false)
      end
  end.

(** The loop of [processClaudeResponse] over the content of a reply. *)
Fixpoint processContent (a : Agent) (content : list anthropic.ContentBlockUnion)
    (toolResults : list anthropic.ContentBlockParamUnion)
    : Go (list anthropic.ContentBlockParamUnion) :=
  match content with
  | [] => ret toolResults
  | c :: rest =>
      if String.eqb (anthropic.Kind c) "text" then
        Print (ESC ++ "[93mClaude" ++ ESC ++ "[0m: " ++ anthropic.Text c ++ LF) ;;
        processContent a rest toolResults
      else if String.eqb (anthropic.Kind c) "tool_use" then
        res <- executeTool a (anthropic.ID c) (anthropic.Name c) (anthropic.Input c) ;;
        processContent a rest (toolResults ++ [res])%list
      else processContent a rest toolResults
  end.

Definition processClaudeResponse (a : Agent) (message : anthropic.Message)
    : Go (list anthropic.ContentBlockParamUnion) :=
  processContent a (anthropic.Content message) [].

(** How one pass through the body of the loop of [Run] ends. *)
Inductive LoopStep : Type :=
| Continue (conversation : list anthropic.MessageParam) (readUserInput : bool)
| Break
| Return (err : error).

(** The body of the [for] loop of [Run], from the values of the variables
    [conversation] and [readUserInput] at its head. *)
Definition Run_body (a : Agent) (conversation : list anthropic.MessageParam)
    (readUserInput : bool) : Go LoopStep :=
  input <-
    (if readUserInput then
       Print (ESC ++ "[94mYou" ++ ESC ++ "[0m: ") ;;
       '(userInput, ok) <- getUserMessage a ;;
       if negb ok then ret None
       else
         let userMessage := anthropic.NewUserMessage [anthropic.NewTextBlock userInput] in
         ret (Some (conversation ++ [userMessage])%list)
     else ret (Some conversation)) ;;
  match input with
  | None => ret Break
  | Some conversation =>
      r <- runInference a conversation ;;
      match r with
      | Err err => ret (Return err)
      | Ok message =>
          let conversation := (conversation ++ [anthropic.ToParam message])%list in
          toolResults <- processClaudeResponse a message ;;
          if (0 <? List.length toolResults)%nat then
            let toolResultMessage := anthropic.NewUserMessage toolResults in
            ret (Continue (conversation ++ [toolResultMessage])%list false)
          else ret (Continue conversation true)
      end
  end.

(** The loop, for at most [fuel] passes: [None] when they do not end it. *)
Fixpoint Run_loop (fuel : nat) (a : Agent) (conversation : list anthropic.MessageParam)
    (readUserInput : bool) (w : World) : option (Outcome (option error)) :=
  match fuel with
  | O => None
  | S fuel' =>
      match Run_body a conversation readUserInput w with
      | Returned (Continue conversation' readUserInput') w' =>
          Run_loop fuel' a conversation' readUserInput' w'
      | Returned Break w' => Some (Returned None w')
      | Returned (Return err) w' => Some (Returned (Some err) w')
      | Panicked v w' => Some (Panicked v w')
      end
  end.

Definition Run (fuel : nat) (a : Agent) (w : World) : option (Outcome (option error)) :=
  match Print ("Chat with Claude (use 'ctrl-c' to quit)" ++ LF) w with
  | Returned _ w' => Run_loop fuel a [] true w'
  | Panicked v w' => Some (Panicked v w')
  end.

(** [main] from the point where the client is initialised; the result is
    the exit status of the process (2 after a panic). *)
Definition main (fuel : nat) (client : Client) (w : World) : option (nat * World) :=
  let tools := [ReadFileDefinition; ListFilesDefinition; EditFileDefinition] in
  let agent := NewAgent client scanner_getUserMessage tools in
  match Run fuel agent w with
  | None => None
  | Some (Returned None w') => Some (0, w')
  | Some (Returned (Some err) w') =>
      match Print ("Error: " ++ Error err ++ LF) w' with
      | Returned _ w'' => Some (1, w'')
      | Panicked _ w'' => Some (2, w'')
      end
  | Some (Panicked _ w') => Some (2, w')
  end.

(* ================================================================== *)
(** ** The chat-only program (the second [main] package of the repository) *)
(* ================================================================== *)

Module Chat.

Record Agent : Type := mkAgent {
  client : list anthropic.MessageParam -> result anthropic.Message;
  getUserMessage : Go (string * bool)
}.

Definition runInference (a : Agent) (conversation : list anthropic.MessageParam)
    : Go (result anthropic.Message) :=
  emit (Inference conversation []) ;;
  ret (client a conversation).

Fixpoint printContent (content : list anthropic.ContentBlockUnion) : Go unit :=
  match content with
  | [] => ret tt
  | c :: rest =>
      if String.eqb (anthropic.Kind c) "text" then
        Print (ESC ++ "[93mClaude" ++ ESC ++ "[0m: " ++ anthropic.Text c ++ LF) ;;
        printContent rest
      else printContent rest
  end.

(** The body of the loop of [Run]; [Continue] carries the conversation
    to the next pass, which always reads a line first. *)
Definition Run_body (a : Agent) (conversation : list anthropic.MessageParam)
    : Go LoopStep :=
  Print (ESC ++ "[94mYou" ++ ESC ++ "[0m: ") ;;
  '(userInput, ok) <- getUserMessage a ;;
  if negb ok then ret Break
  else
    let userMessage := anthropic.NewUserMessage [anthropic.NewTextBlock userInput] in
    let conversation := (conversation ++ [userMessage])%list in
    r <- runInference a conversation ;;
    match r with
    | Err err =>
        if strings.Contains (Error err) "overloaded_error" then
          Print (LF ++ ESC ++ "[93mClaude" ++ ESC
                    ++ "[0m: Sorry, I'm currently overloaded. Please try again in a moment."
                    ++ LF) ;;
          ret (Continue conversation true)
        else ret (Return err)
    | Ok message =>
        let conversation := (conversation ++ [anthropic.ToParam message])%list in
        printContent (anthropic.Content message) ;;
        ret (Continue conversation true)
    end.

Fixpoint Run_loop (fuel : nat) (a : Agent) (conversation : list anthropic.MessageParam)
    (w : World) : option (Outcome (option error)) :=
  match fuel with
  | O => None
  | S fuel' =>
      match Run_body a conversation w with
      | Returned (Continue conversation' _) w' => Run_loop fuel' a conversation' w'
      | Returned Break w' => Some (Returned None w')
      | Returned (Return err) w' => Some (Returned (Some err) w')
      | Panicked v w' => Some (Panicked v w')
      end
  end.

Definition Run (fuel : nat) (a : Agent) (w : World) : option (Outcome (option error)) :=
  match Print ("Chat with Claude (use 'ctrl-c' to quit)" ++ LF) w with
  | Returned _ w' => Run_loop fuel a [] w'
  | Panicked v w' => Some (Panicked v w')
  end.

End Chat.

(* ================================================================== *)
(** ** main.go: the start of the process *)
(* ================================================================== *)

(** The environment of the process: [os.Getenv] of a variable that is not
    set is the empty string. *)
Definition Env : Type := string -> string.

Fixpoint has_byte (c : ascii) (s : string) : bool :=
  match s with
  | "" => false
  | String c' s' => Ascii.eqb c' c || has_byte c s'
  end.

(** [os.Setenv]: the call fails, and sets nothing, for an empty name, a
    name with [=] or a zero byte, and a value with a zero byte; its callers
    here drop the error. *)
Definition Setenv (env : Env) (key value : string) : Env :=
  if String.eqb key "" || has_byte "="%char key || has_byte zero key || has_byte zero value
  then env
  else fun k => if String.eqb k key then value else env k.

(** [strings.Split(s, sep)] for a separator of one byte. *)
Fixpoint split_byte (sep : ascii) (s : string) : list string :=
  match s with
  | "" => [""]
  | String c s' =>
      if Ascii.eqb c sep then "" :: split_byte sep s'
      else
        match split_byte sep s' with
        | [] => [String c ""]
        | h :: t => String c h :: t
        end
  end.

(** [strings.TrimPrefix]. *)
Definition TrimPrefix (s prefix : string) : string :=
  if strings.HasPrefix s prefix then slice_from (String.length prefix) s else s.

Definition Println (text : string) : Go unit := Print (text ++ LF).

Definition KEY : string := "ANTHROPIC_API_KEY".

(** The loop of [loadAPIKey] over the lines of the config file: it
    returns at the first line with the prefix. *)
Fixpoint key_of_lines (lines : list string) : option string :=
  match lines with
  | [] => None
  | line :: rest =>
      if strings.HasPrefix line "ANTHROPIC_API_KEY="
      then Some (TrimPrefix line "ANTHROPIC_API_KEY=")
      else key_of_lines rest
  end.

Definition loadAPIKey (env : Env) : Go string :=
  let apiKey := env KEY in
  if negb (String.eqb apiKey "") then ret apiKey
  else
    r <- os.ReadFile "config.env" ;;
    match
      match r with
      | Ok data => key_of_lines (split_byte (ascii_of_N 10) data)
      | Err _ => None
      end
    with
    | Some key => ret key
    | None =>
        Println "Error: ANTHROPIC_API_KEY is required" ;;
        Println "Please either:" ;;
        Println "1. Set environment variable: export ANTHROPIC_API_KEY=your_api_key_here" ;;
        Println "2. Add your key to config.env file" ;;
        ret ""
    end.

Definition decimal (n : nat) : string := NilEmpty.string_of_uint (Nat.to_uint n).

(** The run-time panic of the slice expression [s[:20]] on a string of
    [n < 20] bytes. *)
Definition slice_bounds_error (n : nat) : error :=
  errorString ("runtime error: slice bounds out of range [:20] with length " ++ decimal n).

(** [initializeClient].  [connect] is what [anthropic.NewClient] makes of
    the key it finds in the environment; the environment after the call is
    returned beside the result. *)
Definition initializeClient (connect : string -> Client) (env : Env)
    : Go (result Client * Env) :=
  apiKey <- loadAPIKey env ;;
  if String.eqb apiKey "" then
    ret (Err (errorString "ANTHROPIC_API_KEY is required"), env)
  else if (String.length apiKey <? 20)%nat then
    panic (slice_bounds_error (String.length apiKey))
  else
    Print ("API Key loaded: " ++ slice_to 20 apiKey ++ "..." ++ LF) ;;
    let env' := Setenv env KEY apiKey in
    ret (Ok (connect (env' KEY)), env').

(** [main] from the start of the process. *)
Definition main_from_env (fuel : nat) (connect : string -> Client) (env : Env) (w : World)
    : option (nat * World) :=
  match initializeClient connect env w with
  | Panicked _ w' => Some (2, w')
  | Returned (Err err, _) w' =>
      match Print ("Error: " ++ Error err ++ LF) w' with
      | Returned _ w'' => Some (1, w'')
      | Panicked _ w'' => Some (2, w'')
      end
  | Returned (Ok client, _) w' => main fuel client w'
  end.

(** *** The [main] of the chat-only program *)

Module ChatMain.

(** The loop over the lines of the config file: it assigns the key and
    breaks at the first line with the prefix. *)
Fixpoint scan_lines (apiKey : string) (lines : list string) : string :=
  match lines with
  | [] => apiKey
  | line :: rest =>
      if strings.HasPrefix line "ANTHROPIC_API_KEY="
      then TrimPrefix line "ANTHROPIC_API_KEY="
      else scan_lines apiKey rest
  end.

(** The first statements of [main]: the key from the environment or from
    the config file. *)
Definition resolve_key (env : Env) : Go string :=
  let apiKey := env KEY in
  if String.eqb apiKey "" then
    r <- os.ReadFile "config.env" ;;
    match r with
    | Ok data => ret (scan_lines apiKey (split_byte (ascii_of_N 10) data))
    | Err _ => ret apiKey
    end
  else ret apiKey.

Definition main (fuel : nat)
    (connect : string -> list anthropic.MessageParam -> result anthropic.Message)
    (env : Env) (w : World) : option (nat * World) :=
  match resolve_key env w with
  | Panicked _ w' => Some (2, w')
  | Returned apiKey w' =>
      if String.eqb apiKey "" then
        match
          (Println "Error: ANTHROPIC_API_KEY is required" ;;
           Println "Please either:" ;;
           Println "1. Set environment variable: export ANTHROPIC_API_KEY=your_api_key_here" ;;
           Println "2. Add your key to config.env file") w'
        with
        | Returned _ w'' => Some (1, w'')
        | Panicked _ w'' => Some (2, w'')
        end
      else if (String.length apiKey <? 20)%nat then Some (2, w')
      else
        match Print ("API Key loaded: " ++ slice_to 20 apiKey ++ "..." ++ LF) w' with
        | Panicked _ w'' => Some (2, w'')
        | Returned _ w'' =>
            let env' := Setenv env KEY apiKey in
            let agent := Chat.mkAgent (connect (env' KEY)) scanner_getUserMessage in
            match Chat.Run fuel agent w'' with
            | None => None
            | Some (Returned None w3) => Some (0, w3)
            | Some (Returned (Some err) w3) =>
                match Print ("Error: " ++ Error err ++ LF) w3 with
                | Returned _ w4 => Some (1, w4)
                | Panicked _ w4 => Some (2, w4)
                end
            | Some (Panicked _ w3) => Some (2, w3)
            end
        end
  end.

End ChatMain.

(* ================================================================== *)
(** ** The vocabulary of the properties, and fixtures *)
(* ================================================================== *)

(** [old] occurs in [s]. *)
Definition occurs (old s : string) : Prop :=
  exists a b, s = a ++ old ++ b.

(** What replacing every occurrence means: [ReplacedAll old new s r] when
    [r] is [s] with its occurrences of [old], taken from the left and
    without overlap, each replaced by [new]. *)
Inductive ReplacedAll (old new : string) : string -> string -> Prop :=
| RA_none (s : string) :
    ~ occurs old s -> ReplacedAll old new s s
| RA_step (a b r : string) :
    (forall a' b', a ++ old ++ b = a' ++ old ++ b' -> String.length a <= String.length a') ->
    ReplacedAll old new b r ->
    ReplacedAll old new (a ++ old ++ b) (a ++ new ++ r).

Fixpoint flatten (l : list string) : string :=
  match l with
  | [] => ""
  | x :: l' => x ++ flatten l'
  end.

(** [new] put in front of every rune of [s] and behind the last one. *)
Definition insert_at_boundaries (new s : string) : string :=
  new ++ flatten (map (fun r => r ++ new) (utf8.runes s)).

(** Whether there is a node at a location, and of which kind. *)
Definition kind_at (r : vfs.node) (x : vfs.loc) : option bool :=
  option_map vfs.IsDir (vfs.node_at r x).

(** A node without anything below it. *)
Definition leaf (n : vfs.node) : Prop :=
  match n with
  | vfs.File _ => True
  | vfs.Dir es => es = []
  end.

(** An element of a path that names an entry. *)
Definition proper_name (e : string) : Prop :=
  vfs.is_dot e = false /\ String.eqb e ".." = false.

(** The world after a call of package [os] that left the tree alone. *)
Definition logged (w : World) (evs : list Event) : World :=
  mkWorld (fs w) (stdin w) (trace w ++ evs)%list.

Definition quoted (s : string) : string := json.quote s.

(** The input [{"path":p,"old_str":o,"new_str":n}] of an edit_file call. *)
Definition edit_request (p o n : string) : json.RawMessage :=
  json.mkRaw
    ("{" ++ quoted "path" ++ ":" ++ quoted p ++ "," ++ quoted "old_str" ++ ":" ++ quoted o
         ++ "," ++ quoted "new_str" ++ ":" ++ quoted n ++ "}")
    (inr (json.Object [("path", json.Str p); ("old_str", json.Str o);
                       ("new_str", json.Str n)])).

(** The input [{"path":p}] of a read_file or list_files call. *)
Definition path_request (p : string) : json.RawMessage :=
  json.mkRaw ("{" ++ quoted "path" ++ ":" ++ quoted p ++ "}")
             (inr (json.Object [("path", json.Str p)])).

(** A project directory, which is the working directory, next to an
    empty one. *)
Definition demo_fs : vfs.FileSystem :=
  vfs.mkFS
    (vfs.Dir [("empty", vfs.Dir []);
              ("proj", vfs.Dir [("notes.txt", vfs.File "a-b-c");
                                ("x.go", vfs.File "package x");
                                ("y", vfs.Dir [])])])
    ["proj"].

Definition demo_world : World := mkWorld demo_fs [] [].

Definition world_of {A : Type} (o : Outcome A) : World :=
  match o with
  | Returned _ w => w
  | Panicked _ w => w
  end.

Definition main_tools : list ToolDefinition :=
  [ReadFileDefinition; ListFilesDefinition; EditFileDefinition].

Definition main_agent (client : Client) : Agent :=
  NewAgent client scanner_getUserMessage main_tools.

(** A reply with one tool_use block. *)
Definition tool_use_reply (id name : string) (input : json.RawMessage) : anthropic.Message :=
  anthropic.mkMessage [anthropic.mkBlock "tool_use" "" id name input].

Definition text_reply (text : string) : anthropic.Message :=
  anthropic.mkMessage [anthropic.mkBlock "text" text "" "" (json.mkRaw "" (inl ""))].

(** A service that answers the first request (a conversation of one
    message) with [first] and every later one with a text. *)
Definition scripted_client (first : anthropic.Message) : Client :=
  fun conversation _ =>
    match conversation with
    | [_] => Ok first
    | _ => Ok (text_reply "done")
    end.

(** A service that fails every request with [err]. *)
Definition failing_client (err : error) : Client := fun _ _ => Err err.

(** The input [{"path":123}]: well-formed JSON of the wrong shape. *)
Definition numeric_path_request : json.RawMessage :=
  json.mkRaw ("{" ++ quoted "path" ++ ":123}")
             (inr (json.Object [("path", json.Number "123")])).

(** The directory list_files walks. *)
Definition ListFiles_dir (i : ListFilesInput) : string :=
  if negb (String.eqb (ListFilesInput_Path i) "") then ListFilesInput_Path i else ".".

(** An overload as the service reports it. *)
Definition overloaded : error :=
  errorString "POST /v1/messages: 529 Overloaded (type: overloaded_error)".

(** An event other than a read of the standard input. *)
Definition no_stdin (ev : Event) : Prop :=
  match ev with
  | StdinRead _ => False
  | _ => True
  end.

(** [w'] comes after [w] without a read of the standard input. *)
Definition quiet_step (w w' : World) : Prop :=
  stdin w' = stdin w
  /\ exists evs, trace w' = (trace w ++ evs)%list /\ Forall no_stdin evs.

(** A computation that does not read the standard input. *)
Definition quiet {A : Type} (c : Go A) : Prop :=
  forall w, quiet_step w (world_of (c w)).

(** One logged event that is not a read of the standard input. *)
Ltac one_event ev :=
  split; [reflexivity|]; exists [ev];
  split; [reflexivity | constructor; [exact I | constructor]].

(** The tools of an agent do not read the standard input. *)
Definition quiet_tools (a : Agent) : Prop :=
  forall tool, In tool (tools a) -> forall input, quiet (Function tool input).

Definition prompt : string := ESC ++ "[94mYou" ++ ESC ++ "[0m: ".

(** The scenario of the specification: the user asks for the files, the
    service answers with a list_files invocation without a path. *)
Definition empty_object : json.RawMessage := json.mkRaw "{}" (inr (json.Object [])).

Definition scenario_agent : Agent :=
  main_agent (scripted_client (tool_use_reply "toolu_1" "list_files" empty_object)).

Definition scenario_world : World := mkWorld demo_fs ["list files"] [].

Definition scenario_conversation : list anthropic.MessageParam :=
  [anthropic.NewUserMessage [anthropic.OfText "list files"];
   anthropic.mkMessageParam anthropic.assistant
     [anthropic.OfToolUse "toolu_1" "list_files" empty_object];
   anthropic.NewUserMessage
     [anthropic.OfToolResult "toolu_1"
        (json.Marshal_strings (Some ["notes.txt"; "x.go"; "y/"])) false]].

Definition scenario_world' : World :=
  world_of (Run_body scenario_agent [] true scenario_world).

(** A string without a slash is its own and only element. *)
Definition slash_free (e : string) : Prop := split_slash e = [e].

(** [r1] has, wherever [r] has a node, a node of the same kind. *)
Definition extends (r r1 : vfs.node) : Prop :=
  forall x, kind_at r x <> None -> kind_at r1 x = kind_at r x.

(** A name of a directory entry: not empty, [.] or [..], and without a
    slash. *)
Definition entry_name (e : string) : Prop := proper_name e /\ slash_free e.

(** A tree all of whose entries have such names. *)
Fixpoint wf_node (n : vfs.node) : Prop :=
  match n with
  | vfs.File _ => True
  | vfs.Dir entries =>
      (fix wf_entries (es : list (string * vfs.node)) : Prop :=
         match es with
         | [] => True
         | (name, child) :: es' => entry_name name /\ wf_node child /\ wf_entries es'
         end) entries
  end.

(** What list_files is to list, in the words of the specification: for
    every descendant of the root, the root excluded, its path relative to
    the root, with a slash behind it for a directory.  [ns] are the names
    from the root to [n]. *)
Definition listed (ns : list string) (n : vfs.node) : string :=
  join_slash ns ++ (if vfs.IsDir n then "/" else "").

Fixpoint listing (ns : list string) (n : vfs.node) : list string :=
  match n with
  | vfs.File _ => []
  | vfs.Dir entries =>
      (fix listing_entries (es : list (string * vfs.node)) : list string :=
         match es with
         | [] => []
         | (name, child) :: es' =>
             (listed (ns ++ [name]) child :: listing (ns ++ [name]) child
              ++ listing_entries es')%list
         end) entries
  end.

(** The slice that holds the strings [l] after they were appended, one by
    one, to a nil slice. *)
Definition slice_of (l : list string) : option (list string) :=
  match l with
  | [] => None
  | _ :: _ => Some l
  end.

(** The path [Walk] passes to the callback for the node at [ns] below the
    root, when the directory walked, [dir], is [.] ([D] is empty) or a
    relative path of the names [D]. *)
Definition walked (dir : string) (D ns : list string) : string :=
  match ns with
  | [] => dir
  | _ :: _ => join_slash (D ++ ns)%list
  end.

(** The strings the callback of list_files appends at a node: nothing at
    the root. *)
Definition own (ns : list string) (n : vfs.node) : list string :=
  match ns with
  | [] => []
  | _ :: _ => [listed ns n]
  end.

(** A reply without a tool_use block. *)
Definition text_only (m : anthropic.Message) : Prop :=
  Forall (fun c => String.eqb (anthropic.Kind c) "tool_use" = false) (anthropic.Content m).

(** The conversations of the inference calls of a trace, in order. *)
Fixpoint inference_conversations (evs : list Event) : list (list anthropic.MessageParam) :=
  match evs with
  | [] => []
  | Inference conversation _ :: rest => conversation :: inference_conversations rest
  | _ :: rest => inference_conversations rest
  end.

(** The number of reads of the standard input in a trace. *)
Fixpoint stdin_reads (evs : list Event) : nat :=
  match evs with
  | [] => 0
  | StdinRead _ :: rest => S (stdin_reads rest)
  | _ :: rest => stdin_reads rest
  end.

Definition is_stdout (ev : Event) : Prop :=
  match ev with
  | Stdout _ => True
  | _ => False
  end.

Definition user_line (line : string) : anthropic.MessageParam :=
  anthropic.NewUserMessage [anthropic.NewTextBlock line].

(** The line feed, the separator of the lines of the config file. *)
Definition nl : ascii := ascii_of_N 10.

(** A string without a line feed. *)
Definition one_line (l : string) : Prop := split_byte nl l = [l].

Definition join_lines (lines : list string) : string := String.concat LF lines.

(** The four lines [loadAPIKey] prints when it finds no key. *)
Definition remediation : list Event :=
  [Stdout ("Error: ANTHROPIC_API_KEY is required" ++ LF);
   Stdout ("Please either:" ++ LF);
   Stdout ("1. Set environment variable: export ANTHROPIC_API_KEY=your_api_key_here" ++ LF);
   Stdout ("2. Add your key to config.env file" ++ LF)].

Definition sorry_overloaded : string :=
  LF ++ ESC ++ "[93mClaude" ++ ESC
     ++ "[0m: Sorry, I'm currently overloaded. Please try again in a moment." ++ LF.

(** A world whose working directory holds config.env and nothing else. *)
Definition config_world (data : string) : World :=
  mkWorld (vfs.mkFS (vfs.Dir [("config.env", vfs.File data)]) []) [] [].

(** The environment without any variable, and with the key alone. *)
Definition no_env : Env := fun _ => "".

Definition env_with_key (key : string) : Env :=
  fun k => if String.eqb k KEY then key else "".

(* ================================================================== *)
(** * Properties *)
(* ================================================================== *)

(** ** The models of the library functions on examples *)

Example Clean_examples :
  map path.Clean ["a//b/./c/.."; "/../a"; "../../x"; ""; "a/.."; "/"; "abc/"]
  = ["a/b"; "/a"; "../../x"; "."; "."; "/"; "abc"].
Proof. reflexivity. Qed.

Example Dir_examples :
  map path.Dir ["a/b/c.txt"; "c.txt"; "/c.txt"; "a/"; "x/../y"]
  = ["a/b"; "."; "/"; "a"; "."].
Proof. reflexivity. Qed.

Example Marshal_examples :
  json.Marshal_strings (Some ["x.go"; "y/"]) = "[" ++ json.quote "x.go" ++ "," ++ json.quote "y/" ++ "]"
  /\ json.Marshal_strings (Some []) = "[]"
  /\ json.Marshal_strings None = "null".
Proof. repeat split. Qed.

Example Rel_examples :
  map (fun p => filepath.Rel (fst p) (snd p))
      [(".", "a/b"); ("src", "src/x.go"); ("/", "/x"); ("a/b", "a/c/d"); ("..", "../foo");
       (".", ".")]
  = [Ok "a/b"; Ok "x.go"; Ok "x"; Ok "../c/d"; Ok "foo"; Ok "."].
Proof. reflexivity. Qed.


(** ** Byte strings *)

Section StringFacts.

Lemma append_nil_r (s : string) : s ++ "" = s.
Proof. induction s as [|c s IH]; simpl; [reflexivity | now rewrite IH]. Qed.

Lemma append_assoc (a b c : string) : (a ++ b) ++ c = a ++ (b ++ c).
Proof. induction a as [|x a IH]; simpl; [reflexivity | now rewrite IH]. Qed.

Lemma length_append (a b : string) :
  String.length (a ++ b) = String.length a + String.length b.
Proof. induction a as [|x a IH]; simpl; [reflexivity | now rewrite IH]. Qed.

Lemma append_inv_head (a b c : string) : a ++ b = a ++ c -> b = c.
Proof.
  induction a as [|x a IH]; simpl; intros H; [assumption|].
  injection H as H. auto.
Qed.

Lemma append_same_length (a b c d : string) :
  String.length a = String.length c -> a ++ b = c ++ d -> a = c /\ b = d.
Proof.
  revert c. induction a as [|x a IH]; intros [|y c] Hlen H; simpl in *; try discriminate.
  - auto.
  - injection H as -> H. injection Hlen as Hlen.
    destruct (IH c Hlen H) as [-> ->]. auto.
Qed.

Lemma slice_to_from (n : nat) (s : string) : slice_to n s ++ slice_from n s = s.
Proof.
  revert s. induction n as [|n IH]; intros [|c s]; simpl; try reflexivity.
  now rewrite IH.
Qed.

Lemma slice_from_append (a b : string) : slice_from (String.length a) (a ++ b) = b.
Proof.
  induction a as [|x a IH]; simpl; [now destruct b | assumption].
Qed.

Lemma slice_to_append (a b : string) : slice_to (String.length a) (a ++ b) = a.
Proof.
  induction a as [|x a IH]; simpl; [now destruct b | now rewrite IH].
Qed.

Lemma length_slice_from (n : nat) (s : string) :
  String.length (slice_from n s) = String.length s - n.
Proof.
  revert s. induction n as [|n IH]; intros [|c s]; simpl; auto.
Qed.

Lemma length_slice_to (n : nat) (s : string) :
  n <= String.length s -> String.length (slice_to n s) = n.
Proof.
  revert s. induction n as [|n IH]; intros [|c s]; simpl; intros H; try lia.
  rewrite IH; lia.
Qed.

Lemma slice_from_add (n m : nat) (s : string) :
  slice_from (n + m) s = slice_from m (slice_from n s).
Proof.
  revert s. induction n as [|n IH]; intros s; simpl; [reflexivity|].
  destruct s as [|c s]; [now destruct m | apply IH].
Qed.

End StringFacts.

(** ** Package strings: occurrences and replacement *)

Section SearchFacts.

Lemma HasPrefix_append (p t : string) : strings.HasPrefix (p ++ t) p = true.
Proof.
  induction p as [|c p IH]; simpl; [now destruct t|].
  now rewrite Ascii.eqb_refl.
Qed.

Lemma HasPrefix_true (s p : string) :
  strings.HasPrefix s p = true -> s = p ++ slice_from (String.length p) s.
Proof.
  revert s. induction p as [|c p IH]; intros s H; simpl in *.
  - now destruct s.
  - destruct s as [|x s]; [discriminate|].
    apply andb_prop in H as [Hc Hp]. apply Ascii.eqb_eq in Hc. subst x.
    simpl. f_equal. auto.
Qed.

Lemma Index_unfold (s old : string) :
  strings.Index s old =
  if strings.HasPrefix s old then Some 0
  else match s with
       | "" => None
       | String _ s' => option_map S (strings.Index s' old)
       end.
Proof. destruct s; reflexivity. Qed.

Lemma Index_Some (s old : string) (i : nat) :
  strings.Index s old = Some i ->
  s = slice_to i s ++ old ++ slice_from (i + String.length old) s.
Proof.
  revert i. induction s as [|c s IH]; intros i H; rewrite Index_unfold in H.
  - destruct (strings.HasPrefix "" old) eqn:Hp; [|discriminate].
    injection H as <-. simpl. now apply HasPrefix_true in Hp.
  - destruct (strings.HasPrefix (String c s) old) eqn:Hp.
    + injection H as <-. simpl slice_to. simpl plus. now apply HasPrefix_true in Hp.
    + destruct (strings.Index s old) as [k|] eqn:Hk; [|discriminate].
      injection H as <-. simpl. f_equal. now apply IH.
Qed.

Lemma HasPrefix_length (s p : string) :
  strings.HasPrefix s p = true -> String.length p <= String.length s.
Proof.
  intros H. apply HasPrefix_true in H.
  assert (L : String.length s = String.length (p ++ slice_from (String.length p) s))
    by now rewrite <- H.
  rewrite length_append in L. lia.
Qed.

Lemma Index_Some_bound (s old : string) (i : nat) :
  strings.Index s old = Some i -> i + String.length old <= String.length s.
Proof.
  revert i. induction s as [|c s IH]; intros i H; rewrite Index_unfold in H.
  - destruct (strings.HasPrefix "" old) eqn:Hp; [|discriminate].
    injection H as <-. now apply HasPrefix_length in Hp.
  - destruct (strings.HasPrefix (String c s) old) eqn:Hp.
    + injection H as <-. now apply HasPrefix_length in Hp.
    + destruct (strings.Index s old) as [k|] eqn:Hk; [|discriminate].
      injection H as <-. specialize (IH k eq_refl). simpl. lia.
Qed.

Lemma Index_Some_occurs (s old : string) (i : nat) :
  strings.Index s old = Some i -> occurs old s.
Proof. intros H. apply Index_Some in H. red. eauto. Qed.

Lemma Index_None (s old : string) :
  strings.Index s old = None -> ~ occurs old s.
Proof.
  induction s as [|c s IH]; rewrite Index_unfold; intros H [a [b E]].
  - destruct (strings.HasPrefix "" old) eqn:Hp; [discriminate|].
    destruct a; [|discriminate]. simpl in E. rewrite E, HasPrefix_append in Hp.
    discriminate.
  - destruct (strings.HasPrefix (String c s) old) eqn:Hp; [discriminate|].
    destruct (strings.Index s old) eqn:Hk; [discriminate|].
    destruct a as [|x a].
    + simpl in E. rewrite E, HasPrefix_append in Hp. discriminate.
    + simpl in E. injection E as _ E. apply IH; [reflexivity|]. red. eauto.
Qed.

(** [Index] finds the leftmost occurrence. *)
Lemma Index_leftmost (s old a b : string) (i : nat) :
  strings.Index s old = Some i -> s = a ++ old ++ b -> i <= String.length a.
Proof.
  revert a i. induction s as [|c s IH]; intros a i H E; rewrite Index_unfold in H.
  - destruct (strings.HasPrefix "" old); [|discriminate]. injection H as <-. lia.
  - destruct (strings.HasPrefix (String c s) old) eqn:Hp.
    + injection H as <-. lia.
    + destruct (strings.Index s old) as [k|] eqn:Hk; [|discriminate].
      injection H as <-. destruct a as [|x a].
      * simpl in E. rewrite E, HasPrefix_append in Hp. discriminate.
      * simpl in E. injection E as _ E. simpl. apply le_n_S. eapply IH; eauto.
Qed.

Lemma occurs_Index (s old : string) :
  occurs old s -> exists i, strings.Index s old = Some i.
Proof.
  intros H. destruct (strings.Index s old) as [i|] eqn:E; [eauto|].
  now apply Index_None in E.
Qed.

End SearchFacts.

Section ReplaceFacts.

Variables old new : string.
Hypothesis old_nonempty : old <> "".

Lemma old_length_pos : 0 < String.length old.
Proof. destruct old; [congruence | simpl; lia]. Qed.

Lemma count_loop_fuel (f1 f2 : nat) (s : string) :
  String.length s < f1 -> String.length s < f2 ->
  strings.count_loop f1 s old = strings.count_loop f2 s old.
Proof.
  revert f2 s. induction f1 as [|f1 IH]; intros [|f2] s H1 H2; try lia.
  simpl. destruct (strings.Index s old) as [i|] eqn:E; [|reflexivity].
  f_equal. pose proof (Index_Some_bound _ _ _ E). pose proof old_length_pos.
  apply IH; rewrite length_slice_from; lia.
Qed.

Lemma Count_nonempty (s : string) :
  strings.Count s old = strings.count_loop (S (String.length s)) s old.
Proof.
  unfold strings.Count. destruct (String.eqb_spec old ""); [contradiction | reflexivity].
Qed.

Lemma Count_None (s : string) :
  strings.Index s old = None -> strings.Count s old = 0.
Proof. intros E. rewrite Count_nonempty. simpl. now rewrite E. Qed.

Lemma Count_Some (s : string) (i : nat) :
  strings.Index s old = Some i ->
  strings.Count s old = S (strings.Count (slice_from (i + String.length old) s) old).
Proof.
  intros E. rewrite !Count_nonempty. simpl strings.count_loop at 1. rewrite E. f_equal.
  pose proof (Index_Some_bound _ _ _ E). pose proof old_length_pos.
  apply count_loop_fuel; rewrite ?length_slice_from; lia.
Qed.

(** The builder only grows, and for a non-empty [old] the loop counter
    plays no part. *)
Lemma replace_loop_builder (n i : nat) (rest b : string) :
  strings.replace_loop n i rest old new b
  = b ++ strings.replace_loop n 0 rest old new "".
Proof.
  revert i rest b. induction n as [|n IH]; intros i rest b; simpl.
  - reflexivity.
  - destruct (String.eqb_spec old ""); [contradiction|].
    rewrite IH. rewrite (IH 1). now rewrite !append_assoc.
Qed.

Hypothesis old_new : old <> new.

Lemma Replace_loop (s : string) :
  strings.Replace s old new (-1)
  = strings.replace_loop (strings.Count s old) 0 s old new "".
Proof.
  unfold strings.Replace. destruct (String.eqb_spec old new); [contradiction|].
  simpl. destruct (strings.Count s old); reflexivity.
Qed.

(** No occurrence: the string is returned as it is. *)
Lemma Replace_absent (s : string) :
  strings.Index s old = None -> strings.Replace s old new (-1) = s.
Proof. intros E. rewrite Replace_loop, Count_None by assumption. reflexivity. Qed.

(** An occurrence: the leftmost one is replaced and the replacement goes
    on behind it. *)
Lemma Replace_present (s : string) (i : nat) :
  strings.Index s old = Some i ->
  strings.Replace s old new (-1)
  = slice_to i s ++ new
    ++ strings.Replace (slice_from (i + String.length old) s) old new (-1).
Proof.
  intros E. rewrite !Replace_loop, (Count_Some _ _ E).
  simpl strings.replace_loop at 1.
  destruct (String.eqb_spec old ""); [contradiction|]. rewrite E.
  rewrite replace_loop_builder. simpl. now rewrite append_assoc.
Qed.

Lemma Replace_ReplacedAll (s : string) :
  ReplacedAll old new s (strings.Replace s old new (-1)).
Proof.
  remember (String.length s) as n eqn:Hn. revert s Hn.
  induction n as [n IH] using lt_wf_ind. intros s Hn.
  destruct (strings.Index s old) as [i|] eqn:E.
  - rewrite (Replace_present _ _ E).
    pose proof (Index_Some _ _ _ E) as Hs.
    pose proof (Index_Some_bound _ _ _ E) as Hb. pose proof old_length_pos as Hp.
    set (b := slice_from (i + String.length old) s) in *.
    assert (Hi : String.length (slice_to i s) = i) by (apply length_slice_to; lia).
    rewrite Hs at 1. apply RA_step.
    + intros a' b' Ha. rewrite Hi. rewrite <- Hs in Ha. eapply Index_leftmost; eauto.
    + apply (IH (String.length b)); [|reflexivity].
      subst b n. rewrite length_slice_from. lia.
  - rewrite (Replace_absent _ E). apply RA_none. now apply Index_None.
Qed.

(** The length of the result moves the way the length of [new] differs
    from that of [old]. *)
Lemma Replace_length (s : string) :
  (String.length new <= String.length old ->
     String.length (strings.Replace s old new (-1)) <= String.length s)
  /\ (String.length old <= String.length new ->
     String.length s <= String.length (strings.Replace s old new (-1))).
Proof.
  remember (String.length s) as n eqn:Hn. revert s Hn.
  induction n as [n IH] using lt_wf_ind. intros s Hn.
  destruct (strings.Index s old) as [i|] eqn:E.
  - rewrite (Replace_present _ _ E).
    pose proof (Index_Some_bound _ _ _ E) as Hb. pose proof old_length_pos as Hp.
    set (b := slice_from (i + String.length old) s) in *.
    assert (Hl : String.length b = String.length s - (i + String.length old))
      by (subst b; apply length_slice_from).
    assert (Hi : String.length (slice_to i s) = i) by (apply length_slice_to; lia).
    destruct (IH (String.length b) ltac:(lia) b eq_refl) as [IH1 IH2].
    rewrite !length_append, Hi. split; intros H.
    + specialize (IH1 H). lia.
    + specialize (IH2 H). lia.
  - rewrite (Replace_absent _ E). split; intros; lia.
Qed.

(** The result differs from the string as soon as [old] occurs in it. *)
Lemma Replace_changes (s : string) (i : nat) :
  strings.Index s old = Some i -> strings.Replace s old new (-1) <> s.
Proof.
  intros E Heq. rewrite (Replace_present _ _ E) in Heq.
  pose proof (Index_Some _ _ _ E) as Hs. rewrite Hs in Heq at 3.
  apply append_inv_head in Heq.
  set (b := slice_from (i + String.length old) s) in *.
  destruct (Replace_length b) as [L1 L2].
  assert (L : String.length (new ++ strings.Replace b old new (-1))
              = String.length (old ++ b)) by now rewrite Heq.
  rewrite !length_append in L.
  assert (Hlen : String.length new = String.length old).
  { destruct (Nat.le_gt_cases (String.length new) (String.length old)) as [H|H].
    - specialize (L1 H). lia.
    - specialize (L2 ltac:(lia)). lia. }
  apply append_same_length in Heq as [Heq _]; [|assumption]. congruence.
Qed.

End ReplaceFacts.

(** ** Replacement of the empty string *)

Section EmptyOld.

Lemma DecodeRuneWidth_pos (c : ascii) (s : string) :
  1 <= utf8.DecodeRuneWidth (String c s).
Proof.
  unfold utf8.DecodeRuneWidth.
  repeat match goal with
         | |- context [if ?b then _ else _] => destruct b
         | |- context [match ?x with _ => _ end] => destruct x
         end; lia.
Qed.

Lemma runes_fuel_flatten (fuel : nat) (s : string) :
  String.length s <= fuel -> flatten (utf8.runes_fuel fuel s) = s.
Proof.
  revert s. induction fuel as [|fuel IH]; intros s H.
  - destruct s; [reflexivity | simpl in H; lia].
  - destruct s as [|c s]; [reflexivity|].
    cbn [utf8.runes_fuel flatten]. rewrite IH; [apply slice_to_from|].
    pose proof (DecodeRuneWidth_pos c s). rewrite length_slice_from.
    cbn [String.length] in *. lia.
Qed.

(** The runes of a string are consecutive pieces of it. *)
Lemma runes_flatten (s : string) : flatten (utf8.runes s) = s.
Proof. apply runes_fuel_flatten. unfold utf8.runes. lia. Qed.

Lemma replace_loop_empty (new : string) (fuel i : nat) (rest b : string) :
  0 < i -> String.length rest <= fuel ->
  strings.replace_loop (List.length (utf8.runes_fuel fuel rest)) i rest "" new b
  = b ++ flatten (map (fun r => r ++ new) (utf8.runes_fuel fuel rest)).
Proof.
  revert i rest b. induction fuel as [|fuel IH]; intros i rest b Hi H.
  - destruct rest; [simpl; reflexivity | simpl in H; lia].
  - destruct rest as [|c rest]; [simpl; reflexivity|].
    cbn [utf8.runes_fuel List.length map flatten strings.replace_loop].
    cbn [String.eqb]. destruct i as [|i]; [lia|]. cbn [Nat.ltb Nat.leb].
    rewrite Nat.add_0_r.
    pose proof (DecodeRuneWidth_pos c rest) as Hw.
    rewrite IH; [| lia | rewrite length_slice_from; cbn [String.length] in *; lia].
    now rewrite !append_assoc.
Qed.

Lemma Replace_empty (new s : string) :
  new <> "" -> strings.Replace s "" new (-1) = insert_at_boundaries new s.
Proof.
  intros Hnew. unfold strings.Replace, insert_at_boundaries.
  destruct (String.eqb_spec "" new) as [E|_]; [congruence|].
  cbn [orb Z.eqb]. unfold strings.Count. cbn [String.eqb].
  unfold utf8.RuneCountInString, utf8.runes. rewrite Nat.add_1_r.
  cbn [Nat.eqb Z.ltb Z.compare orb strings.replace_loop String.eqb Nat.ltb Nat.leb].
  cbn [plus String.length slice_from slice_to].
  replace (slice_from 0 s) with s by (now destruct s).
  rewrite replace_loop_empty by lia. reflexivity.
Qed.

End EmptyOld.

(** ** The file system: lookups after an update *)

Section TreeFacts.

Local Open Scope list_scope.

Lemma lookup_upsert {A : Type} (name n : string) (v : A) (es : list (string * A)) :
  vfs.lookup n (vfs.upsert name v es)
  = if String.eqb name n then Some v else vfs.lookup n es.
Proof.
  induction es as [|[k x] es IH]; simpl.
  - reflexivity.
  - destruct (String.compare name k) eqn:C; simpl.
    + apply String.compare_eq_iff in C. subst k. now destruct (String.eqb name n).
    + reflexivity.
    + rewrite IH. destruct (String.eqb_spec k n) as [->|Hk]; [|reflexivity].
      destruct (String.eqb_spec name n) as [->|Hn]; [|reflexivity].
      pose proof (String.compare_antisym n n) as Ha. rewrite C in Ha. discriminate.
Qed.

Lemma node_at_app (r : vfs.node) (a b : vfs.loc) :
  vfs.node_at r (a ++ b)
  = match vfs.node_at r a with
    | Some n => vfs.node_at n b
    | None => None
    end.
Proof.
  revert r. induction a as [|x a IH]; intros r; simpl; [reflexivity|].
  destruct r as [d|es]; [reflexivity|].
  destruct (vfs.lookup x es); [apply IH | reflexivity].
Qed.

Lemma node_at_leaf (n : vfs.node) (y : string) (ys : vfs.loc) :
  leaf n -> vfs.node_at n (y :: ys) = None.
Proof. destruct n as [d|es]; simpl; [reflexivity|]. now intros ->. Qed.

(** The node put at a location is found there. *)
Lemma node_at_put (parent : vfs.loc) (name : string) (new r : vfs.node)
    (es : list (string * vfs.node)) :
  vfs.node_at r parent = Some (vfs.Dir es) ->
  vfs.node_at (vfs.put (parent ++ [name]) new r) (parent ++ [name]) = Some new.
Proof.
  revert r. induction parent as [|p ps IH]; intros r H; simpl in *.
  - injection H as ->. destruct (vfs.lookup name es); simpl;
      rewrite lookup_upsert, String.eqb_refl; reflexivity.
  - destruct r as [d|es0]; [discriminate|].
    destruct (vfs.lookup p es0) as [c|] eqn:L; [|discriminate].
    simpl. rewrite lookup_upsert, String.eqb_refl. now apply IH.
Qed.

(** Putting a leaf where there was none, or another leaf, changes the
    kind of no other location. *)
Lemma kind_at_put (parent : vfs.loc) (name : string) (new r : vfs.node)
    (es : list (string * vfs.node)) (x : vfs.loc) :
  vfs.node_at r parent = Some (vfs.Dir es) ->
  match vfs.lookup name es with Some n => leaf n | None => True end ->
  leaf new ->
  x <> (parent ++ [name])%list ->
  kind_at (vfs.put (parent ++ [name]) new r) x = kind_at r x.
Proof.
  unfold kind_at. revert r x. induction parent as [|p ps IH]; intros r x H Hold Hnew Hx.
  - simpl in H. injection H as ->. simpl.
    assert (E : match vfs.lookup name es with
                | Some c => vfs.Dir (vfs.upsert name new es)
                | None => vfs.Dir (vfs.upsert name new es)
                end = vfs.Dir (vfs.upsert name new es))
      by now destruct (vfs.lookup name es).
    rewrite E. clear E. destruct x as [|y ys]; [reflexivity|].
    simpl. rewrite lookup_upsert. destruct (String.eqb_spec name y) as [->|Hy]; [|reflexivity].
    destruct ys as [|z zs]; [now elim Hx|].
    rewrite (node_at_leaf _ _ _ Hnew).
    destruct (vfs.lookup y es) as [n|]; [|reflexivity].
    now rewrite (node_at_leaf _ _ _ Hold).
  - simpl in H. destruct r as [d|es0]; [discriminate|].
    destruct (vfs.lookup p es0) as [c|] eqn:L; [|discriminate].
    simpl. rewrite L. destruct x as [|y ys]; [reflexivity|].
    simpl. rewrite lookup_upsert. destruct (String.eqb_spec p y) as [->|Hy]; [|reflexivity].
    rewrite L. apply IH; auto. intros ->. now apply Hx.
Qed.

Lemma walk_elems_app (r : vfs.node) (cur : vfs.loc) (a b : list string) :
  vfs.walk_elems r cur (a ++ b)
  = match vfs.walk_elems r cur a with
    | inl e => inl e
    | inr l => vfs.walk_elems r l b
    end.
Proof.
  revert cur. induction a as [|e a IH]; intros cur; simpl; [reflexivity|].
  destruct (vfs.node_at r cur) as [[d|es]|]; try reflexivity.
  destruct (vfs.is_dot e); [apply IH|].
  destruct (String.eqb e ".."); [apply IH|].
  destruct (vfs.lookup e es); [apply IH | reflexivity].
Qed.

Lemma removelast_exists (r : vfs.node) (cur : vfs.loc) (n : vfs.node) :
  vfs.node_at r cur = Some n ->
  exists es, vfs.node_at r (removelast cur) = Some (vfs.Dir es) \/ cur = [].
Proof.
  intros H. destruct cur as [|c cs] using rev_ind.
  - exists []. now right.
  - rewrite removelast_last. rewrite node_at_app in H.
    destruct (vfs.node_at r cs) as [[d|es]|]; try discriminate.
    exists es. now left.
Qed.

(** Where a walk ends there is a node. *)
Lemma walk_elems_exists (r : vfs.node) (elems : list string) (cur l : vfs.loc) :
  kind_at r cur <> None ->
  vfs.walk_elems r cur elems = inr l -> kind_at r l <> None.
Proof.
  unfold kind_at. revert cur. induction elems as [|e rest IH]; intros cur Hc H; simpl in H.
  - now injection H as <-.
  - destruct (vfs.node_at r cur) as [[d|es]|] eqn:N; try discriminate.
    destruct (vfs.is_dot e); [eapply IH; eauto; now rewrite N|].
    destruct (String.eqb e "..").
    + eapply IH; eauto. destruct (removelast_exists _ _ _ N) as [es' [E| ->]].
      * now rewrite E.
      * simpl. discriminate.
    + destruct (vfs.lookup e es) as [c|] eqn:L; [|discriminate].
      eapply IH; eauto. rewrite node_at_app, N. simpl. now rewrite L.
Qed.

(** A walk goes the same way in a tree that has, wherever the first one
    has a node, a node of the same kind. *)
Lemma walk_elems_extends (r r' : vfs.node) (elems : list string) (cur l : vfs.loc) :
  (forall x, kind_at r x <> None -> kind_at r' x = kind_at r x) ->
  vfs.walk_elems r cur elems = inr l -> vfs.walk_elems r' cur elems = inr l.
Proof.
  intros Hk. revert cur. induction elems as [|e rest IH]; intros cur H; simpl in *.
  - assumption.
  - destruct (vfs.node_at r cur) as [[d|es]|] eqn:N; try discriminate.
    assert (N' : kind_at r' cur = Some true).
    { rewrite Hk; unfold kind_at; rewrite N; [reflexivity | discriminate]. }
    unfold kind_at in N'. destruct (vfs.node_at r' cur) as [[d'|es']|] eqn:N2; try discriminate.
    destruct (vfs.is_dot e); [now apply IH|].
    destruct (String.eqb e ".."); [now apply IH|].
    destruct (vfs.lookup e es) as [c|] eqn:L; [|discriminate].
    assert (K : kind_at r' (cur ++ [e]) = kind_at r (cur ++ [e])).
    { apply Hk. unfold kind_at. rewrite node_at_app, N. simpl. now rewrite L. }
    unfold kind_at in K. rewrite !node_at_app, N, N2 in K. simpl in K. rewrite L in K.
    destruct (vfs.lookup e es'); [now apply IH | discriminate].
Qed.

End TreeFacts.

(** ** The file system: reading and writing *)

Section ReadWrite.

Local Open Scope list_scope.

Lemma split_slash_nonempty (p : string) : split_slash p <> [].
Proof.
  destruct p as [|c p]; simpl; [discriminate|].
  destruct (Ascii.eqb c slash); [discriminate|].
  destruct (split_slash p); discriminate.
Qed.

Lemma split_slash_last (p : string) :
  split_slash p = removelast (split_slash p) ++ [last (split_slash p) ""%string].
Proof. apply app_removelast_last, split_slash_nonempty. Qed.

(** What a successful write did. *)
Lemma write_inv (fs0 fs1 : vfs.FileSystem) (p data : string) :
  vfs.write fs0 p data = inr fs1 ->
  exists parent es name,
    p <> ""%string
    /\ name = last (split_slash p) ""%string
    /\ vfs.walk_elems (vfs.root fs0) (vfs.start fs0 p) (removelast (split_slash p))
       = inr parent
    /\ vfs.node_at (vfs.root fs0) parent = Some (vfs.Dir es)
    /\ proper_name name
    /\ (forall es', vfs.lookup name es <> Some (vfs.Dir es'))
    /\ fs1 = vfs.mkFS (vfs.put (parent ++ [name]) (vfs.File data) (vfs.root fs0))
                      (vfs.cwd fs0).
Proof.
  unfold vfs.write. intros H.
  destruct (String.eqb_spec p ""); [discriminate|].
  destruct (vfs.walk_elems _ _ _) as [e|parent] eqn:W; [discriminate|].
  destruct (vfs.node_at _ parent) as [[d|es]|] eqn:N; try discriminate.
  destruct (vfs.is_dot _ || String.eqb _ "..") eqn:D; [discriminate|].
  apply orb_false_elim in D as [D1 D2].
  exists parent, es, (last (split_slash p) ""%string).
  repeat split; auto.
  - destruct (vfs.lookup _ es) as [[d|es']|]; congruence.
  - destruct (vfs.lookup _ es) as [[d|es']|]; congruence.
Qed.

(** A file reads as what was written to it. *)
Lemma read_after_write (fs0 fs1 : vfs.FileSystem) (p data : string) :
  vfs.write fs0 p data = inr fs1 -> vfs.read fs1 p = Ok data.
Proof.
  intros H. apply write_inv in H
    as (parent & es & name & Hp & Hname & W & N & [D1 D2] & Hold & ->).
  assert (K : forall x, kind_at (vfs.root fs0) x <> None ->
                kind_at (vfs.put (parent ++ [name]) (vfs.File data) (vfs.root fs0)) x
                = kind_at (vfs.root fs0) x).
  { intros x Hx. destruct (list_eq_dec string_dec x (parent ++ [name])) as [->|Hne].
    - unfold kind_at in *. rewrite (node_at_put _ _ _ _ _ N).
      rewrite node_at_app, N in *. simpl in *.
      destruct (vfs.lookup name es) as [[d|es']|] eqn:L; simpl in *; congruence.
    - eapply kind_at_put; eauto; [|exact I].
      destruct (vfs.lookup name es) as [[d|es']|]; simpl; auto. now elim (Hold es'). }
  pose proof (walk_elems_extends _ _ _ _ _ K W) as W'.
  pose proof (node_at_put parent name (vfs.File data) _ _ N) as P.
  assert (N' : exists es', vfs.node_at (vfs.put (parent ++ [name]) (vfs.File data)
                                               (vfs.root fs0)) parent
                           = Some (vfs.Dir es')).
  { specialize (K parent). unfold kind_at in K. rewrite N in K. simpl in K.
    specialize (K ltac:(discriminate)).
    destruct (vfs.node_at (vfs.put _ _ _) parent) as [[d|es']|]; try discriminate. eauto. }
  destruct N' as [es' N'].
  unfold vfs.read, vfs.stat, vfs.namei. simpl.
  destruct (String.eqb_spec p ""); [contradiction|].
  rewrite split_slash_last, walk_elems_app. unfold vfs.start in *. simpl. rewrite W'.
  rewrite <- Hname. simpl. rewrite N', D1, D2.
  pose proof P as P'. rewrite node_at_app, N' in P'. simpl in P'.
  destruct (vfs.lookup name es') as [c|]; [|discriminate].
  now rewrite P.
Qed.

(** How a path that reads as a file resolves. *)
Lemma read_inv (fs0 : vfs.FileSystem) (p content : string) :
  vfs.read fs0 p = Ok content ->
  exists parent es,
    p <> ""%string
    /\ vfs.walk_elems (vfs.root fs0) (vfs.start fs0 p) (removelast (split_slash p))
       = inr parent
    /\ vfs.node_at (vfs.root fs0) parent = Some (vfs.Dir es)
    /\ proper_name (last (split_slash p) ""%string)
    /\ vfs.lookup (last (split_slash p) ""%string) es = Some (vfs.File content).
Proof.
  unfold vfs.read, vfs.stat, vfs.namei. intros H.
  destruct (String.eqb_spec p ""); [discriminate|].
  rewrite split_slash_last, walk_elems_app in H.
  destruct (vfs.walk_elems _ _ (removelast _)) as [e|parent] eqn:W; [discriminate|].
  set (name := last (split_slash p) ""%string) in *.
  simpl in H.
  destruct (vfs.node_at _ parent) as [[d|es]|] eqn:N; try discriminate.
  exists parent, es. unfold proper_name.
  destruct (vfs.is_dot name) eqn:D1.
  { rewrite N in H. discriminate. }
  destruct (String.eqb name "..") eqn:D2.
  { destruct (removelast_exists _ _ _ N) as [es' [E|E]].
    - rewrite E in H. discriminate.
    - subst parent. simpl in *. injection N as N. rewrite N in H. discriminate. }
  destruct (vfs.lookup name es) as [c|] eqn:L; [|discriminate].
  rewrite node_at_app, N in H. simpl in H. rewrite L in H.
  destruct c as [d|es']; [|discriminate].
  injection H as ->. repeat split; auto.
Qed.

(** A path that reads as a file can be written. *)
Lemma write_existing (fs0 : vfs.FileSystem) (p content data : string) :
  vfs.read fs0 p = Ok content -> exists fs1, vfs.write fs0 p data = inr fs1.
Proof.
  intros H. apply read_inv in H as (parent & es & Hp & W & N & [D1 D2] & L).
  unfold vfs.write. destruct (String.eqb_spec p ""); [contradiction|].
  rewrite W, N, D1, D2, L. simpl. eauto.
Qed.

End ReadWrite.

(** ** edit_file *)

Section EditFileFacts.

Local Open Scope list_scope.

Lemma read_nonempty (fs0 : vfs.FileSystem) (p content : string) :
  vfs.read fs0 p = Ok content -> p <> ""%string.
Proof. intros H ->. discriminate. Qed.

Variables (input : json.RawMessage) (path old new : string).
Hypothesis decoded :
  Unmarshal_EditFileInput input = (mkEditFileInput path old new, None).

(** [EditFile] behind the decoding of its input and the check of the
    parameters. *)
Lemma EditFile_decoded (w : World) :
  path <> ""%string -> old <> new ->
  EditFile input w
  = match vfs.read (fs w) path with
    | Err err =>
        if os.IsNotExist err && String.eqb old ""
        then createNewFile path new (logged w [Syscall "ReadFile" path])
        else Returned (Err err) (logged w [Syscall "ReadFile" path])
    | Ok content =>
        let newContent := strings.Replace content old new (-1) in
        if String.eqb content newContent && negb (String.eqb old "")
        then Returned (Err (errorString "old_str not found in file"))
                      (logged w [Syscall "ReadFile" path])
        else
          match vfs.write (fs w) path newContent with
          | inl e =>
              Returned (Err (PathError "open" path e))
                       (logged w [Syscall "ReadFile" path; Syscall "WriteFile" path])
          | inr fs' =>
              Returned (Ok "OK"%string)
                       (mkWorld fs' (stdin w)
                          (trace w ++ [Syscall "ReadFile" path; Syscall "WriteFile" path]))
          end
    end.
Proof.
  intros Hp Hon. unfold EditFile. rewrite decoded. cbn [Path OldStr NewStr].
  destruct (String.eqb_spec path ""); [contradiction|].
  destruct (String.eqb_spec old new); [contradiction|].
  cbn [orb]. unfold bind, os.ReadFile, logged.
  destruct (vfs.read (fs w) path) as [content|err].
  - cbv zeta.
    destruct (String.eqb content _ && negb (String.eqb old "")); [reflexivity|].
    unfold os.WriteFile, ret. cbn [fs stdin trace].
    rewrite <- app_assoc. cbn [app].
    destruct (vfs.write (fs w) path _); reflexivity.
  - destruct (os.IsNotExist err && String.eqb old ""); reflexivity.
Qed.

End EditFileFacts.

(** ** Claims about edit_file *)

(** C9.  An edit_file input whose path is empty or whose old_str equals
    its new_str is rejected with the error "invalid input parameters"
    before any call of package os: the world after the call, its file
    system and its trace of calls included, is the world before it. *)
Theorem C9_EditFile_rejects_before_file_access
    (input : json.RawMessage) (i : EditFileInput) (w : World) :
  Unmarshal_EditFileInput input = (i, None) ->
  Path i = "" \/ OldStr i = NewStr i ->
  EditFile input w = Returned (Err (errorString "invalid input parameters")) w.
Proof.
  intros D H. unfold EditFile. rewrite D.
  destruct H as [-> | ->].
  - reflexivity.
  - rewrite String.eqb_refl, orb_true_r. reflexivity.
Qed.

Lemma C9_witness :
  EditFile (edit_request "notes.txt" "same" "same") demo_world
  = Returned (Err (errorString "invalid input parameters")) demo_world.
Proof.
  apply (C9_EditFile_rejects_before_file_access
           (edit_request "notes.txt" "same" "same")
           (mkEditFileInput "notes.txt" "same" "same") demo_world).
  - reflexivity.
  - right. reflexivity.
Defined.

(** On a path that reads as a file in which old_str occurs, edit_file
    writes the replaced content and returns "OK". *)
Lemma EditFile_writes_replacement
    (input : json.RawMessage) (path old new content : string) (i : nat) (w : World) :
  Unmarshal_EditFileInput input = (mkEditFileInput path old new, None) ->
  old <> "" -> old <> new ->
  vfs.read (fs w) path = Ok content ->
  strings.Index content old = Some i ->
  exists fs',
    EditFile input w
    = Returned (Ok "OK")
        (mkWorld fs' (stdin w)
           (trace w ++ [Syscall "ReadFile" path; Syscall "WriteFile" path]))
    /\ vfs.write (fs w) path (strings.Replace content old new (-1)) = inr fs'
    /\ vfs.read fs' path = Ok (strings.Replace content old new (-1)).
Proof.
  intros D Ho Hon R E.
  rewrite (EditFile_decoded _ _ _ _ D w (read_nonempty _ _ _ R) Hon), R. cbv zeta.
  pose proof (Replace_changes _ _ Ho Hon _ _ E) as Hc.
  destruct (String.eqb_spec content (strings.Replace content old new (-1)));
    [congruence|].
  cbn [andb].
  destruct (write_existing _ _ _ (strings.Replace content old new (-1)) R) as [fs' Wr].
  exists fs'. rewrite Wr. repeat split. now apply read_after_write in Wr.
Qed.

(** On a path that reads as a file in which a non-empty old_str does not
    occur, edit_file fails and writes nothing. *)
Lemma EditFile_old_str_not_found
    (input : json.RawMessage) (path old new content : string) (w : World) :
  Unmarshal_EditFileInput input = (mkEditFileInput path old new, None) ->
  old <> "" -> old <> new ->
  vfs.read (fs w) path = Ok content ->
  strings.Index content old = None ->
  EditFile input w
  = Returned (Err (errorString "old_str not found in file"))
             (logged w [Syscall "ReadFile" path]).
Proof.
  intros D Ho Hon R E.
  rewrite (EditFile_decoded _ _ _ _ D w (read_nonempty _ _ _ R) Hon), R. cbv zeta.
  rewrite (Replace_absent _ _ Ho Hon _ E), String.eqb_refl.
  destruct (String.eqb_spec old ""); [contradiction | reflexivity].
Qed.

(** C6.  When the path reads as a file and old_str is not empty (and
    differs from new_str): if old_str occurs in the content, edit_file
    writes the content with every occurrence replaced back to the same
    path and returns exactly "OK"; if it does not occur, edit_file fails
    with "old_str not found in file" and writes nothing. *)
Theorem C6_EditFile_replaces_every_occurrence
    (input : json.RawMessage) (path old new content : string) (w : World) :
  Unmarshal_EditFileInput input = (mkEditFileInput path old new, None) ->
  old <> "" -> old <> new ->
  vfs.read (fs w) path = Ok content ->
  (occurs old content
   /\ exists fs',
        EditFile input w
        = Returned (Ok "OK")
            (mkWorld fs' (stdin w)
               (trace w ++ [Syscall "ReadFile" path; Syscall "WriteFile" path]))
        /\ vfs.write (fs w) path (strings.Replace content old new (-1)) = inr fs'
        /\ vfs.read fs' path = Ok (strings.Replace content old new (-1))
        /\ ReplacedAll old new content (strings.Replace content old new (-1)))
  \/ (~ occurs old content
      /\ EditFile input w
         = Returned (Err (errorString "old_str not found in file"))
                    (logged w [Syscall "ReadFile" path])).
Proof.
  intros D Ho Hon R.
  destruct (strings.Index content old) as [i|] eqn:E.
  - left. split; [eapply Index_Some_occurs; eauto|].
    destruct (EditFile_writes_replacement _ _ _ _ _ _ _ D Ho Hon R E)
      as (fs' & E1 & Wr & Rd).
    exists fs'. repeat split; try assumption.
    now apply Replace_ReplacedAll.
  - right. split; [now apply Index_None|].
    eapply EditFile_old_str_not_found; eauto.
Qed.

Lemma C6_witness :
  (occurs "-" "a-b-c"
   /\ exists fs',
        EditFile (edit_request "notes.txt" "-" "+") demo_world
        = Returned (Ok "OK")
            (mkWorld fs' []
               [Syscall "ReadFile" "notes.txt"; Syscall "WriteFile" "notes.txt"])
        /\ vfs.write demo_fs "notes.txt" (strings.Replace "a-b-c" "-" "+" (-1)) = inr fs'
        /\ vfs.read fs' "notes.txt" = Ok (strings.Replace "a-b-c" "-" "+" (-1))
        /\ ReplacedAll "-" "+" "a-b-c" (strings.Replace "a-b-c" "-" "+" (-1)))
  \/ (~ occurs "-" "a-b-c"
      /\ EditFile (edit_request "notes.txt" "-" "+") demo_world
         = Returned (Err (errorString "old_str not found in file"))
                    (logged demo_world [Syscall "ReadFile" "notes.txt"])).
Proof.
  apply (C6_EditFile_replaces_every_occurrence
           (edit_request "notes.txt" "-" "+") "notes.txt" "-" "+" "a-b-c" demo_world).
  - reflexivity.
  - discriminate.
  - discriminate.
  - reflexivity.
Defined.

Example EditFile_replaces_both_dashes :
  EditFile (edit_request "notes.txt" "-" "+") demo_world
  = Returned (Ok "OK")
      (mkWorld
         (vfs.mkFS
            (vfs.Dir [("empty", vfs.Dir []);
                      ("proj", vfs.Dir [("notes.txt", vfs.File "a+b+c");
                                        ("x.go", vfs.File "package x");
                                        ("y", vfs.Dir [])])])
            ["proj"])
         []
         [Syscall "ReadFile" "notes.txt"; Syscall "WriteFile" "notes.txt"]).
Proof. reflexivity. Qed.

(** C10.  For a path that reads as a file and a non-empty new_str,
    edit_file with an empty old_str succeeds with "OK" and rewrites the
    file with new_str in front of every character (rune) of the old
    content and behind the last one. *)
Theorem C10_EditFile_empty_old_str_on_existing_file
    (input : json.RawMessage) (path new content : string) (w : World) :
  Unmarshal_EditFileInput input = (mkEditFileInput path "" new, None) ->
  new <> "" ->
  vfs.read (fs w) path = Ok content ->
  exists fs',
    EditFile input w
    = Returned (Ok "OK")
        (mkWorld fs' (stdin w)
           (trace w ++ [Syscall "ReadFile" path; Syscall "WriteFile" path]))
    /\ vfs.read fs' path = Ok (insert_at_boundaries new content).
Proof.
  intros D Hn R.
  assert (Hon : "" <> new) by congruence.
  rewrite (EditFile_decoded _ _ _ _ D w (read_nonempty _ _ _ R) Hon), R. cbv zeta.
  cbn [String.eqb negb]. rewrite andb_false_r.
  rewrite (Replace_empty _ _ Hn).
  destruct (write_existing _ _ _ (insert_at_boundaries new content) R) as [fs' Wr].
  exists fs'. rewrite Wr. split; [reflexivity|]. now apply read_after_write in Wr.
Qed.

Lemma C10_witness :
  exists fs',
    EditFile (edit_request "notes.txt" "" "::") demo_world
    = Returned (Ok "OK")
        (mkWorld fs' []
           [Syscall "ReadFile" "notes.txt"; Syscall "WriteFile" "notes.txt"])
    /\ vfs.read fs' "notes.txt" = Ok (insert_at_boundaries "::" "a-b-c").
Proof.
  apply (C10_EditFile_empty_old_str_on_existing_file
           (edit_request "notes.txt" "" "::") "notes.txt" "::" "a-b-c" demo_world).
  - reflexivity.
  - discriminate.
  - reflexivity.
Defined.

Example insert_at_boundaries_example :
  insert_at_boundaries "::" "a-b-c" = "::a::-::b::-::c::".
Proof. reflexivity. Qed.

(** C5 as stated fails: with old_str "a" and new_str "aa" on a file that
    holds "a-b-c", both invocations succeed; the first leaves "aa-b-c" and
    the second "aaaa-b-c". *)
Lemma C5_counterexample :
  let input := edit_request "notes.txt" "a" "aa" in
  let once := EditFile input demo_world in
  let twice := EditFile input (world_of once) in
  once = Returned (Ok "OK") (world_of once)
  /\ twice = Returned (Ok "OK") (world_of twice)
  /\ vfs.read (fs (world_of once)) "notes.txt" = Ok "aa-b-c"
  /\ vfs.read (fs (world_of twice)) "notes.txt" = Ok "aaaa-b-c".
Proof. cbv zeta. repeat split; reflexivity. Qed.

(** C5, amended.  For every path, an old_str that is not empty and a
    new_str different from it, two invocations of edit_file with the same
    input.  If the path does not read as a file, both fail with the same
    error and the file system stays as it was.  If it reads as a file in
    which old_str does not occur, both fail with "old_str not found in
    file" and nothing is written.  If old_str occurs, the first succeeds
    and writes the content with every occurrence replaced; the second
    then fails with "old_str not found in file" and writes nothing, so
    that the final content is that of one invocation, when old_str does
    not occur in what the first wrote; when it does occur there, the
    second succeeds and writes the replacement of that content, which
    differs from it. *)
Theorem C5_EditFile_second_invocation
    (input : json.RawMessage) (path old new : string) (w : World) :
  Unmarshal_EditFileInput input = (mkEditFileInput path old new, None) ->
  old <> "" -> old <> new ->
  exists r1 w1 r2 w2,
    EditFile input w = Returned r1 w1
    /\ EditFile input w1 = Returned r2 w2
    /\ ((exists content,
           let once := strings.Replace content old new (-1) in
           vfs.read (fs w) path = Ok content
           /\ occurs old content
           /\ r1 = Ok "OK"
           /\ vfs.read (fs w1) path = Ok once
           /\ ((~ occurs old once
                /\ r2 = Err (errorString "old_str not found in file")
                /\ w2 = logged w1 [Syscall "ReadFile" path])
               \/ (occurs old once
                   /\ r2 = Ok "OK"
                   /\ vfs.read (fs w2) path = Ok (strings.Replace once old new (-1))
                   /\ strings.Replace once old new (-1) <> once)))
        \/ (exists content,
              vfs.read (fs w) path = Ok content
              /\ ~ occurs old content
              /\ r1 = Err (errorString "old_str not found in file")
              /\ r2 = r1
              /\ w1 = logged w [Syscall "ReadFile" path]
              /\ w2 = logged w1 [Syscall "ReadFile" path])
        \/ (exists e,
              vfs.read (fs w) path = Err e
              /\ r1 = Err (if String.eqb path "" then errorString "invalid input parameters"
                           else e)
              /\ r2 = r1
              /\ fs w1 = fs w /\ fs w2 = fs w)).
Proof.
  intros D Ho Hon.
  destruct (String.eqb_spec path "") as [->|Hp].
  - exists (Err (errorString "invalid input parameters")), w,
           (Err (errorString "invalid input parameters")), w.
    assert (E : EditFile input w
                = Returned (Err (errorString "invalid input parameters")) w)
      by (unfold EditFile; rewrite D; reflexivity).
    split; [exact E|]. split; [exact E|]. right. right.
    exists (PathError "open" "" ENOENT). repeat split; reflexivity.
  - destruct (vfs.read (fs w) path) as [content|e] eqn:R.
    + destruct (strings.Index content old) as [i|] eqn:E.
      * destruct (EditFile_writes_replacement _ _ _ _ _ _ _ D Ho Hon R E)
          as (fs1 & E1 & _ & R1).
        set (w1 := mkWorld fs1 (stdin w)
                     (trace w ++ [Syscall "ReadFile" path; Syscall "WriteFile" path])%list)
          in *.
        destruct (strings.Index (strings.Replace content old new (-1)) old) as [j|] eqn:E2.
        -- destruct (EditFile_writes_replacement _ _ _ _ _ _ w1 D Ho Hon R1 E2)
             as (fs2 & E3 & _ & R2).
           exists (Ok "OK"), w1, (Ok "OK"). eexists.
           split; [exact E1|]. split; [exact E3|]. left. exists content. cbv zeta.
           split; [reflexivity|]. split; [eapply Index_Some_occurs; eauto|].
           split; [reflexivity|]. split; [exact R1|]. right.
           split; [eapply Index_Some_occurs; eauto|]. split; [reflexivity|].
           split; [exact R2|]. exact (Replace_changes _ _ Ho Hon _ _ E2).
        -- exists (Ok "OK"), w1, (Err (errorString "old_str not found in file")),
                  (logged w1 [Syscall "ReadFile" path]).
           split; [exact E1|].
           split; [exact (EditFile_old_str_not_found _ _ _ _ _ w1 D Ho Hon R1 E2)|].
           left. exists content. cbv zeta.
           split; [reflexivity|]. split; [eapply Index_Some_occurs; eauto|].
           split; [reflexivity|]. split; [exact R1|]. left.
           split; [now apply Index_None|]. split; reflexivity.
      * exists (Err (errorString "old_str not found in file")),
               (logged w [Syscall "ReadFile" path]),
               (Err (errorString "old_str not found in file")),
               (logged (logged w [Syscall "ReadFile" path]) [Syscall "ReadFile" path]).
        split; [exact (EditFile_old_str_not_found _ _ _ _ _ w D Ho Hon R E)|].
        split; [exact (EditFile_old_str_not_found _ _ _ _ _
                         (logged w [Syscall "ReadFile" path]) D Ho Hon R E)|].
        right. left. exists content.
        split; [reflexivity|]. split; [now apply Index_None|]. repeat split.
    + assert (F : forall w0, vfs.read (fs w0) path = Err e ->
                    EditFile input w0 = Returned (Err e) (logged w0 [Syscall "ReadFile" path])).
      { intros w0 R0. rewrite (EditFile_decoded _ _ _ _ D w0 Hp Hon), R0.
        destruct (String.eqb_spec old ""); [contradiction|].
        now rewrite andb_false_r. }
      exists (Err e), (logged w [Syscall "ReadFile" path]),
             (Err e), (logged (logged w [Syscall "ReadFile" path]) [Syscall "ReadFile" path]).
      split; [exact (F w R)|].
      split; [exact (F (logged w [Syscall "ReadFile" path]) R)|]. right. right. exists e.
      destruct (String.eqb_spec path ""); [contradiction|]. repeat split.
Qed.

Lemma C5_witness :
  exists r1 w1 r2 w2,
    EditFile (edit_request "notes.txt" "-" "+") demo_world = Returned r1 w1
    /\ EditFile (edit_request "notes.txt" "-" "+") w1 = Returned r2 w2
    /\ ((exists content,
           let once := strings.Replace content "-" "+" (-1) in
           vfs.read (fs demo_world) "notes.txt" = Ok content
           /\ occurs "-" content
           /\ r1 = Ok "OK"
           /\ vfs.read (fs w1) "notes.txt" = Ok once
           /\ ((~ occurs "-" once
                /\ r2 = Err (errorString "old_str not found in file")
                /\ w2 = logged w1 [Syscall "ReadFile" "notes.txt"])
               \/ (occurs "-" once
                   /\ r2 = Ok "OK"
                   /\ vfs.read (fs w2) "notes.txt" = Ok (strings.Replace once "-" "+" (-1))
                   /\ strings.Replace once "-" "+" (-1) <> once)))
        \/ (exists content,
              vfs.read (fs demo_world) "notes.txt" = Ok content
              /\ ~ occurs "-" content
              /\ r1 = Err (errorString "old_str not found in file")
              /\ r2 = r1
              /\ w1 = logged demo_world [Syscall "ReadFile" "notes.txt"]
              /\ w2 = logged w1 [Syscall "ReadFile" "notes.txt"])
        \/ (exists e,
              vfs.read (fs demo_world) "notes.txt" = Err e
              /\ r1 = Err (if String.eqb "notes.txt" "" then errorString "invalid input parameters"
                           else e)
              /\ r2 = r1
              /\ fs w1 = fs demo_world /\ fs w2 = fs demo_world)).
Proof.
  apply (C5_EditFile_second_invocation
           (edit_request "notes.txt" "-" "+") "notes.txt" "-" "+" demo_world).
  - reflexivity.
  - discriminate.
  - discriminate.
Defined.

(** ** Claims about the dispatch of tools *)

Lemma find_tool_absent (l : list ToolDefinition) (name : string) :
  (forall tool, In tool l -> Name tool <> name) ->
  find (fun tool => String.eqb (Name tool) name) l = None.
Proof.
  induction l as [|t l IH]; intros H; simpl; [reflexivity|].
  destruct (String.eqb_spec (Name t) name) as [E|_].
  - exfalso. apply (H t); [now left | assumption].
  - apply IH. intros tool Hin. apply H. now right.
Qed.

(** C8.  For every invocation id, input and tool name that no registered
    tool bears, executeTool returns (it does not panic) the tool result
    with the message "tool not found" and the error flag set, and leaves
    the world as it was. *)
Theorem C8_executeTool_unknown_tool
    (a : Agent) (id name : string) (input : json.RawMessage) (w : World) :
  (forall tool, In tool (tools a) -> Name tool <> name) ->
  executeTool a id name input w
  = Returned (anthropic.OfToolResult id "tool not found" true) w.
Proof.
  intros H. unfold executeTool. rewrite (find_tool_absent _ _ H). reflexivity.
Qed.

Lemma C8_witness :
  executeTool (main_agent (failing_client (errorString "offline")))
              "toolu_1" "delete_file" (path_request "x.go") demo_world
  = Returned (anthropic.OfToolResult "toolu_1" "tool not found" true) demo_world.
Proof.
  apply (C8_executeTool_unknown_tool
           (main_agent (failing_client (errorString "offline")))
           "toolu_1" "delete_file" (path_request "x.go") demo_world).
  intros tool [<- | [<- | [<- | []]]]; discriminate.
Defined.

(** *** Inputs that do not decode *)

(** read_file returns the decoding error, wrapped. *)
Lemma ReadFile_undecodable (input : json.RawMessage) (i : ReadFileInput) (err : error)
    (w : World) :
  Unmarshal_ReadFileInput input = (i, Some err) ->
  ReadFile input w = Returned (Err (Errorf_w "invalid input format: " err)) w.
Proof. intros D. unfold ReadFile. now rewrite D. Qed.

(** edit_file returns the decoding error. *)
Lemma EditFile_undecodable (input : json.RawMessage) (i : EditFileInput) (err : error)
    (w : World) :
  Unmarshal_EditFileInput input = (i, Some err) ->
  EditFile input w = Returned (Err err) w.
Proof. intros D. unfold EditFile. now rewrite D. Qed.

(** list_files panics with the decoding error. *)
Lemma ListFiles_undecodable (input : json.RawMessage) (i : ListFilesInput) (err : error)
    (w : World) :
  Unmarshal_ListFilesInput input = (i, Some err) ->
  ListFiles input w = Panicked err w.
Proof. intros D. unfold ListFiles. now rewrite D. Qed.

(** The panic of a tool goes through executeTool. *)
Lemma executeTool_panic (a : Agent) (toolDef : ToolDefinition) (id name : string)
    (input : json.RawMessage) (w : World) (v : error) :
  find (fun tool => String.eqb (Name tool) name) (tools a) = Some toolDef ->
  (forall w', Function toolDef input w' = Panicked v w') ->
  exists w', executeTool a id name input w = Panicked v w'.
Proof.
  intros F P. unfold executeTool. rewrite F. unfold bind, Print, emit.
  rewrite P. eauto.
Qed.

(** C4 does not hold for list_files.  On the input [{"path":123}]
    read_file and edit_file return an error, which executeTool turns into
    an is-error tool result; list_files panics, the panic leaves
    executeTool, and the process of [main] ends with status 2. *)
Theorem C4_ListFiles_panics_on_undecodable_input :
  let a := main_agent (scripted_client
                         (tool_use_reply "toolu_1" "list_files" numeric_path_request)) in
  let err := UnmarshalTypeError "number" "string" "ListFilesInput" "path" in
  (exists msg,
     executeTool a "toolu_1" "read_file" numeric_path_request demo_world
     = Returned (anthropic.OfToolResult "toolu_1" msg true)
                (world_of (executeTool a "toolu_1" "read_file" numeric_path_request
                             demo_world)))
  /\ (exists msg,
     executeTool a "toolu_1" "edit_file" numeric_path_request demo_world
     = Returned (anthropic.OfToolResult "toolu_1" msg true)
                (world_of (executeTool a "toolu_1" "edit_file" numeric_path_request
                             demo_world)))
  /\ ListFiles numeric_path_request demo_world = Panicked err demo_world
  /\ executeTool a "toolu_1" "list_files" numeric_path_request demo_world
     = Panicked err
         (world_of (executeTool a "toolu_1" "list_files" numeric_path_request demo_world))
  /\ option_map fst
       (main 3 (client a) (mkWorld demo_fs ["list the files"] []))
     = Some 2.
Proof.
  cbv zeta. repeat split; try reflexivity; eexists; reflexivity.
Qed.

(** ** Claims about list_files *)

Lemma Rel_self (dir : string) : filepath.Rel dir dir = Ok ".".
Proof. unfold filepath.Rel. now rewrite String.eqb_refl. Qed.

(** On every directory without entries the slice [files] stays nil and
    list_files returns its encoding, [null]. *)
Lemma ListFiles_empty_directory (input : json.RawMessage) (i : ListFilesInput) (w : World) :
  Unmarshal_ListFilesInput input = (i, None) ->
  vfs.stat (fs w) (ListFiles_dir i) = inr (vfs.Dir []) ->
  ListFiles input w
  = Returned (Ok "null") (logged w [Syscall "Walk" (ListFiles_dir i)]).
Proof.
  intros D S. unfold ListFiles. rewrite D. fold (ListFiles_dir i).
  unfold bind, filepath.Walk. rewrite S. simpl.
  unfold ListFiles_walkFn. rewrite Rel_self. reflexivity.
Qed.

(** C3 does not hold on empty directories: the code returns the string
    [null] there, which is not the empty JSON array [[]] (the encoding of
    an empty, non-nil slice).  On the project directory of the fixture the
    result is the array of the relative paths, directories with a slash. *)
Theorem C3_ListFiles_empty_directory_returns_null :
  ListFiles (path_request "../empty") demo_world
  = Returned (Ok "null") (logged demo_world [Syscall "Walk" "../empty"])
  /\ json.Marshal_strings (Some []) = "[]"
  /\ "null" <> "[]"
  /\ ListFiles (json.mkRaw "{}" (inr (json.Object []))) demo_world
     = Returned (Ok (json.Marshal_strings (Some ["notes.txt"; "x.go"; "y/"])))
                (logged demo_world [Syscall "Walk" "."]).
Proof. repeat split; try reflexivity. discriminate. Qed.

(** ** Claims about failures of the inference call *)

(** In [main.go] every failure of the inference call ends the loop: [Run]
    returns the error. *)
Lemma Run_body_inference_error (a : Agent) (conversation : list anthropic.MessageParam)
    (err : error) (w : World) :
  client a conversation (convertToolsToAnthropicFormat a) = Err err ->
  Run_body a conversation false w
  = Returned (Return err)
      (logged w [Inference conversation (map fst (convertToolsToAnthropicFormat a))]).
Proof.
  intros H. unfold Run_body, bind, ret, runInference, bind, emit, ret. simpl.
  now rewrite H.
Qed.

(** In the chat-only program an overload is reported and the loop goes on
    to the next prompt; any other failure is returned. *)
Lemma Chat_Run_body_inference_error (a : Chat.Agent)
    (conversation : list anthropic.MessageParam) (line : string) (rest : list string)
    (err : error) (w w1 : World) :
  Chat.getUserMessage a w1 = Returned (line, true) (mkWorld (fs w) rest (trace w1)) ->
  w1 = logged w [Stdout (ESC ++ "[94mYou" ++ ESC ++ "[0m: ")] ->
  let sent := (conversation
               ++ [anthropic.NewUserMessage [anthropic.NewTextBlock line]])%list in
  Chat.client a sent = Err err ->
  exists w',
    Chat.Run_body a conversation w
    = Returned (if strings.Contains (Error err) "overloaded_error"
                then Continue sent true else Return err) w'.
Proof.
  intros G -> sent H. unfold Chat.Run_body, bind, Print, emit. simpl.
  unfold logged in G. simpl in G. rewrite G. simpl.
  unfold Chat.runInference, bind, emit, ret. simpl. fold sent. rewrite H.
  destruct (strings.Contains (Error err) "overloaded_error"); simpl; eauto.
Qed.

(** C2 does not hold for [main.go].  With two lines on the standard input
    and a service that is overloaded, [main] reads the first line, calls
    the service once, prints the error and exits with status 1: the
    second line is never read.  The chat-only program reports the
    overload, prompts again, reads the second line, and exits with status
    0 at the end of the input. *)
Theorem C2_main_exits_on_overload :
  let w := mkWorld demo_fs ["hello"; "are you there"] [] in
  main 5 (failing_client overloaded) w
  = Some (1, mkWorld demo_fs ["are you there"]
               [Stdout ("Chat with Claude (use 'ctrl-c' to quit)" ++ LF);
                Stdout (ESC ++ "[94mYou" ++ ESC ++ "[0m: ");
                StdinRead (Some "hello");
                Inference [anthropic.NewUserMessage [anthropic.NewTextBlock "hello"]]
                          ["read_file"; "list_files"; "edit_file"];
                Stdout ("Error: " ++ Error overloaded ++ LF)])
  /\ strings.Contains (Error overloaded) "overloaded_error" = true
  /\ exists w',
       Chat.Run 5 (Chat.mkAgent (fun _ => Err overloaded) scanner_getUserMessage) w
       = Some (Returned None w')
       /\ stdin w' = []
       /\ List.length (filter (fun ev => match ev with Inference _ _ => true | _ => false end)
                              (trace w')) = 2.
Proof.
  cbv zeta. split; [reflexivity|]. split; [reflexivity|].
  eexists. split; [reflexivity|]. split; reflexivity.
Qed.

(** ** The dispatch loop *)

Section Quiet.

Local Open Scope list_scope.

Lemma quiet_step_refl (w : World) : quiet_step w w.
Proof. split; [reflexivity|]. exists []. now rewrite app_nil_r. Qed.

Lemma quiet_step_trans (w1 w2 w3 : World) :
  quiet_step w1 w2 -> quiet_step w2 w3 -> quiet_step w1 w3.
Proof.
  intros [S1 (e1 & T1 & F1)] [S2 (e2 & T2 & F2)]. split; [congruence|].
  exists (e1 ++ e2). rewrite T2, T1, app_assoc. split; [reflexivity|].
  apply Forall_app. auto.
Qed.

Lemma quiet_ret {A : Type} (a : A) : quiet (ret a).
Proof. intros w. apply quiet_step_refl. Qed.

Lemma quiet_bind {A B : Type} (c : Go A) (k : A -> Go B) :
  quiet c -> (forall a, quiet (k a)) -> quiet (bind c k).
Proof.
  intros Hc Hk w. unfold bind. specialize (Hc w).
  destruct (c w) as [a w1|v w1]; simpl in *; [|assumption].
  eapply quiet_step_trans; [exact Hc | apply Hk].
Qed.

Lemma quiet_emit (ev : Event) : no_stdin ev -> quiet (emit ev).
Proof.
  intros H w. split; [reflexivity|]. exists [ev]. simpl. split; [reflexivity|].
  constructor; [assumption | constructor].
Qed.

Lemma quiet_os_ReadFile (p : string) : quiet (os.ReadFile p).
Proof. intros w. simpl. one_event (Syscall "ReadFile" p). Qed.

Lemma quiet_os_WriteFile (p d : string) : quiet (os.WriteFile p d).
Proof.
  intros w. unfold os.WriteFile. destruct (vfs.write _ _ _); simpl;
    one_event (Syscall "WriteFile" p).
Qed.

Lemma quiet_os_MkdirAll (p : string) : quiet (os.MkdirAll p).
Proof.
  intros w. unfold os.MkdirAll. destruct (vfs.mkdir_all _ _); simpl;
    one_event (Syscall "MkdirAll" p).
Qed.

Lemma quiet_Walk {S : Type} (root : string) (fn : filepath.WalkFunc S) (st : S) :
  quiet (filepath.Walk root fn st).
Proof.
  intros w. unfold filepath.Walk. destruct (vfs.stat _ _); simpl;
    one_event (Syscall "Walk" root).
Qed.

Lemma quiet_ReadFile (input : json.RawMessage) : quiet (ReadFile input).
Proof.
  unfold ReadFile. destruct (Unmarshal_ReadFileInput input) as [i [err|]].
  - apply quiet_ret.
  - apply quiet_bind; [apply quiet_os_ReadFile|]. intros [c|e]; apply quiet_ret.
Qed.

Lemma quiet_ListFiles (input : json.RawMessage) : quiet (ListFiles input).
Proof.
  unfold ListFiles. destruct (Unmarshal_ListFilesInput input) as [i [err|]].
  - intros w. apply quiet_step_refl.
  - apply quiet_bind; [apply quiet_Walk|]. intros [files [e|]]; apply quiet_ret.
Qed.

Lemma quiet_createNewFile (p c : string) : quiet (createNewFile p c).
Proof.
  unfold createNewFile. apply quiet_bind.
  - destruct (negb _); [apply quiet_os_MkdirAll | apply quiet_ret].
  - intros [e|]; [apply quiet_ret|].
    apply quiet_bind; [apply quiet_os_WriteFile|]. intros [e|]; apply quiet_ret.
Qed.

Lemma quiet_EditFile (input : json.RawMessage) : quiet (EditFile input).
Proof.
  unfold EditFile. destruct (Unmarshal_EditFileInput input) as [i [err|]].
  - apply quiet_ret.
  - destruct (_ || _); [apply quiet_ret|].
    apply quiet_bind; [apply quiet_os_ReadFile|]. intros [c|e].
    + destruct (_ && _); [apply quiet_ret|].
      apply quiet_bind; [apply quiet_os_WriteFile|]. intros [e|]; apply quiet_ret.
    + destruct (_ && _); [apply quiet_createNewFile | apply quiet_ret].
Qed.

Lemma main_agent_quiet_tools (client : Client) : quiet_tools (main_agent client).
Proof.
  intros tool [<- | [<- | [<- | []]]] input; simpl.
  - apply quiet_ReadFile.
  - apply quiet_ListFiles.
  - apply quiet_EditFile.
Qed.

Variable a : Agent.
Hypothesis tools_ok : quiet_tools a.

Lemma quiet_executeTool (id name : string) (input : json.RawMessage) :
  quiet (executeTool a id name input).
Proof.
  unfold executeTool.
  destruct (find _ (tools a)) as [toolDef|] eqn:F; [|apply quiet_ret].
  apply find_some in F as [Hin _].
  apply quiet_bind; [apply quiet_emit; exact I|]. intros _.
  apply quiet_bind; [now apply tools_ok|]. intros [r|e]; apply quiet_ret.
Qed.

Lemma quiet_processContent (content : list anthropic.ContentBlockUnion)
    (acc : list anthropic.ContentBlockParamUnion) :
  quiet (processContent a content acc).
Proof.
  revert acc. induction content as [|c rest IH]; intros acc; simpl.
  - apply quiet_ret.
  - destruct (String.eqb (anthropic.Kind c) "text").
    + apply quiet_bind; [apply quiet_emit; exact I | auto].
    + destruct (String.eqb (anthropic.Kind c) "tool_use"); [|auto].
      apply quiet_bind; [apply quiet_executeTool | auto].
Qed.

Lemma tool_names : map fst (convertToolsToAnthropicFormat a) = map Name (tools a).
Proof. unfold convertToolsToAnthropicFormat. rewrite map_map. reflexivity. Qed.

(** A pass that starts with [readUserInput] false, unfolded. *)
Lemma Run_body_false (conversation : list anthropic.MessageParam) (w : World) :
  Run_body a conversation false w
  = let w1 := logged w [Inference conversation (map Name (tools a))] in
    match client a conversation (convertToolsToAnthropicFormat a) with
    | Err err => Returned (Return err) w1
    | Ok message =>
        match processClaudeResponse a message w1 with
        | Panicked v w2 => Panicked v w2
        | Returned toolResults w2 =>
            if (0 <? List.length toolResults)%nat then
              Returned (Continue ((conversation ++ [anthropic.ToParam message])
                                  ++ [anthropic.NewUserMessage toolResults]) false) w2
            else Returned (Continue (conversation ++ [anthropic.ToParam message]) true) w2
        end
    end.
Proof.
  unfold Run_body, runInference, bind, ret, emit, logged. rewrite tool_names. cbv zeta.
  destruct (client a conversation _) as [message|err]; [|reflexivity].
  destruct (processClaudeResponse a message _) as [rs w2|v w2]; [|reflexivity].
  destruct (0 <? List.length rs)%nat; reflexivity.
Qed.

(** A pass that starts with [readUserInput] false calls the service
    first, on the conversation as it stands, and reads no input. *)
Lemma Run_body_without_input (conversation : list anthropic.MessageParam) (w : World) :
  let o := Run_body a conversation false w in
  stdin (world_of o) = stdin w
  /\ exists evs,
       trace (world_of o)
       = trace w ++ Inference conversation (map Name (tools a)) :: evs
       /\ Forall no_stdin evs.
Proof.
  cbv zeta. rewrite Run_body_false. cbv zeta.
  set (w1 := logged w [Inference conversation (map Name (tools a))]).
  assert (T1 : forall evs, trace w1 ++ evs
                           = trace w ++ Inference conversation (map Name (tools a)) :: evs).
  { intros evs. unfold w1, logged. simpl. now rewrite <- app_assoc. }
  destruct (client a conversation _) as [message|err].
  - assert (Q : quiet_step w1 (world_of (processClaudeResponse a message w1)))
      by apply quiet_processContent.
    destruct (processClaudeResponse a message w1) as [rs w2|v w2]; simpl in Q.
    + destruct Q as [S2 (evs & T2 & F2)].
      destruct (0 <? List.length rs)%nat; simpl; (split; [exact S2|]);
        exists evs; rewrite T2, T1; auto.
    + destruct Q as [S2 (evs & T2 & F2)]. simpl. split; [exact S2|].
      exists evs. rewrite T2, T1. auto.
  - simpl. split; [reflexivity|]. exists []. rewrite <- T1, app_nil_r. auto.
Qed.

End Quiet.

Section DispatchLoop.

Local Open Scope list_scope.

Variable a : Agent.
Hypothesis scanner_input : getUserMessage a = scanner_getUserMessage.
Hypothesis tools_ok : quiet_tools a.

(** A pass that starts with [readUserInput] true: the prompt, one read of
    the standard input, and at its end the loop is left, otherwise the
    pass goes on like one without input on the longer conversation. *)
Lemma Run_body_true (conversation : list anthropic.MessageParam) (w : World) :
  Run_body a conversation true w
  = match stdin w with
    | [] => Returned Break (logged w [Stdout prompt; StdinRead None])
    | line :: rest =>
        Run_body a
          (conversation ++ [anthropic.NewUserMessage [anthropic.NewTextBlock line]])
          false
          (mkWorld (fs w) rest (trace w ++ [Stdout prompt; StdinRead (Some line)]))
    end.
Proof.
  unfold Run_body. rewrite scanner_input. fold prompt.
  unfold bind, Print, emit, scanner_getUserMessage, ret, logged. cbn [fs stdin trace].
  destruct (stdin w) as [|line rest]; cbn [negb fs stdin trace];
    rewrite <- !app_assoc; reflexivity.
Qed.

Lemma Run_body_with_input (conversation : list anthropic.MessageParam) (w : World) :
  exists evs,
    trace (world_of (Run_body a conversation true w))
    = trace w ++ Stdout prompt :: StdinRead (hd_error (stdin w)) :: evs.
Proof.
  rewrite Run_body_true. destruct (stdin w) as [|line rest].
  - exists []. reflexivity.
  - destruct (Run_body_without_input a tools_ok
                (conversation ++ [anthropic.NewUserMessage [anthropic.NewTextBlock line]])
                (mkWorld (fs w) rest (trace w ++ [Stdout prompt; StdinRead (Some line)])))
      as [_ (evs & T & _)].
    eexists. rewrite T. cbn [trace hd_error]. rewrite <- app_assoc. reflexivity.
Qed.

Lemma Run_body_false_continue (conversation conversation' : list anthropic.MessageParam)
    (readUserInput' : bool) (w w' : World) :
  Run_body a conversation false w = Returned (Continue conversation' readUserInput') w' ->
  exists message toolResults,
    client a conversation (convertToolsToAnthropicFormat a) = Ok message
    /\ processClaudeResponse a message
         (logged w [Inference conversation (map Name (tools a))])
       = Returned toolResults w'
    /\ ((toolResults <> []
         /\ conversation'
            = conversation
              ++ [anthropic.ToParam message; anthropic.NewUserMessage toolResults]
         /\ readUserInput' = false)
        \/ (toolResults = []
            /\ conversation' = conversation ++ [anthropic.ToParam message]
            /\ readUserInput' = true)).
Proof.
  rewrite Run_body_false. cbv zeta. intros H.
  destruct (client a conversation _) as [message|err] eqn:C; [|discriminate].
  destruct (processClaudeResponse a message _) as [rs w2|v w2] eqn:P; [|discriminate].
  exists message, rs. split; [reflexivity|].
  destruct rs as [|r rs]; simpl in H; injection H as <- <- <-.
  - split; [exact P|]. right. auto.
  - split; [exact P|]. left. rewrite <- app_assoc. repeat split. discriminate.
Qed.

End DispatchLoop.

(** X8.  Whatever the error of the first inference call is, [main] prints
    it and exits with status 1; the service is called once and no second
    line is read. *)
Lemma main_exits_on_first_inference_error
    (service : Client) (err : error) (line : string) (rest : list string)
    (fs0 : vfs.FileSystem) (fuel : nat) :
  service [anthropic.NewUserMessage [anthropic.NewTextBlock line]]
         (convertToolsToAnthropicFormat (main_agent service)) = Err err ->
  main (S fuel) service (mkWorld fs0 (line :: rest) [])
  = Some (1, mkWorld fs0 rest
               [Stdout ("Chat with Claude (use 'ctrl-c' to quit)" ++ LF);
                Stdout prompt;
                StdinRead (Some line);
                Inference [anthropic.NewUserMessage [anthropic.NewTextBlock line]]
                          ["read_file"; "list_files"; "edit_file"];
                Stdout ("Error: " ++ Error err ++ LF)]).
Proof.
  intros H. unfold main. fold main_tools. fold (main_agent service).
  unfold Run, Print, emit. cbn [Run_loop fs stdin trace app].
  rewrite (Run_body_true (main_agent service) eq_refl). cbn [stdin fs trace app].
  rewrite (Run_body_inference_error (main_agent service) _ err _ H). reflexivity.
Qed.

(** In the loop of processClaudeResponse each tool_use block is answered
    by one tool result that carries its id, in the order of the blocks. *)
Lemma processContent_ids (a : Agent) (content : list anthropic.ContentBlockUnion)
    (acc rs : list anthropic.ContentBlockParamUnion) (w w' : World) :
  processContent a content acc w = Returned rs w' ->
  exists new,
    rs = (acc ++ new)%list
    /\ Forall2 (fun (c : anthropic.ContentBlockUnion) r =>
                  exists text isError,
                    r = anthropic.OfToolResult (anthropic.ID c) text isError)
               (filter (fun c => String.eqb (anthropic.Kind c) "tool_use") content)
               new.
Proof.
  revert acc w. induction content as [|c rest IH]; intros acc w H; simpl in H.
  - injection H as <- _. exists []. rewrite app_nil_r. split; [reflexivity | constructor].
  - simpl. destruct (String.eqb (anthropic.Kind c) "text") eqn:T.
    + assert (Hk : String.eqb (anthropic.Kind c) "tool_use" = false).
      { apply String.eqb_eq in T. rewrite T. reflexivity. }
      rewrite Hk. unfold bind, Print, emit in H. eapply IH; eauto.
    + destruct (String.eqb (anthropic.Kind c) "tool_use"); [|eapply IH; eauto].
      unfold bind in H.
      destruct (executeTool a _ _ _ w) as [r w1|v w1] eqn:X; [|discriminate].
      destruct (IH _ _ H) as (new & -> & F).
      exists (r :: new). rewrite <- app_assoc. split; [reflexivity|].
      constructor; [|assumption].
      unfold executeTool in X. destruct (find _ (tools a)) as [toolDef|].
      * unfold bind, Print, emit in X.
        destruct (Function toolDef _ _) as [[resp|e] w2|v w2]; try discriminate;
          injection X as <- _; unfold anthropic.NewToolResultBlock; eauto.
      * injection X as <- _. unfold anthropic.NewToolResultBlock. eauto.
Qed.



(** The same scenario, run by [main]: one line is read, the service is
    called twice, and the tool result of the second request holds the
    listing. *)
Example scenario_run :
  option_map (fun r => (fst r, trace (snd r)))
    (main 4 (client scenario_agent) scenario_world)
  = Some (0,
          [Stdout ("Chat with Claude (use 'ctrl-c' to quit)" ++ LF);
           Stdout prompt;
           StdinRead (Some "list files");
           Inference [anthropic.NewUserMessage [anthropic.OfText "list files"]]
                     ["read_file"; "list_files"; "edit_file"];
           Stdout (ESC ++ "[92mtool" ++ ESC ++ "[0m: list_files({})" ++ LF);
           Syscall "Walk" ".";
           Inference scenario_conversation ["read_file"; "list_files"; "edit_file"];
           Stdout (ESC ++ "[93mClaude" ++ ESC ++ "[0m: done" ++ LF);
           Stdout prompt;
           StdinRead None]).
Proof. reflexivity. Qed.

(** ** Paths made of names *)

Section PathFacts.

Local Open Scope list_scope.

Lemma split_slash_cons (c : ascii) (p : string) :
  split_slash (String c p)
  = if Ascii.eqb c slash then ""%string :: split_slash p
    else match split_slash p with
         | [] => [String c ""]
         | h :: t => String c h :: t
         end.
Proof. reflexivity. Qed.

Lemma split_slash_elems (p : string) : Forall slash_free (split_slash p).
Proof.
  induction p as [|c p IH]; [repeat constructor|].
  rewrite split_slash_cons. destruct (Ascii.eqb c slash) eqn:C.
  - constructor; [reflexivity | assumption].
  - destruct (split_slash p) as [|h t]; [repeat constructor; red; simpl; now rewrite C|].
    inversion IH as [|? ? Hh Ht]; subst. constructor; [|assumption].
    red. rewrite split_slash_cons, C, Hh. reflexivity.
Qed.

Lemma split_slash_app (x s : string) :
  slash_free x -> split_slash (x ++ "/" ++ s)%string = x :: split_slash s.
Proof.
  induction x as [|c x IH]; intros H; [reflexivity|].
  red in H. rewrite split_slash_cons in H.
  change (String c x ++ "/" ++ s)%string with (String c (x ++ "/" ++ s)%string).
  rewrite split_slash_cons.
  destruct (Ascii.eqb c slash); [discriminate|].
  destruct (split_slash x) as [|h t] eqn:E.
  - now elim (split_slash_nonempty x).
  - injection H as -> ->. rewrite IH by exact E. reflexivity.
Qed.

Lemma split_join (l : list string) :
  l <> [] -> Forall slash_free l -> split_slash (join_slash l) = l.
Proof.
  induction l as [|x l IH]; intros Hne H; [congruence|].
  inversion H as [|? ? Hx Hl]; subst.
  destruct l as [|y l]; [exact Hx|].
  change (join_slash (x :: y :: l)) with (x ++ "/" ++ join_slash (y :: l))%string.
  rewrite split_slash_app by assumption. f_equal. apply IH; [discriminate | assumption].
Qed.

Lemma rooted_split (p : string) :
  rooted p = true -> exists t, split_slash p = ""%string :: t.
Proof.
  destruct p as [|c p]; [discriminate|]. unfold rooted. simpl. intros H.
  apply andb_prop in H as [H _]. apply Ascii.eqb_eq in H. subst c.
  exists (split_slash p). reflexivity.
Qed.

Lemma LastIndexSlash_None (p : string) :
  path.LastIndexSlash p = None -> exists h, split_slash p = [h].
Proof.
  induction p as [|c p IH]; simpl; [eauto|].
  destruct (path.LastIndexSlash p); [discriminate|].
  destruct (Ascii.eqb c slash); [discriminate|]. intros _.
  destruct (IH eq_refl) as [h ->]. eauto.
Qed.

Lemma LastIndexSlash_Some (p : string) (i : nat) :
  path.LastIndexSlash p = Some i -> exists h x t, split_slash p = h :: x :: t.
Proof.
  revert i. induction p as [|c p IH]; simpl; intros i H; [discriminate|].
  destruct (path.LastIndexSlash p) as [j|] eqn:L.
  - destruct (IH j eq_refl) as (h & x & t & ->).
    destruct (Ascii.eqb c slash); eauto.
  - destruct (Ascii.eqb c slash); [|discriminate].
    destruct (LastIndexSlash_None _ L) as [h ->]. eauto.
Qed.

(** The elements of the directory part of a path with a slash: those of
    the path without the last, and an empty one for the final slash. *)
Lemma Split_elems (p : string) (i : nat) :
  path.LastIndexSlash p = Some i ->
  split_slash (fst (path.Split p)) = removelast (split_slash p) ++ [""%string].
Proof.
  unfold path.Split. revert i. induction p as [|c p IH]; intros i H; [discriminate|].
  rewrite H. cbn [fst]. simpl in H.
  destruct (path.LastIndexSlash p) as [j|] eqn:L.
  - injection H as <-. specialize (IH j eq_refl). cbn [fst] in IH.
    change (slice_to (S (S j)) (String c p)) with (String c (slice_to (S j) p)).
    rewrite !split_slash_cons, IH.
    destruct (LastIndexSlash_Some _ _ L) as (h & x & t & E). rewrite E.
    destruct (Ascii.eqb c slash); reflexivity.
  - destruct (Ascii.eqb c slash) eqn:C; [|discriminate]. injection H as <-.
    destruct (LastIndexSlash_None _ L) as [h E].
    rewrite split_slash_cons, C, E. simpl. now rewrite C.
Qed.

Lemma clean_elems_names (r : bool) (ns rest out : list string) :
  Forall proper_name ns ->
  path.clean_elems r (ns ++ rest) out = path.clean_elems r rest (rev ns ++ out).
Proof.
  revert out. induction ns as [|n ns IH]; intros out H; [reflexivity|].
  inversion H as [|? ? [D1 D2] Hns]; subst. simpl.
  unfold vfs.is_dot in D1. rewrite D1, D2. rewrite IH by assumption.
  now rewrite <- app_assoc.
Qed.

Lemma names_not_rooted (p : string) :
  Forall proper_name (split_slash p) -> rooted p = false /\ p <> ""%string.
Proof.
  intros H. split.
  - destruct (rooted p) eqn:R; [|reflexivity].
    destruct (rooted_split _ R) as [t E]. rewrite E in H.
    inversion H as [|? ? [D _] _]. discriminate.
  - intros ->. inversion H as [|? ? [D _] _]. discriminate.
Qed.

(** The directory of a path of names: [.] for a single name, otherwise
    the path of the names before the last. *)
Lemma Dir_names (p : string) :
  Forall proper_name (split_slash p) ->
  (removelast (split_slash p) = [] /\ path.Dir p = "."%string)
  \/ (removelast (split_slash p) <> []
      /\ path.Dir p <> "."%string
      /\ path.Dir p <> ""%string
      /\ rooted (path.Dir p) = false
      /\ split_slash (path.Dir p) = removelast (split_slash p)).
Proof.
  intros H. unfold path.Dir.
  destruct (path.LastIndexSlash p) as [i|] eqn:L.
  - right. pose proof (Split_elems _ _ L) as E.
    destruct (LastIndexSlash_Some _ _ L) as (h & x & t & Es).
    set (ns := removelast (split_slash p)) in *.
    assert (Hns : ns <> []) by (unfold ns; rewrite Es; simpl; destruct t; discriminate).
    assert (Hp : Forall proper_name ns).
    { rewrite split_slash_last in H. apply Forall_app in H. tauto. }
    assert (Hf : Forall slash_free ns).
    { pose proof (split_slash_elems p) as F. rewrite split_slash_last in F.
      apply Forall_app in F. tauto. }
    set (d := fst (path.Split p)) in *.
    assert (Hd : d <> ""%string).
    { intros E0. rewrite E0 in E. destruct ns; [congruence|]. destruct ns; discriminate. }
    assert (Hr : rooted d = false).
    { destruct (rooted d) eqn:R; [|reflexivity].
      destruct (rooted_split _ R) as [t' E']. rewrite E' in E.
      destruct ns as [|n ns']; [congruence|]. injection E as <- _.
      inversion Hp as [|? ? [D _] _]. discriminate. }
    assert (Hc : path.Clean d = join_slash ns).
    { unfold path.Clean. destruct (String.eqb_spec d ""); [contradiction|].
      rewrite Hr, E, clean_elems_names by assumption. simpl. rewrite app_nil_r, rev_involutive.
      destruct ns; [congruence | reflexivity]. }
    rewrite Hc. pose proof (split_join _ Hns Hf) as Sj.
    repeat split; auto.
    + intros E0. rewrite E0 in Sj. simpl in Sj. rewrite <- Sj in Hp.
      inversion Hp as [|? ? [D _] _]. discriminate.
    + intros E0. rewrite E0 in Sj. simpl in Sj. rewrite <- Sj in Hp.
      inversion Hp as [|? ? [D _] _]. discriminate.
    + destruct (rooted (join_slash ns)) eqn:R; [|reflexivity].
      destruct (rooted_split _ R) as [t' E']. rewrite E' in Sj. rewrite <- Sj in Hp.
      inversion Hp as [|? ? [D _] _]. discriminate.
  - left. destruct (LastIndexSlash_None _ L) as [h E]. rewrite E. split; [reflexivity|].
    unfold path.Split. rewrite L. reflexivity.
Qed.

End PathFacts.

(** ** Creation of a file and of its missing parents *)

Section Creation.

Local Open Scope list_scope.

Lemma extends_refl (r : vfs.node) : extends r r.
Proof. intros x _. reflexivity. Qed.

Lemma extends_trans (r1 r2 r3 : vfs.node) :
  extends r1 r2 -> extends r2 r3 -> extends r1 r3.
Proof.
  intros H12 H23 x Hx. rewrite H23; [now apply H12|]. now rewrite H12.
Qed.

Lemma kind_dir (r : vfs.node) (x : vfs.loc) :
  kind_at r x = Some true -> exists es, vfs.node_at r x = Some (vfs.Dir es).
Proof.
  unfold kind_at. destruct (vfs.node_at r x) as [[d|es]|]; try discriminate. eauto.
Qed.

Lemma put_new_extends (parent : vfs.loc) (name : string) (new r : vfs.node)
    (es : list (string * vfs.node)) :
  vfs.node_at r parent = Some (vfs.Dir es) ->
  vfs.lookup name es = None ->
  leaf new ->
  extends r (vfs.put (parent ++ [name]) new r).
Proof.
  intros N L Hl x Hx.
  destruct (list_eq_dec string_dec x (parent ++ [name])) as [->|Hne].
  - exfalso. apply Hx. unfold kind_at. rewrite node_at_app, N. simpl. now rewrite L.
  - eapply kind_at_put; eauto. now rewrite L.
Qed.

(** One step of a walk, over a name that is there. *)
Lemma walk_elems_name (r : vfs.node) (cur : vfs.loc) (m : string) (rest : list string) :
  kind_at r cur = Some true ->
  kind_at r (cur ++ [m]) <> None ->
  proper_name m ->
  vfs.walk_elems r cur (m :: rest) = vfs.walk_elems r (cur ++ [m]) rest.
Proof.
  intros Hc Hm [D1 D2]. destruct (kind_dir _ _ Hc) as [es N].
  simpl. rewrite N, D1, D2. unfold kind_at in Hm. rewrite node_at_app, N in Hm.
  simpl in Hm. destruct (vfs.lookup m es); [reflexivity | now elim Hm].
Qed.

(** For a path of names that does not resolve because a name is missing:
    the directories before the last name can be made, and the last name
    is then missing from the last of them. *)
Lemma mkdir_names (n : string) (ns : list string) (r : vfs.node) (cur : vfs.loc) :
  Forall proper_name (ns ++ [n]) ->
  kind_at r cur = Some true ->
  vfs.walk_elems r cur (ns ++ [n]) = inl ENOENT ->
  exists r1 es,
    vfs.mkdir_elems r cur ns = inr r1
    /\ extends r r1
    /\ vfs.node_at r1 (cur ++ ns) = Some (vfs.Dir es)
    /\ vfs.lookup n es = None
    /\ vfs.walk_elems r1 cur ns = inr (cur ++ ns).
Proof.
  revert r cur. induction ns as [|m ns IH]; intros r cur Hp Hc W.
  - destruct (kind_dir _ _ Hc) as [es N]. exists r, es. rewrite app_nil_r.
    inversion Hp as [|? ? [D1 D2] _]; subst.
    simpl in W. rewrite N, D1, D2 in W.
    repeat split; auto using extends_refl.
    destruct (vfs.lookup n es); [discriminate | reflexivity].
  - destruct (kind_dir _ _ Hc) as [es N].
    inversion Hp as [|? ? [D1 D2] Hp']; subst.
    assert (Hhd : exists e rest, ns ++ [n] = e :: rest /\ proper_name e).
    { destruct ns as [|e ns']; simpl in *; inversion Hp'; subst; eauto. }
    destruct Hhd as (e & rest & Ee & [E1 E2]).
    cbn [app vfs.walk_elems vfs.mkdir_elems] in W |- *. rewrite N, D1, D2 in W |- *.
    destruct (vfs.lookup m es) as [[d|es']|] eqn:L.
    + (* a file on the way: the walk fails otherwise *)
      exfalso. rewrite Ee in W. simpl in W. rewrite node_at_app, N in W. simpl in W.
      rewrite L in W. discriminate.
    + assert (Hm : kind_at r (cur ++ [m]) = Some true).
      { unfold kind_at. rewrite node_at_app, N. simpl. now rewrite L. }
      destruct (IH r (cur ++ [m]) Hp' Hm W) as (r1 & es1 & M & X & N1 & L1 & W1).
      exists r1, es1. rewrite <- app_assoc in N1, W1. repeat split; auto.
      assert (K1 : kind_at r1 cur = Some true) by (rewrite X; congruence).
      assert (K2 : kind_at r1 (cur ++ [m]) = Some true) by (rewrite X; congruence).
      pose proof (walk_elems_name r1 cur m ns K1 ltac:(congruence) (conj D1 D2)) as Ws.
      cbn [vfs.walk_elems] in Ws. rewrite D1, D2 in Ws. rewrite Ws, W1. reflexivity.
    + set (r' := vfs.put (cur ++ [m]) (vfs.Dir []) r).
      assert (X0 : extends r r') by (eapply put_new_extends; eauto; reflexivity).
      assert (N' : vfs.node_at r' (cur ++ [m]) = Some (vfs.Dir []))
        by (eapply node_at_put; eauto).
      assert (Hm : kind_at r' (cur ++ [m]) = Some true)
        by (unfold kind_at; now rewrite N').
      assert (W' : vfs.walk_elems r' (cur ++ [m]) (ns ++ [n]) = inl ENOENT).
      { rewrite Ee. simpl. rewrite N'. unfold vfs.is_dot in E1. unfold vfs.is_dot.
        now rewrite E1, E2. }
      destruct (IH r' (cur ++ [m]) Hp' Hm W') as (r1 & es1 & M & X & N1 & L1 & W1).
      exists r1, es1. rewrite <- app_assoc in N1, W1. repeat split; auto.
      * eapply extends_trans; eauto.
      * assert (K1 : kind_at r1 cur = Some true).
        { assert (K0 : kind_at r' cur = Some true) by (rewrite X0; congruence).
          rewrite X; congruence. }
        assert (K2 : kind_at r1 (cur ++ [m]) = Some true) by (rewrite X; congruence).
        pose proof (walk_elems_name r1 cur m ns K1 ltac:(congruence) (conj D1 D2)) as Ws.
        cbn [vfs.walk_elems] in Ws. rewrite D1, D2 in Ws. rewrite Ws, W1. reflexivity.
Qed.

(** Creation at the level of the calls of package os. *)
Lemma create_names (fs0 : vfs.FileSystem) (p data : string) :
  Forall proper_name (split_slash p) ->
  kind_at (vfs.root fs0) (vfs.cwd fs0) = Some true ->
  vfs.read fs0 p = Err (PathError "open" p ENOENT) ->
  exists fs1 fs2,
    ((path.Dir p = "."%string /\ fs1 = fs0)
     \/ (path.Dir p <> "."%string /\ vfs.mkdir_all fs0 (path.Dir p) = inr fs1))
    /\ vfs.write fs1 p data = inr fs2.
Proof.
  intros Hp Hc R.
  destruct (names_not_rooted _ Hp) as [Hr Hne].
  assert (W : vfs.walk_elems (vfs.root fs0) (vfs.cwd fs0) (split_slash p) = inl ENOENT).
  { unfold vfs.read, vfs.stat, vfs.namei, vfs.start in R. rewrite Hr in R.
    destruct (String.eqb_spec p ""); [contradiction|].
    destruct (vfs.walk_elems _ _ _) as [e|l] eqn:W.
    - injection R as ->. reflexivity.
    - exfalso. assert (K : kind_at (vfs.root fs0) l <> None).
      { eapply walk_elems_exists; eauto. congruence. }
      unfold kind_at in K.
      destruct (vfs.node_at (vfs.root fs0) l) as [[d|es]|]; try discriminate.
      now apply K. }
  rewrite split_slash_last in W, Hp.
  set (ns := removelast (split_slash p)) in *.
  set (n := last (split_slash p) ""%string) in *.
  destruct (mkdir_names n ns _ _ Hp Hc W) as (r1 & es & M & X & N1 & L1 & W1).
  assert (Wr : vfs.write (vfs.mkFS r1 (vfs.cwd fs0)) p data
               = inr (vfs.mkFS (vfs.put (vfs.cwd fs0 ++ ns ++ [n]) (vfs.File data) r1)
                               (vfs.cwd fs0))).
  { unfold vfs.write, vfs.start. rewrite Hr. cbn [vfs.root vfs.cwd].
    destruct (String.eqb_spec p ""); [contradiction|].
    fold ns. fold n. rewrite W1, N1.
    apply Forall_app in Hp as [_ Hn]. inversion Hn as [|? ? [D1 D2] _]; subst.
    rewrite D1, D2, L1. cbn [orb]. now rewrite <- app_assoc. }
  destruct (Dir_names _ (eq_ind_r (Forall proper_name) Hp (split_slash_last p)))
    as [[E D] | (E & D1 & D2 & D3 & D4)]; fold ns in E.
  - exists fs0, (vfs.mkFS (vfs.put (vfs.cwd fs0 ++ ns ++ [n]) (vfs.File data) r1)
                          (vfs.cwd fs0)).
    split; [left; auto|].
    rewrite E in M. simpl in M. injection M as <-. destruct fs0; exact Wr.
  - exists (vfs.mkFS r1 (vfs.cwd fs0)),
           (vfs.mkFS (vfs.put (vfs.cwd fs0 ++ ns ++ [n]) (vfs.File data) r1)
                     (vfs.cwd fs0)).
    split; [right; split; [assumption|] | exact Wr].
    unfold vfs.mkdir_all, vfs.start.
    destruct (String.eqb_spec (path.Dir p) ""); [contradiction|].
    fold ns in D4. rewrite D3, D4, M. reflexivity.
Qed.

End Creation.

(** ** Claims about the creation of files *)

(** edit_file with an empty old_str on a path whose lookup fails with
    not-exist, behind the calls of package os: the directory of the path
    is made unless it is [.], then the file is written. *)
Lemma EditFile_creation (input : json.RawMessage) (path new : string) (w : World) :
  Unmarshal_EditFileInput input = (mkEditFileInput path "" new, None) ->
  path <> "" -> new <> "" ->
  vfs.read (fs w) path = Err (PathError "open" path ENOENT) ->
  EditFile input w
  = if String.eqb (path.Dir path) "." then
      match vfs.write (fs w) path new with
      | inl e =>
          Returned (Err (Errorf_w "failed to create file: " (PathError "open" path e)))
                   (logged w [Syscall "ReadFile" path; Syscall "WriteFile" path])
      | inr fs2 =>
          Returned (Ok ("Successfully created file " ++ path))
                   (mkWorld fs2 (stdin w)
                      (trace w ++ [Syscall "ReadFile" path; Syscall "WriteFile" path]))
      end
    else
      match vfs.mkdir_all (fs w) (path.Dir path) with
      | inl e =>
          Returned (Err (Errorf_w "failed to create directory: "
                           (PathError "mkdir" (path.Dir path) e)))
                   (logged w [Syscall "ReadFile" path; Syscall "MkdirAll" (path.Dir path)])
      | inr fs1 =>
          match vfs.write fs1 path new with
          | inl e =>
              Returned (Err (Errorf_w "failed to create file: " (PathError "open" path e)))
                       (mkWorld fs1 (stdin w)
                          (trace w ++ [Syscall "ReadFile" path;
                                       Syscall "MkdirAll" (path.Dir path);
                                       Syscall "WriteFile" path]))
          | inr fs2 =>
              Returned (Ok ("Successfully created file " ++ path))
                       (mkWorld fs2 (stdin w)
                          (trace w ++ [Syscall "ReadFile" path;
                                       Syscall "MkdirAll" (path.Dir path);
                                       Syscall "WriteFile" path]))
          end
      end.
Proof.
  intros D Hp Hnew R.
  assert (Hon : "" <> new) by congruence.
  rewrite (EditFile_decoded _ _ _ _ D w Hp Hon), R. cbn [os.IsNotExist andb String.eqb].
  unfold createNewFile, bind, os.MkdirAll, os.WriteFile, ret, logged.
  cbn [fs stdin trace].
  destruct (String.eqb (path.Dir path) "."); cbn [negb fs stdin trace].
  - destruct (vfs.write (fs w) path new); rewrite <- !app_assoc; reflexivity.
  - destruct (vfs.mkdir_all (fs w) (path.Dir path)) as [e|fs1]; cbn [fs stdin trace].
    + rewrite <- !app_assoc. reflexivity.
    + destruct (vfs.write fs1 path new); rewrite <- !app_assoc; reflexivity.
Qed.

(** A call of edit_file with an empty old_str that reports the creation
    of the file has written new_str to the path. *)
Lemma EditFile_created (input : json.RawMessage) (path new : string) (w w1 : World) :
  Unmarshal_EditFileInput input = (mkEditFileInput path "" new, None) ->
  EditFile input w = Returned (Ok ("Successfully created file " ++ path)) w1 ->
  path <> "" /\ new <> "" /\ vfs.read (fs w1) path = Ok new.
Proof.
  intros D H.
  assert (Hp : path <> "").
  { intros ->. unfold EditFile in H. rewrite D in H. discriminate. }
  assert (Hnew : new <> "").
  { intros ->. unfold EditFile in H. rewrite D in H. cbn [Path OldStr NewStr] in H.
    rewrite orb_true_r in H. discriminate. }
  split; [exact Hp|]. split; [exact Hnew|].
  assert (Hon : "" <> new) by congruence.
  rewrite (EditFile_decoded _ _ _ _ D w Hp Hon) in H.
  destruct (vfs.read (fs w) path) as [content|err] eqn:R.
  - cbv zeta in H. cbn [String.eqb negb] in H. rewrite andb_false_r in H.
    destruct (vfs.write (fs w) path _); discriminate.
  - cbn [String.eqb] in H. rewrite andb_true_r in H.
    destruct (os.IsNotExist err); [|discriminate].
    unfold createNewFile, bind, os.MkdirAll, os.WriteFile, ret, logged in H.
    cbn [fs stdin trace] in H.
    destruct (negb (String.eqb (path.Dir path) ".")); cbn [fs stdin trace] in H.
    + destruct (vfs.mkdir_all (fs w) (path.Dir path)) as [e|fs1];
        cbn [fs stdin trace] in H; [discriminate|].
      destruct (vfs.write fs1 path new) as [e|fs2] eqn:Wr; [discriminate|].
      injection H as <-. cbn [fs]. now apply read_after_write in Wr.
    + destruct (vfs.write (fs w) path new) as [e|fs2] eqn:Wr; [discriminate|].
      injection H as <-. cbn [fs]. now apply read_after_write in Wr.
Qed.




(** The creation also goes through for an absolute path and for a path
    with a [.] element. *)
Example EditFile_creates_absolute :
  EditFile (edit_request "/empty/new/x.txt" "" "hi") demo_world
  = Returned (Ok "Successfully created file /empty/new/x.txt")
      (world_of (EditFile (edit_request "/empty/new/x.txt" "" "hi") demo_world))
  /\ vfs.read (fs (world_of (EditFile (edit_request "/empty/new/x.txt" "" "hi") demo_world)))
              "/empty/new/x.txt" = Ok "hi"
  /\ vfs.read (fs (world_of (EditFile (edit_request "./x.txt" "" "hi") demo_world)))
              "x.txt" = Ok "hi".
Proof. repeat split; reflexivity. Qed.

Example EditFile_creates_parents :
  fs (world_of (EditFile (edit_request "docs/api/index.md" "" "# API") demo_world))
  = vfs.mkFS
      (vfs.Dir [("empty", vfs.Dir []);
                ("proj", vfs.Dir [("docs", vfs.Dir [("api",
                                     vfs.Dir [("index.md", vfs.File "# API")])]);
                                  ("notes.txt", vfs.File "a-b-c");
                                  ("x.go", vfs.File "package x");
                                  ("y", vfs.Dir [])])])
      ["proj"].
Proof. reflexivity. Qed.


(** ** The listing of a directory *)

Section ListingFacts.

Local Open Scope list_scope.

Lemma join_cons (x y : string) (l : list string) :
  join_slash (x :: y :: l) = (x ++ "/" ++ join_slash (y :: l))%string.
Proof. reflexivity. Qed.

Lemma join_snoc (l : list string) (n : string) :
  l <> [] -> join_slash (l ++ [n]) = (join_slash l ++ "/" ++ n)%string.
Proof.
  induction l as [|x l IH]; intros H; [congruence|].
  destruct l as [|y l]; [reflexivity|].
  change ((x :: y :: l) ++ [n]) with (x :: (y :: l ++ [n])).
  rewrite !join_cons. change (y :: l ++ [n]) with ((y :: l) ++ [n]).
  rewrite IH by discriminate. now rewrite !append_assoc.
Qed.

Lemma slash_free_cons (c : ascii) (x : string) :
  slash_free (String c x) -> Ascii.eqb c slash = false /\ slash_free x.
Proof.
  unfold slash_free. rewrite split_slash_cons.
  destruct (Ascii.eqb c slash); [discriminate|].
  destruct (split_slash x) as [|h t] eqn:E; [now elim (split_slash_nonempty x)|].
  intros H. injection H as -> ->. auto.
Qed.

Lemma word_slash_free (d s : string) :
  slash_free d ->
  filepath.word (d ++ "/" ++ s) = d
  /\ filepath.after_word (d ++ "/" ++ s) = ("/" ++ s)%string
  /\ filepath.word d = d
  /\ filepath.after_word d = ""%string.
Proof.
  induction d as [|c d IH]; intros H; [repeat split|].
  apply slash_free_cons in H as [C H]. destruct (IH H) as (W1 & A1 & W2 & A2).
  change (String c d ++ "/" ++ s)%string with (String c (d ++ "/" ++ s)%string).
  cbn [filepath.word filepath.after_word]. rewrite C, W1, A1, W2, A2. repeat split.
Qed.

Lemma proper_name_nonempty (e : string) : proper_name e -> e <> ""%string.
Proof. intros [D _] ->. discriminate. Qed.

(** The names of a path of entry names. *)
Lemma names_split (l : list string) :
  l <> [] -> Forall entry_name l ->
  split_slash (join_slash l) = l
  /\ rooted (join_slash l) = false
  /\ join_slash l <> ""%string.
Proof.
  intros Hne H.
  assert (Hs : split_slash (join_slash l) = l).
  { apply split_join; [assumption|]. eapply Forall_impl; [|exact H]. now intros e [_ F]. }
  assert (Hp : Forall proper_name (split_slash (join_slash l))).
  { rewrite Hs. eapply Forall_impl; [|exact H]. now intros e [F _]. }
  destruct (names_not_rooted _ Hp). auto.
Qed.

(** A path of entry names is clean. *)
Lemma Clean_names (l : list string) :
  l <> [] -> Forall entry_name l -> path.Clean (join_slash l) = join_slash l.
Proof.
  intros Hne H. destruct (names_split _ Hne H) as (Hs & Hr & Hn).
  unfold path.Clean. destruct (String.eqb_spec (join_slash l) ""); [contradiction|].
  rewrite Hr, Hs. rewrite <- (app_nil_r l) at 1.
  rewrite clean_elems_names by (eapply Forall_impl; [|exact H]; now intros e [F _]).
  simpl. rewrite app_nil_r, rev_involutive. destruct l; [congruence | reflexivity].
Qed.

(** Joining a path of entry names and one more name. *)
Lemma Join_names (l : list string) (n : string) :
  l <> [] -> Forall entry_name l -> entry_name n ->
  filepath.Join (join_slash l) n = join_slash (l ++ [n]).
Proof.
  intros Hne H Hn. destruct (names_split _ Hne H) as (_ & _ & Hl).
  unfold filepath.Join. destruct (String.eqb_spec (join_slash l) ""); [contradiction|].
  destruct (String.eqb_spec n ""); [now elim (proper_name_nonempty n (proj1 Hn))|].
  rewrite <- join_snoc by assumption.
  apply Clean_names; [now destruct l | apply Forall_app; auto].
Qed.

Lemma Join_dot (n : string) : entry_name n -> filepath.Join "." n = n.
Proof.
  intros Hn. unfold filepath.Join. cbn [String.eqb Ascii.eqb Bool.eqb].
  destruct (String.eqb_spec n ""); [now elim (proper_name_nonempty n (proj1 Hn))|].
  unfold path.Clean. change ("." ++ "/" ++ n)%string with (String "." (String "/" n)).
  cbn [String.eqb rooted strings.HasPrefix Ascii.eqb Bool.eqb andb].
  rewrite !split_slash_cons. cbn [Ascii.eqb Bool.eqb slash].
  destruct Hn as [[D1 D2] F]. red in F. rewrite F. simpl.
  unfold vfs.is_dot in D1. rewrite D1, D2. reflexivity.
Qed.

Lemma length_join (l : list string) :
  Forall entry_name l -> List.length l <= S (String.length (join_slash l)).
Proof.
  induction l as [|x l IH]; intros H; [simpl; lia|].
  inversion H as [|? ? Hx Hl]; subst. specialize (IH Hl).
  destruct l as [|y l]; [simpl; lia|].
  rewrite join_cons, !length_append. simpl in *. lia.
Qed.

Lemma entry_name_append_nonempty (d t : string) :
  entry_name d -> (d ++ t)%string <> ""%string.
Proof.
  intros [Hd _] E. apply (proper_name_nonempty d Hd). destruct d; [reflexivity | discriminate].
Qed.

(** One pass of the loop of [Rel] over a common leading name. *)
Lemma rel_loop_step (d b t : string) (fuel : nat) :
  entry_name d ->
  filepath.rel_loop (S fuel) (d ++ "/" ++ b) (d ++ "/" ++ t) = filepath.rel_loop fuel b t.
Proof.
  intros Hd. pose proof (entry_name_append_nonempty d ("/" ++ b) Hd) as Nb.
  pose proof (entry_name_append_nonempty d ("/" ++ t) Hd) as Nt.
  destruct (word_slash_free d b (proj2 Hd)) as (Wb & Ab & _ & _).
  destruct (word_slash_free d t (proj2 Hd)) as (Wt & At & _ & _).
  cbn [filepath.rel_loop].
  destruct (String.eqb_spec (d ++ "/" ++ b) ""); [contradiction|].
  destruct (String.eqb_spec (d ++ "/" ++ t) ""); [contradiction|].
  cbn [orb]. rewrite Wb, Wt, Ab, At, String.eqb_refl. reflexivity.
Qed.

(** The pass over the last name of the base. *)
Lemma rel_loop_last (d t : string) (fuel : nat) :
  entry_name d ->
  filepath.rel_loop (S fuel) d (d ++ "/" ++ t) = (""%string, (""%string, t)).
Proof.
  intros Hd. pose proof (entry_name_append_nonempty d ("/" ++ t) Hd) as Nt.
  destruct (word_slash_free d t (proj2 Hd)) as (Wt & At & Wd & Ad).
  cbn [filepath.rel_loop].
  destruct (String.eqb_spec d ""); [now elim (proper_name_nonempty d (proj1 Hd))|].
  destruct (String.eqb_spec (d ++ "/" ++ t) ""); [contradiction|].
  cbn [orb]. rewrite Wd, Wt, Ad, At, String.eqb_refl.
  destruct fuel; reflexivity.
Qed.

(** The loop of [Rel] on a base of entry names and a target below it. *)
Lemma rel_loop_names (D ns : list string) (fuel : nat) :
  Forall entry_name D -> D <> [] -> ns <> [] ->
  List.length D <= fuel ->
  filepath.rel_loop fuel (join_slash D) (join_slash (D ++ ns))
  = (""%string, (""%string, join_slash ns)).
Proof.
  intros H. revert fuel. induction D as [|d D IH]; intros fuel HD Hns Hf; [congruence|].
  inversion H as [|? ? Hd HD']; subst.
  destruct fuel as [|fuel]; [simpl in Hf; lia|].
  assert (T : join_slash ((d :: D) ++ ns) = (d ++ "/" ++ join_slash (D ++ ns))%string).
  { simpl app. destruct (D ++ ns) eqn:E; [|reflexivity].
    apply app_eq_nil in E as [_ E]. contradiction. }
  rewrite T. destruct D as [|d' D].
  - apply rel_loop_last. assumption.
  - rewrite join_cons, rel_loop_step by assumption.
    apply IH; [assumption | discriminate | assumption | simpl in *; lia].
Qed.

(** [Rel] from a directory to a path below it: the names in between. *)
Lemma Rel_names (D ns : list string) :
  Forall entry_name D -> D <> [] -> Forall entry_name ns -> ns <> [] ->
  filepath.Rel (join_slash D) (join_slash (D ++ ns)) = Ok (join_slash ns).
Proof.
  intros HD Dne Hns Nne.
  assert (HDn : Forall entry_name (D ++ ns)) by (apply Forall_app; auto).
  assert (DNne : D ++ ns <> []) by (destruct D; [congruence | discriminate]).
  destruct (names_split _ Dne HD) as (Sd & Rd & Nd).
  destruct (names_split _ DNne HDn) as (Sn & Rn & Nn).
  unfold filepath.Rel. rewrite !Clean_names by assumption.
  destruct (String.eqb_spec (join_slash (D ++ ns)) (join_slash D)) as [E|_].
  { exfalso. rewrite E in Sn. rewrite Sd in Sn.
    apply (f_equal (@List.length string)) in Sn. rewrite length_app in Sn.
    destruct ns; [congruence | simpl in Sn; lia]. }
  destruct (String.eqb_spec (join_slash D) ".") as [E|_].
  { exfalso. rewrite E in Sd. simpl in Sd. rewrite <- Sd in HD.
    inversion HD as [|? ? [[Hdot _] _] _]. discriminate. }
  rewrite Rd, Rn. cbn [Bool.eqb negb].
  rewrite (rel_loop_names D ns (S (String.length (join_slash D))) HD Dne Nne
             (length_join D HD)).
  cbn [String.eqb negb]. reflexivity.
Qed.

(** [Rel] from the directory [.] to a path of names: the path. *)
Lemma Rel_dot (ns : list string) :
  Forall entry_name ns -> ns <> [] ->
  filepath.Rel "." (join_slash ns) = Ok (join_slash ns).
Proof.
  intros Hns Nne. destruct (names_split _ Nne Hns) as (Sn & Rn & Nn).
  unfold filepath.Rel. rewrite Clean_names by assumption.
  change (path.Clean ".") with "."%string.
  destruct (String.eqb_spec (join_slash ns) ".") as [E|_].
  { exfalso. rewrite E in Sn. simpl in Sn. rewrite <- Sn in Hns.
    inversion Hns as [|? ? [[Hdot _] _] _]. discriminate. }
  cbn [String.eqb Ascii.eqb Bool.eqb]. rewrite Rn.
  cbn [rooted strings.HasPrefix Bool.eqb negb String.length filepath.rel_loop String.eqb orb].
  reflexivity.
Qed.

End ListingFacts.

(** Induction on trees, with the property for every entry of a
    directory. *)
Lemma node_ind_nested (P : vfs.node -> Prop)
    (HF : forall d, P (vfs.File d))
    (HD : forall es, Forall (fun e => P (snd e)) es -> P (vfs.Dir es))
    : forall n, P n.
Proof.
  exact (fix IH (n : vfs.node) : P n :=
           match n with
           | vfs.File d => HF d
           | vfs.Dir es =>
               HD es
                  ((fix entries (l : list (string * vfs.node))
                      : Forall (fun e => P (snd e)) l :=
                      match l with
                      | [] => Forall_nil _
                      | e :: l' => Forall_cons e (IH (snd e)) (entries l')
                      end) es)
           end).
Qed.

Section WalkFacts.

Local Open Scope list_scope.

(** The directory walked: [.], or a relative path of entry names [D]. *)
Variables (dir : string) (D : list string).
Hypothesis dir_names :
  (dir = "."%string /\ D = [])
  \/ (dir = join_slash D /\ D <> [] /\ Forall entry_name D).

Lemma D_names : Forall entry_name D.
Proof. destruct dir_names as [[_ ->] | (_ & _ & H)]; [constructor | assumption]. Qed.

Lemma walked_Join (ns : list string) (name : string) :
  Forall entry_name ns -> entry_name name ->
  filepath.Join (walked dir D ns) name = walked dir D (ns ++ [name]).
Proof.
  intros Hns Hn. pose proof D_names as HD.
  assert (W : walked dir D (ns ++ [name]) = join_slash (D ++ ns ++ [name])).
  { unfold walked. destruct ns; reflexivity. }
  rewrite W. destruct ns as [|n ns]; cbn [walked].
  - destruct dir_names as [[-> ->] | (-> & Dne & _)].
    + now apply Join_dot.
    + now apply Join_names.
  - rewrite app_assoc. apply Join_names; auto.
    + destruct D; discriminate.
    + apply Forall_app. auto.
Qed.

Lemma walked_Rel (ns : list string) :
  Forall entry_name ns -> ns <> [] ->
  filepath.Rel dir (walked dir D ns) = Ok (join_slash ns)
  /\ join_slash ns <> "."%string.
Proof.
  intros Hns Nne. split.
  - destruct ns as [|n ns]; [congruence|]. cbn [walked].
    destruct dir_names as [[-> ->] | (-> & Dne & HD)].
    + now apply Rel_dot.
    + now apply Rel_names.
  - destruct (names_split _ Nne Hns) as (Sn & _ & _). intros E.
    rewrite E in Sn. simpl in Sn. rewrite <- Sn in Hns.
    inversion Hns as [|? ? [[Hdot _] _] _]. discriminate.
Qed.

(** What the callback of list_files does at a node below the root. *)
Lemma walkFn_below (ns : list string) (n : vfs.node) (files : option (list string)) :
  Forall entry_name ns -> ns <> [] ->
  ListFiles_walkFn dir (walked dir D ns) (Some (filepath.info_of n)) None files
  = (append_slice files (listed ns n), None).
Proof.
  intros Hns Nne. destruct (walked_Rel ns Hns Nne) as [R Hdot].
  unfold ListFiles_walkFn. rewrite R.
  destruct (String.eqb_spec (join_slash ns) "."); [contradiction|].
  cbn [negb filepath.info_of filepath.IsDir]. unfold listed.
  destruct (vfs.IsDir n); [reflexivity | now rewrite append_nil_r].
Qed.

Lemma walkFn_root (n : vfs.node) (files : option (list string)) :
  ListFiles_walkFn dir dir (Some (filepath.info_of n)) None files = (files, None).
Proof. unfold ListFiles_walkFn. rewrite Rel_self. reflexivity. Qed.

Lemma walkFn_at (ns : list string) (n : vfs.node) (files : option (list string)) :
  Forall entry_name ns ->
  ListFiles_walkFn dir (walked dir D ns) (Some (filepath.info_of n)) None files
  = (fold_left append_slice (own ns n) files, None).
Proof.
  intros Hns. destruct ns as [|m ns].
  - apply walkFn_root.
  - rewrite walkFn_below by (auto; discriminate). reflexivity.
Qed.

(** The walk of a tree appends the listing of the tree, in its order. *)
Lemma walk_listing (n : vfs.node) :
  wf_node n ->
  forall ns files,
    Forall entry_name ns ->
    filepath.walk (ListFiles_walkFn dir) (walked dir D ns) n files
    = (fold_left append_slice (own ns n ++ listing ns n) files, None).
Proof.
  induction n as [d|es IH] using node_ind_nested; intros Hwf ns files Hns.
  - cbn [filepath.walk listing]. rewrite app_nil_r. now apply walkFn_at.
  - cbn [filepath.walk]. rewrite walkFn_at by assumption.
    rewrite fold_left_app. generalize (fold_left append_slice (own ns (vfs.Dir es)) files).
    clear files. cbn [listing wf_node] in Hwf |- *.
    induction es as [|[name child] es IHes]; intros files; [reflexivity|].
    inversion IH as [|? ? IHc IHr]; subst. destruct Hwf as (Hname & Hc & Hr).
    cbn [snd] in IHc.
    rewrite walked_Join by assumption.
    rewrite (IHc Hc (ns ++ [name]) files) by (apply Forall_app; auto).
    rewrite (IHes IHr Hr).
    assert (O : own (ns ++ [name]) child = [listed (ns ++ [name]) child])
      by (destruct ns; reflexivity).
    rewrite O. cbn [app fold_left]. now rewrite fold_left_app.
Qed.

End WalkFacts.

Lemma fold_append_slice (l : list string) :
  fold_left append_slice l None = slice_of l.
Proof.
  assert (G : forall l a, fold_left append_slice l (Some a) = Some (a ++ l)%list).
  { clear l. induction l as [|x l IH]; intros a; simpl.
    - now rewrite app_nil_r.
    - rewrite IH, <- app_assoc. reflexivity. }
  destruct l as [|x l]; [reflexivity|]. simpl. now rewrite G.
Qed.

(** X1.  list_files on the directory [.] or on a relative path of names,
    over a tree of well-named entries: the result is the encoding of the
    slice of the listing, [null] when there is nothing to list and
    otherwise the array of the paths of all descendants relative to the
    root, in the order of the walk, directories with a slash. *)
Lemma ListFiles_listing (input : json.RawMessage) (i : ListFilesInput) (w : World)
    (n : vfs.node) (D : list string) :
  Unmarshal_ListFilesInput input = (i, None) ->
  (ListFiles_dir i = "." /\ D = [])
  \/ (ListFiles_dir i = join_slash D /\ D <> [] /\ Forall entry_name D) ->
  vfs.stat (fs w) (ListFiles_dir i) = inr n ->
  wf_node n ->
  ListFiles input w
  = Returned (Ok (json.Marshal_strings (slice_of (listing [] n))))
             (logged w [Syscall "Walk" (ListFiles_dir i)]).
Proof.
  intros Dec HD St Hwf. unfold ListFiles. rewrite Dec. fold (ListFiles_dir i).
  unfold bind, filepath.Walk. rewrite St.
  pose proof (walk_listing (ListFiles_dir i) D HD n Hwf [] None (Forall_nil _)) as Wl.
  cbn [walked own app] in Wl. rewrite Wl, fold_append_slice. reflexivity.
Qed.

Example ListFiles_listing_fixture :
  listing [] (vfs.Dir [("notes.txt", vfs.File "a-b-c"); ("x.go", vfs.File "package x");
                       ("y", vfs.Dir [("z", vfs.File "")])])
  = ["notes.txt"; "x.go"; "y/"; "y/z"].
Proof. reflexivity. Qed.

(** ** Further properties of the tools *)

Lemma ListFiles_listing_witness :
  ListFiles empty_object demo_world
  = Returned
      (Ok (json.Marshal_strings
             (slice_of (listing [] (vfs.Dir [("notes.txt", vfs.File "a-b-c");
                                             ("x.go", vfs.File "package x");
                                             ("y", vfs.Dir [])])))))
      (logged demo_world [Syscall "Walk" (ListFiles_dir (mkListFilesInput ""))]).
Proof.
  apply (ListFiles_listing empty_object (mkListFilesInput "") demo_world
           (vfs.Dir [("notes.txt", vfs.File "a-b-c"); ("x.go", vfs.File "package x");
                     ("y", vfs.Dir [])]) []).
  - reflexivity.
  - left. split; reflexivity.
  - reflexivity.
  - cbn. repeat split.
Defined.

(** X2.  list_files on a path that is a regular file does not fail: the
    callback sees the root only, nothing is appended, and the result is
    the encoding of the nil slice, [null]. *)
Theorem ListFiles_on_regular_file
    (input : json.RawMessage) (i : ListFilesInput) (data : string) (w : World) :
  Unmarshal_ListFilesInput input = (i, None) ->
  vfs.stat (fs w) (ListFiles_dir i) = inr (vfs.File data) ->
  ListFiles input w
  = Returned (Ok "null") (logged w [Syscall "Walk" (ListFiles_dir i)]).
Proof.
  intros D S. unfold ListFiles. rewrite D. fold (ListFiles_dir i).
  unfold bind, filepath.Walk. rewrite S. cbn [filepath.walk].
  unfold ListFiles_walkFn. rewrite Rel_self. reflexivity.
Qed.

Lemma ListFiles_on_regular_file_witness :
  ListFiles (path_request "x.go") demo_world
  = Returned (Ok "null")
             (logged demo_world [Syscall "Walk" (ListFiles_dir (mkListFilesInput "x.go"))]).
Proof.
  apply (ListFiles_on_regular_file (path_request "x.go") (mkListFilesInput "x.go")
           "package x" demo_world); reflexivity.
Defined.

(** X3.  When the root of the walk cannot be looked up, list_files returns
    the error of the lookup, as a path error of the operation lstat, and
    no listing. *)
Theorem ListFiles_missing_root
    (input : json.RawMessage) (i : ListFilesInput) (e : Errno) (w : World) :
  Unmarshal_ListFilesInput input = (i, None) ->
  vfs.stat (fs w) (ListFiles_dir i) = inl e ->
  ListFiles input w
  = Returned (Err (PathError "lstat" (ListFiles_dir i) e))
             (logged w [Syscall "Walk" (ListFiles_dir i)]).
Proof.
  intros D S. unfold ListFiles. rewrite D. fold (ListFiles_dir i).
  unfold bind, filepath.Walk. rewrite S. reflexivity.
Qed.

Lemma ListFiles_missing_root_witness :
  ListFiles (path_request "x.go/sub") demo_world
  = Returned (Err (PathError "lstat" (ListFiles_dir (mkListFilesInput "x.go/sub")) ENOTDIR))
             (logged demo_world
                [Syscall "Walk" (ListFiles_dir (mkListFilesInput "x.go/sub"))]).
Proof.
  apply (ListFiles_missing_root (path_request "x.go/sub") (mkListFilesInput "x.go/sub")
           ENOTDIR demo_world); reflexivity.
Defined.

(** X4.  read_file and list_files leave the file system and the standard
    input as they are, whatever their input is and whether they return or
    panic. *)
Theorem read_only_tools (input : json.RawMessage) (w : World) :
  fs (world_of (ReadFile input w)) = fs w
  /\ stdin (world_of (ReadFile input w)) = stdin w
  /\ fs (world_of (ListFiles input w)) = fs w
  /\ stdin (world_of (ListFiles input w)) = stdin w.
Proof.
  repeat split.
  - unfold ReadFile. destruct (Unmarshal_ReadFileInput input) as [i [err|]]; [reflexivity|].
    unfold bind, os.ReadFile. cbn. destruct (vfs.read _ _); reflexivity.
  - apply quiet_ReadFile.
  - unfold ListFiles. destruct (Unmarshal_ListFilesInput input) as [i [err|]]; [reflexivity|].
    unfold bind, filepath.Walk.
    destruct (vfs.stat _ _) as [e|n].
    + destruct (ListFiles_walkFn _ _ _ _ _) as [files [err|]]; reflexivity.
    + destruct (filepath.walk _ _ _ _) as [files [err|]]; reflexivity.
  - apply quiet_ListFiles.
Qed.

(** read_file, edit_file and createNewFile return. *)
Lemma ReadFile_returns (input : json.RawMessage) (w : World) :
  exists r w', ReadFile input w = Returned r w'.
Proof.
  unfold ReadFile. destruct (Unmarshal_ReadFileInput input) as [i [err|]];
    [unfold ret; eauto|].
  unfold bind, os.ReadFile. destruct (vfs.read _ _); unfold ret; eauto.
Qed.

Lemma createNewFile_returns (p c : string) (w : World) :
  exists r w', createNewFile p c w = Returned r w'.
Proof.
  unfold createNewFile, bind.
  assert (H : exists o w1, (if negb (String.eqb (path.Dir p) ".")
                            then os.MkdirAll (path.Dir p) else ret None) w
                           = Returned o w1).
  { destruct (negb _); [|unfold ret; eauto].
    unfold os.MkdirAll. destruct (vfs.mkdir_all _ _); eauto. }
  destruct H as (o & w1 & ->). destruct o as [e|]; [unfold ret; eauto|].
  unfold os.WriteFile. destruct (vfs.write _ _ _); unfold ret; eauto.
Qed.

Lemma EditFile_returns (input : json.RawMessage) (w : World) :
  exists r w', EditFile input w = Returned r w'.
Proof.
  unfold EditFile. destruct (Unmarshal_EditFileInput input) as [i [err|]];
    [unfold ret; eauto|].
  destruct (_ || _); [unfold ret; eauto|].
  unfold bind, os.ReadFile. destruct (vfs.read _ _) as [c|e].
  - destruct (_ && _); [unfold ret; eauto|].
    unfold os.WriteFile. cbn [fs stdin trace].
    destruct (vfs.write _ _ _); unfold ret; eauto.
  - destruct (_ && _); [apply createNewFile_returns | unfold ret; eauto].
Qed.

(** The search of executeTool among the tools of [main]. *)
Lemma main_find (name : string) :
  find (fun tool => String.eqb (Name tool) name) main_tools
  = if String.eqb "read_file" name then Some ReadFileDefinition
    else if String.eqb "list_files" name then Some ListFilesDefinition
    else if String.eqb "edit_file" name then Some EditFileDefinition
    else None.
Proof. reflexivity. Qed.

Lemma ListFiles_panic (input : json.RawMessage) (w w' : World) (v : error) :
  ListFiles input w = Panicked v w' -> snd (Unmarshal_ListFilesInput input) = Some v.
Proof.
  unfold ListFiles. destruct (Unmarshal_ListFilesInput input) as [i [err|]]; cbn [snd].
  - unfold panic. intros H. injection H as -> _. reflexivity.
  - unfold bind, filepath.Walk. destruct (vfs.stat _ _) as [e|n].
    + destruct (ListFiles_walkFn _ _ _ _ _) as [files [err|]]; discriminate.
    + destruct (filepath.walk _ _ _ _) as [files [err|]]; discriminate.
Qed.



(** X11.  On a path that is a directory, or that leads through a regular
    file, edit_file returns the error of the read and creates nothing,
    also with an empty old_str: only a not-exist error leads to the
    creation of a file. *)
Theorem EditFile_no_creation_on_other_errors
    (input : json.RawMessage) (path old new : string) (w : World) :
  Unmarshal_EditFileInput input = (mkEditFileInput path old new, None) ->
  path <> "" -> old <> new ->
  (exists es, vfs.stat (fs w) path = inr (vfs.Dir es))
  \/ vfs.stat (fs w) path = inl ENOTDIR ->
  exists err,
    EditFile input w = Returned (Err err) (logged w [Syscall "ReadFile" path])
    /\ vfs.read (fs w) path = Err err
    /\ os.IsNotExist err = false.
Proof.
  intros D Hp Hon H. rewrite (EditFile_decoded _ _ _ _ D w Hp Hon).
  unfold vfs.read. destruct H as [[es ->] | ->].
  - exists (PathError "read" path EISDIR). repeat split.
  - exists (PathError "open" path ENOTDIR). repeat split.
Qed.

Lemma EditFile_no_creation_on_other_errors_witness :
  exists err,
    EditFile (edit_request "y" "" "text") demo_world
    = Returned (Err err) (logged demo_world [Syscall "ReadFile" "y"])
    /\ vfs.read (fs demo_world) "y" = Err err
    /\ os.IsNotExist err = false.
Proof.
  apply (EditFile_no_creation_on_other_errors
           (edit_request "y" "" "text") "y" "" "text" demo_world).
  - reflexivity.
  - discriminate.
  - discriminate.
  - left. exists []. reflexivity.
Defined.

(** A field that no member of the object is stored in keeps its value. *)
Lemma decode_members_untouched (ty f : string) (fields : list string)
    (members : list (string * json.Value)) (st : json.Struct) (saved : option error) :
  (forall k v, In (k, v) members -> json.find_field fields k <> Some f) ->
  fst (json.decode_members ty fields members st saved) f = st f.
Proof.
  revert st saved. induction members as [|[k v] rest IH]; intros st saved H; [reflexivity|].
  assert (Hr : forall k' v', In (k', v') rest -> json.find_field fields k' <> Some f)
    by (intros k' v' Hin; apply (H k' v'); now right).
  pose proof (H k v (or_introl eq_refl)) as Hk.
  cbn [json.decode_members]. destruct (json.find_field fields k) as [g|]; [|now apply IH].
  destruct v; try now apply IH.
  rewrite IH by assumption. unfold json.set.
  destruct (String.eqb_spec f g); [congruence | reflexivity].
Qed.

(** X12.  An edit_file input that is a JSON object without members for
    old_str and new_str is rejected before any file access: both fields
    stay empty, hence equal, and the error is "invalid input parameters"
    unless the decoding itself failed. *)
Theorem EditFile_without_old_and_new
    (input : json.RawMessage) (members : list (string * json.Value)) (w : World) :
  json.parsed input = inr (json.Object members) ->
  (forall k v, In (k, v) members ->
     json.find_field ["path"; "old_str"; "new_str"] k <> Some "old_str"
     /\ json.find_field ["path"; "old_str"; "new_str"] k <> Some "new_str") ->
  exists err,
    EditFile input w = Returned (Err err) w
    /\ (snd (Unmarshal_EditFileInput input) = None ->
        err = errorString "invalid input parameters").
Proof.
  intros P H. unfold EditFile, Unmarshal_EditFileInput, json.Unmarshal. rewrite P.
  pose proof (decode_members_untouched "EditFileInput" "old_str"
                ["path"; "old_str"; "new_str"] members json.zero None
                (fun k v Hin => proj1 (H k v Hin))) as Ho.
  pose proof (decode_members_untouched "EditFileInput" "new_str"
                ["path"; "old_str"; "new_str"] members json.zero None
                (fun k v Hin => proj2 (H k v Hin))) as Hn.
  destruct (json.decode_members _ _ members json.zero None) as [st [err|]];
    cbn [fst snd] in *.
  - exists err. split; [reflexivity | discriminate].
  - exists (errorString "invalid input parameters"). split; [|reflexivity].
    cbn [Path OldStr NewStr]. rewrite Ho, Hn. unfold json.zero. cbn [String.eqb].
    rewrite orb_true_r. reflexivity.
Qed.

Lemma EditFile_without_old_and_new_witness :
  exists err,
    EditFile (path_request "notes.txt") demo_world = Returned (Err err) demo_world
    /\ (snd (Unmarshal_EditFileInput (path_request "notes.txt")) = None ->
        err = errorString "invalid input parameters").
Proof.
  apply (EditFile_without_old_and_new (path_request "notes.txt")
           [("path", json.Str "notes.txt")] demo_world).
  - reflexivity.
  - intros k v [E | []]. injection E as <- <-. split; discriminate.
Defined.

(** ** Other files are left alone *)

Section Frame.

Local Open Scope list_scope.

(** Overwriting or creating a file changes the kind of no location that
    had a node. *)
Lemma put_file_extends (parent : vfs.loc) (name data : string) (r : vfs.node)
    (es : list (string * vfs.node)) :
  vfs.node_at r parent = Some (vfs.Dir es) ->
  (forall es', vfs.lookup name es <> Some (vfs.Dir es')) ->
  extends r (vfs.put (parent ++ [name]) (vfs.File data) r).
Proof.
  intros N Hold x Hx.
  destruct (list_eq_dec string_dec x (parent ++ [name])) as [->|Hne].
  - unfold kind_at in *. rewrite (node_at_put _ _ _ _ _ N).
    rewrite node_at_app, N in *. simpl in *.
    destruct (vfs.lookup name es) as [[d|es']|] eqn:L; simpl in *; congruence.
  - eapply kind_at_put; eauto; [|exact I].
    destruct (vfs.lookup name es) as [[d|es']|]; simpl; auto. now elim (Hold es').
Qed.

(** A file at another location keeps its content. *)
Lemma node_at_put_other (parent : vfs.loc) (name data content : string) (r : vfs.node)
    (es : list (string * vfs.node)) (x : vfs.loc) :
  vfs.node_at r parent = Some (vfs.Dir es) ->
  (forall es', vfs.lookup name es <> Some (vfs.Dir es')) ->
  vfs.node_at r x = Some (vfs.File content) ->
  x <> parent ++ [name] ->
  vfs.node_at (vfs.put (parent ++ [name]) (vfs.File data) r) x = Some (vfs.File content).
Proof.
  revert r x. induction parent as [|p ps IH]; intros r x N Hold Hx Hne.
  - simpl in N. injection N as ->. simpl.
    assert (E : match vfs.lookup name es with
                | Some c => vfs.Dir (vfs.upsert name (vfs.File data) es)
                | None => vfs.Dir (vfs.upsert name (vfs.File data) es)
                end = vfs.Dir (vfs.upsert name (vfs.File data) es))
      by now destruct (vfs.lookup name es).
    rewrite E. clear E. destruct x as [|y ys]; [discriminate|].
    simpl in Hx |- *. rewrite lookup_upsert.
    destruct (String.eqb_spec name y) as [->|Hy]; [|exact Hx].
    destruct ys as [|z zs]; [now elim Hne|]. exfalso.
    destruct (vfs.lookup y es) as [[d|es']|]; try discriminate.
    now elim (Hold es').
  - simpl in N. destruct r as [d|es0]; [discriminate|].
    destruct (vfs.lookup p es0) as [c|] eqn:L; [|discriminate].
    simpl. rewrite L. destruct x as [|y ys]; [discriminate|].
    simpl in Hx |- *. rewrite lookup_upsert.
    destruct (String.eqb_spec p y) as [->|Hy]; [|exact Hx].
    rewrite L in Hx. apply IH; auto. intros ->. now apply Hne.
Qed.

(** Writing to an existing file leaves every file that resolves to
    another location as it is. *)
Lemma write_other (fs0 fs1 : vfs.FileSystem) (p q data content c : string) :
  vfs.write fs0 p data = inr fs1 ->
  vfs.read fs0 p = Ok content ->
  vfs.read fs0 q = Ok c ->
  vfs.namei fs0 q <> vfs.namei fs0 p ->
  vfs.read fs1 q = Ok c.
Proof.
  intros Wr Rp Rq Hne.
  apply write_inv in Wr as (parent & es & name & Hp & Hname & W & N & [D1 D2] & Hold & ->).
  assert (Np : vfs.namei fs0 p = inr (parent ++ [name])).
  { apply read_inv in Rp as (parent' & es' & _ & W' & N' & _ & L).
    rewrite W in W'. injection W' as <-. rewrite N in N'. injection N' as <-.
    unfold vfs.namei. destruct (String.eqb_spec p ""); [contradiction|].
    rewrite split_slash_last, walk_elems_app, W, <- Hname. simpl.
    rewrite N, D1, D2. rewrite <- Hname in L. now rewrite L. }
  rewrite Np in Hne.
  unfold vfs.read, vfs.stat in Rq |- *.
  destruct (vfs.namei fs0 q) as [e|lq] eqn:Nq; [discriminate|].
  destruct (vfs.node_at (vfs.root fs0) lq) as [[d|es']|] eqn:Nl; try discriminate.
  injection Rq as ->.
  assert (Nq' : vfs.namei (vfs.mkFS (vfs.put (parent ++ [name]) (vfs.File data)
                                             (vfs.root fs0)) (vfs.cwd fs0)) q
                = inr lq).
  { unfold vfs.namei, vfs.start in Nq |- *. cbn [vfs.root vfs.cwd].
    destruct (String.eqb q ""); [discriminate|].
    eapply walk_elems_extends; [|exact Nq]. eapply put_file_extends; eauto. }
  rewrite Nq'. cbn [vfs.root].
  rewrite (node_at_put_other parent name data c _ es lq N Hold Nl); [reflexivity|].
  intros E. apply Hne. now rewrite E.
Qed.

End Frame.

(** X13.  edit_file on an existing file leaves the content of every other
    file as it is: a path that reads as a file and does not resolve to the
    location of the edited one reads the same after the call, whatever the
    call returns. *)
Theorem EditFile_leaves_other_files
    (input : json.RawMessage) (path old new content q c : string) (w : World) :
  Unmarshal_EditFileInput input = (mkEditFileInput path old new, None) ->
  vfs.read (fs w) path = Ok content ->
  vfs.read (fs w) q = Ok c ->
  vfs.namei (fs w) q <> vfs.namei (fs w) path ->
  vfs.read (fs (world_of (EditFile input w))) q = Ok c.
Proof.
  intros D Rp Rq Hne.
  destruct (String.eqb_spec old new) as [Hon|Hon].
  { unfold EditFile. rewrite D. cbn [Path OldStr NewStr].
    subst. rewrite String.eqb_refl, orb_true_r. exact Rq. }
  rewrite (EditFile_decoded _ _ _ _ D w (read_nonempty _ _ _ Rp) Hon), Rp. cbv zeta.
  destruct (_ && _); [exact Rq|].
  destruct (vfs.write (fs w) path _) as [e|fs'] eqn:Wr; [exact Rq|].
  cbn [world_of fs]. eapply write_other; eauto.
Qed.

Lemma EditFile_leaves_other_files_witness :
  vfs.read (fs (world_of (EditFile (edit_request "notes.txt" "-" "+") demo_world))) "x.go"
  = Ok "package x".
Proof.
  apply (EditFile_leaves_other_files
           (edit_request "notes.txt" "-" "+") "notes.txt" "-" "+" "a-b-c" "x.go"
           "package x" demo_world).
  - reflexivity.
  - reflexivity.
  - reflexivity.
  - discriminate.
Defined.

(** ** Creation is not repeatable *)

Lemma insert_at_boundaries_grows (new : string) :
  new <> "" -> insert_at_boundaries new new <> new.
Proof.
  intros Hn E. unfold insert_at_boundaries in E.
  assert (E' : (new ++ flatten (map (fun r => r ++ new) (utf8.runes new)))%string
               = (new ++ "")%string) by (rewrite append_nil_r; exact E).
  clear E. apply append_inv_head in E'. rename E' into E.
  destruct new as [|c s]; [congruence|].
  unfold utf8.runes in E. cbn [String.length utf8.runes_fuel map flatten] in E.
  apply (f_equal String.length) in E. rewrite !length_append in E.
  cbn [String.length] in E. lia.
Qed.

(** X14.  The creation call is not repeatable: once a call of edit_file
    with an empty old_str has reported the creation of the file, the file
    holds new_str, and the same call on the file that now exists succeeds
    with "OK" and rewrites it with new_str put at every rune boundary of
    new_str, which differs from new_str. *)
Theorem EditFile_creation_repeated
    (input : json.RawMessage) (path new : string) (w w1 : World) :
  Unmarshal_EditFileInput input = (mkEditFileInput path "" new, None) ->
  EditFile input w = Returned (Ok ("Successfully created file " ++ path)) w1 ->
  vfs.read (fs w1) path = Ok new
  /\ exists w2,
       EditFile input w1 = Returned (Ok "OK") w2
       /\ vfs.read (fs w2) path = Ok (insert_at_boundaries new new)
       /\ insert_at_boundaries new new <> new.
Proof.
  intros D H.
  destruct (EditFile_created _ _ _ _ _ D H) as (Hp & Hnew & R1).
  assert (Hon : "" <> new) by congruence.
  destruct (write_existing _ _ _ (insert_at_boundaries new new) R1) as [fs3 Wr].
  split; [exact R1|]. eexists. split; [|split].
  - rewrite (EditFile_decoded _ _ _ _ D w1 Hp Hon), R1. cbv zeta.
    cbn [String.eqb negb]. rewrite andb_false_r.
    rewrite (Replace_empty _ _ Hnew), Wr. reflexivity.
  - cbn [fs]. now apply read_after_write in Wr.
  - now apply insert_at_boundaries_grows.
Qed.

Lemma EditFile_creation_repeated_witness :
  vfs.read (fs (world_of (EditFile (edit_request "/empty/new/x.txt" "" "hi") demo_world)))
           "/empty/new/x.txt" = Ok "hi"
  /\ exists w2,
       EditFile (edit_request "/empty/new/x.txt" "" "hi")
                (world_of (EditFile (edit_request "/empty/new/x.txt" "" "hi") demo_world))
       = Returned (Ok "OK") w2
       /\ vfs.read (fs w2) "/empty/new/x.txt" = Ok (insert_at_boundaries "hi" "hi")
       /\ insert_at_boundaries "hi" "hi" <> "hi".
Proof.
  apply (EditFile_creation_repeated
           (edit_request "/empty/new/x.txt" "" "hi") "/empty/new/x.txt" "hi" demo_world
           (world_of (EditFile (edit_request "/empty/new/x.txt" "" "hi") demo_world))).
  - reflexivity.
  - reflexivity.
Defined.

(** ** Further properties of the loop *)

(** X6.  processClaudeResponse, when it returns, returns one tool result
    for each tool_use block of the reply and nothing else: the results
    carry the ids of the blocks, in the order of the blocks; text blocks
    and blocks of other types produce none. *)
Theorem processClaudeResponse_answers_each_tool_use
    (a : Agent) (message : anthropic.Message)
    (rs : list anthropic.ContentBlockParamUnion) (w w' : World) :
  processClaudeResponse a message w = Returned rs w' ->
  Forall2 (fun (c : anthropic.ContentBlockUnion) r =>
             exists text isError,
               r = anthropic.OfToolResult (anthropic.ID c) text isError)
          (filter (fun c => String.eqb (anthropic.Kind c) "tool_use")
                  (anthropic.Content message))
          rs.
Proof.
  intros H. apply processContent_ids in H as (new & -> & F). exact F.
Qed.

Lemma processClaudeResponse_answers_each_tool_use_witness :
  Forall2 (fun (c : anthropic.ContentBlockUnion) r =>
             exists text isError,
               r = anthropic.OfToolResult (anthropic.ID c) text isError)
          (filter (fun c => String.eqb (anthropic.Kind c) "tool_use")
                  (anthropic.Content
                     (anthropic.mkMessage
                        [anthropic.mkBlock "text" "Let me look." "" "" empty_object;
                         anthropic.mkBlock "tool_use" "" "toolu_1" "list_files" empty_object;
                         anthropic.mkBlock "tool_use" "" "toolu_2" "no_such_tool"
                                           empty_object])))
          [anthropic.OfToolResult "toolu_1"
             (json.Marshal_strings (Some ["notes.txt"; "x.go"; "y/"])) false;
           anthropic.OfToolResult "toolu_2" "tool not found" true].
Proof.
  apply (processClaudeResponse_answers_each_tool_use
           scenario_agent
           (anthropic.mkMessage
              [anthropic.mkBlock "text" "Let me look." "" "" empty_object;
               anthropic.mkBlock "tool_use" "" "toolu_1" "list_files" empty_object;
               anthropic.mkBlock "tool_use" "" "toolu_2" "no_such_tool" empty_object])
           _ demo_world
           (world_of (processClaudeResponse scenario_agent
                        (anthropic.mkMessage
                           [anthropic.mkBlock "text" "Let me look." "" "" empty_object;
                            anthropic.mkBlock "tool_use" "" "toolu_1" "list_files"
                                              empty_object;
                            anthropic.mkBlock "tool_use" "" "toolu_2" "no_such_tool"
                                              empty_object])
                        demo_world))).
  reflexivity.
Defined.

Lemma main_exits_on_first_inference_error_witness :
  main 1 (failing_client overloaded) (mkWorld demo_fs ["hello"; "again"] [])
  = Some (1, mkWorld demo_fs ["again"]
               [Stdout ("Chat with Claude (use 'ctrl-c' to quit)" ++ LF);
                Stdout prompt;
                StdinRead (Some "hello");
                Inference [anthropic.NewUserMessage [anthropic.NewTextBlock "hello"]]
                          ["read_file"; "list_files"; "edit_file"];
                Stdout ("Error: " ++ Error overloaded ++ LF)]).
Proof.
  apply (main_exits_on_first_inference_error
           (failing_client overloaded) overloaded "hello" ["again"] demo_fs 0).
  reflexivity.
Defined.

Section TextOnly.

Local Open Scope list_scope.

Variable a : Agent.
Hypothesis scanner_input : getUserMessage a = scanner_getUserMessage.

Lemma inference_conversations_app (e1 e2 : list Event) :
  inference_conversations (e1 ++ e2)
  = inference_conversations e1 ++ inference_conversations e2.
Proof.
  induction e1 as [|ev e1 IH]; [reflexivity|].
  destruct ev; simpl; rewrite IH; reflexivity.
Qed.

Lemma stdin_reads_app (e1 e2 : list Event) :
  stdin_reads (e1 ++ e2) = stdin_reads e1 + stdin_reads e2.
Proof.
  induction e1 as [|ev e1 IH]; [reflexivity|].
  destruct ev; simpl; rewrite IH; reflexivity.
Qed.

Lemma stdout_only (evs : list Event) :
  Forall is_stdout evs -> inference_conversations evs = [] /\ stdin_reads evs = 0.
Proof.
  induction 1 as [|ev evs H _ [IH1 IH2]]; [auto|].
  destruct ev; try contradiction. auto.
Qed.

(** A reply without tool_use blocks is only printed. *)
Lemma processContent_text_only (content : list anthropic.ContentBlockUnion)
    (acc : list anthropic.ContentBlockParamUnion) (w : World) :
  Forall (fun c => String.eqb (anthropic.Kind c) "tool_use" = false) content ->
  exists evs,
    processContent a content acc w = Returned acc (logged w evs)
    /\ Forall is_stdout evs.
Proof.
  intros H. revert w. induction H as [|c rest Hc _ IH]; intros w.
  - exists []. unfold logged. rewrite app_nil_r. destruct w. split; [reflexivity | constructor].
  - cbn [processContent]. rewrite Hc.
    destruct (String.eqb (anthropic.Kind c) "text").
    + unfold bind, Print, emit.
      destruct (IH (mkWorld (fs w) (stdin w)
                      (trace w ++ [Stdout (ESC ++ "[93mClaude" ++ ESC ++ "[0m: "
                                              ++ anthropic.Text c ++ LF)])))
        as (evs & E & F).
      eexists (_ :: evs). rewrite E. unfold logged. cbn [fs stdin trace].
      rewrite <- app_assoc. split; [reflexivity|]. constructor; [exact I | assumption].
    + apply IH.
Qed.

End TextOnly.

Lemma Run_loop_S (fuel : nat) (a : Agent) (conversation : list anthropic.MessageParam)
    (readUserInput : bool) (w : World) :
  Run_loop (S fuel) a conversation readUserInput w
  = match Run_body a conversation readUserInput w with
    | Returned (Continue conversation' readUserInput') w' =>
        Run_loop fuel a conversation' readUserInput' w'
    | Returned Break w' => Some (Returned None w')
    | Returned (Return err) w' => Some (Returned (Some err) w')
    | Panicked v w' => Some (Panicked v w')
    end.
Proof. reflexivity. Qed.

(** X7.  When the service answers every request with a reply without
    tool_use blocks, the loop of [Run] reads each line of the standard
    input once, calls the service once per line, each time with the
    conversation grown by two messages (the k-th call carries 2k-1
    messages more than the loop started with), returns nil at the end of
    the input within one pass per line and one more, and leaves the file
    system as it was. *)
Theorem Run_loop_without_tools
    (a : Agent) (lines : list string) (conversation : list anthropic.MessageParam)
    (w : World) :
  getUserMessage a = scanner_getUserMessage ->
  (forall c, exists m,
      client a c (convertToolsToAnthropicFormat a) = Ok m /\ text_only m) ->
  stdin w = lines ->
  exists evs,
    Run_loop (S (List.length lines)) a conversation true w
    = Some (Returned None (mkWorld (fs w) [] (trace w ++ evs)%list))
    /\ map (@List.length _) (inference_conversations evs)
       = map (fun k => List.length conversation + 1 + 2 * k) (seq 0 (List.length lines))
    /\ stdin_reads evs = S (List.length lines).
Proof.
  intros Hs Hc. revert conversation w.
  induction lines as [|line rest IH]; intros conversation w Hin.
  - exists [Stdout prompt; StdinRead None].
    cbn [List.length]. rewrite Run_loop_S, (Run_body_true a Hs), Hin.
    unfold logged. rewrite Hin. repeat split.
  - cbn [List.length]. rewrite Run_loop_S, (Run_body_true a Hs), Hin.
    rewrite Run_body_false. cbv zeta.
    destruct (Hc (conversation ++ [anthropic.NewUserMessage [anthropic.NewTextBlock line]])%list)
      as (m & -> & Hm).
    unfold processClaudeResponse.
    match goal with
    | |- context [processContent a _ [] ?w0] =>
        destruct (processContent_text_only a (anthropic.Content m) [] w0 Hm)
          as (evs1 & -> & F1)
    end.
    cbn [List.length Nat.ltb Nat.leb].
    match goal with
    | |- context [Run_loop _ a ?c true ?w1] =>
        destruct (IH c w1 eq_refl) as (evs2 & E2 & L2 & R2)
    end.
    cbn [logged fs stdin trace] in E2 |- *.
    eexists. split.
    + rewrite E2. rewrite <- !app_assoc. cbn [app]. reflexivity.
    + destruct (stdout_only _ F1) as [I1 S1].
      cbn [inference_conversations stdin_reads].
      rewrite !inference_conversations_app, !stdin_reads_app, I1, S1.
      cbn [app map seq plus]. rewrite L2, R2. split; [|reflexivity].
      rewrite !length_app. cbn [List.length]. f_equal; [lia|].
      rewrite <- seq_shift, map_map. apply map_ext. intros k. lia.
Qed.

Lemma Run_loop_without_tools_witness :
  exists evs,
    Run_loop 3
      (main_agent (fun _ _ => Ok (text_reply "done"))) []
      true (mkWorld demo_fs ["one"; "two"] [])
    = Some (Returned None (mkWorld demo_fs [] ([] ++ evs)%list))
    /\ map (@List.length _) (inference_conversations evs)
       = map (fun k => 0 + 1 + 2 * k) (seq 0 2)
    /\ stdin_reads evs = 3.
Proof.
  apply (Run_loop_without_tools
           (main_agent (fun _ _ => Ok (text_reply "done"))) ["one"; "two"] []
           (mkWorld demo_fs ["one"; "two"] [])).
  - reflexivity.
  - intros c. exists (text_reply "done"). split; [reflexivity|].
    repeat constructor.
  - reflexivity.
Defined.

(** ** The chat-only program *)

(** X9.  In the chat-only program a failure of the inference call whose
    text contains "overloaded_error" is reported on the standard output
    and the loop goes on; the user message that was not answered stays in
    the conversation.  Any other failure is returned, and ends the
    loop. *)
Theorem Chat_Run_body_on_inference_error
    (a : Chat.Agent) (conversation : list anthropic.MessageParam)
    (line : string) (rest : list string) (err : error) (w : World) :
  Chat.getUserMessage a = scanner_getUserMessage ->
  stdin w = line :: rest ->
  Chat.client a (conversation ++ [user_line line])%list = Err err ->
  Chat.Run_body a conversation w
  = if strings.Contains (Error err) "overloaded_error" then
      Returned (Continue (conversation ++ [user_line line])%list true)
        (mkWorld (fs w) rest
           (trace w ++ [Stdout prompt; StdinRead (Some line);
                        Inference (conversation ++ [user_line line])%list [];
                        Stdout sorry_overloaded])%list)
    else
      Returned (Return err)
        (mkWorld (fs w) rest
           (trace w ++ [Stdout prompt; StdinRead (Some line);
                        Inference (conversation ++ [user_line line])%list []])%list).
Proof.
  intros Hs Hin Hc. unfold Chat.Run_body. rewrite Hs. fold prompt.
  unfold bind, Print, emit, scanner_getUserMessage. cbn [fs stdin trace]. rewrite Hin.
  cbn [negb]. unfold Chat.runInference, bind, emit, ret. cbn [fs stdin trace].
  fold (user_line line). rewrite Hc.
  destruct (strings.Contains (Error err) "overloaded_error");
    cbn [fs stdin trace]; rewrite <- !app_assoc; reflexivity.
Qed.

Lemma Chat_Run_body_on_inference_error_witness :
  Chat.Run_body (Chat.mkAgent (fun _ => Err overloaded) scanner_getUserMessage) []
                (mkWorld demo_fs ["hello"] [])
  = if strings.Contains (Error overloaded) "overloaded_error" then
      Returned (Continue ([] ++ [user_line "hello"])%list true)
        (mkWorld demo_fs []
           ([] ++ [Stdout prompt; StdinRead (Some "hello");
                   Inference ([] ++ [user_line "hello"])%list [];
                   Stdout sorry_overloaded])%list)
    else
      Returned (Return overloaded)
        (mkWorld demo_fs []
           ([] ++ [Stdout prompt; StdinRead (Some "hello");
                   Inference ([] ++ [user_line "hello"])%list []])%list).
Proof.
  apply (Chat_Run_body_on_inference_error
           (Chat.mkAgent (fun _ => Err overloaded) scanner_getUserMessage) []
           "hello" [] overloaded (mkWorld demo_fs ["hello"] [])); reflexivity.
Defined.

Lemma Chat_printContent_fs (content : list anthropic.ContentBlockUnion) (w : World) :
  exists w', Chat.printContent content w = Returned tt w' /\ fs w' = fs w.
Proof.
  revert w. induction content as [|c rest IH]; intros w; cbn [Chat.printContent].
  - exists w. split; reflexivity.
  - destruct (String.eqb (anthropic.Kind c) "text"); [|apply IH].
    unfold bind, Print, emit.
    destruct (IH (mkWorld (fs w) (stdin w)
                    (trace w ++ [Stdout (ESC ++ "[93mClaude" ++ ESC ++ "[0m: "
                                            ++ anthropic.Text c ++ LF)])%list))
      as (w' & -> & F).
    exists w'. split; [reflexivity | exact F].
Qed.

Lemma Chat_Run_body_fs (a : Chat.Agent) (conversation : list anthropic.MessageParam)
    (w : World) :
  Chat.getUserMessage a = scanner_getUserMessage ->
  fs (world_of (Chat.Run_body a conversation w)) = fs w.
Proof.
  intros Hs. unfold Chat.Run_body. rewrite Hs.
  unfold bind, Print, emit, scanner_getUserMessage. cbn [fs stdin trace].
  destruct (stdin w) as [|line rest]; [reflexivity|]. cbn [negb].
  unfold Chat.runInference, bind, emit, ret. cbn [fs stdin trace].
  destruct (Chat.client a _) as [m|err].
  - match goal with
    | |- context [Chat.printContent ?c ?w0] =>
        destruct (Chat_printContent_fs c w0) as (w' & -> & F)
    end.
    exact F.
  - destruct (strings.Contains _ _); reflexivity.
Qed.

(** X10.  The chat-only program never changes the file system, whatever
    the service replies: tool_use blocks of a reply are not executed. *)
Theorem Chat_Run_preserves_file_system
    (a : Chat.Agent) (fuel : nat) (w : World) (o : Outcome (option error)) :
  Chat.getUserMessage a = scanner_getUserMessage ->
  Chat.Run fuel a w = Some o ->
  fs (world_of o) = fs w.
Proof.
  intros Hs. unfold Chat.Run, Print, emit.
  assert (L : forall fuel conversation w0 o0,
             Chat.Run_loop fuel a conversation w0 = Some o0 -> fs (world_of o0) = fs w0).
  { clear fuel w o. induction fuel as [|fuel IH]; intros conversation w0 o0 H; [discriminate|].
    cbn [Chat.Run_loop] in H. pose proof (Chat_Run_body_fs a conversation w0 Hs) as F.
    destruct (Chat.Run_body a conversation w0) as [[c r| |err] w1|v w1]; cbn [world_of] in F.
    - rewrite <- F. eapply IH; eauto.
    - injection H as <-. exact F.
    - injection H as <-. exact F.
    - injection H as <-. exact F. }
  intros H. apply L in H. exact H.
Qed.

Lemma Chat_Run_preserves_file_system_witness :
  exists o,
    Chat.Run 2
      (Chat.mkAgent
         (fun _ => Ok (tool_use_reply "toolu_1" "edit_file"
                         (edit_request "notes.txt" "-" "+")))
         scanner_getUserMessage)
      (mkWorld demo_fs ["go"] []) = Some o
    /\ fs (world_of o) = demo_fs.
Proof.
  eexists. split.
  - reflexivity.
  - apply (Chat_Run_preserves_file_system
             (Chat.mkAgent
                (fun _ => Ok (tool_use_reply "toolu_1" "edit_file"
                                (edit_request "notes.txt" "-" "+")))
                scanner_getUserMessage)
             2 (mkWorld demo_fs ["go"] [])); reflexivity.
Defined.

(** ** The start of the process *)

Section Startup.

Lemma split_byte_nonempty (sep : ascii) (s : string) : split_byte sep s <> [].
Proof.
  destruct s as [|c s]; cbn [split_byte]; [discriminate|].
  destruct (Ascii.eqb c sep); [discriminate|].
  destruct (split_byte sep s); discriminate.
Qed.

Lemma split_byte_app_sep (sep : ascii) (a b : string) :
  split_byte sep a = [a] ->
  split_byte sep (a ++ String sep b) = a :: split_byte sep b.
Proof.
  induction a as [|c a IH]; intros H.
  - cbn [append split_byte]. now rewrite Ascii.eqb_refl.
  - cbn [append split_byte] in *. destruct (Ascii.eqb c sep); [discriminate|].
    assert (Ha : split_byte sep a = [a]).
    { pose proof (split_byte_nonempty sep a) as N.
      destruct (split_byte sep a) as [|h t]; [congruence|].
      injection H as -> ->. reflexivity. }
    now rewrite (IH Ha).
Qed.

Lemma split_join_lines (lines : list string) :
  lines <> [] -> Forall one_line lines ->
  split_byte nl (join_lines lines) = lines.
Proof.
  induction lines as [|l rest IH]; intros N F; [congruence|].
  inversion F as [|? ? Hl Hrest]; subst.
  destruct rest as [|l' rest'].
  - exact Hl.
  - change (join_lines (l :: l' :: rest'))
      with (l ++ String nl (join_lines (l' :: rest'))).
    rewrite (split_byte_app_sep _ _ _ Hl), IH; [reflexivity | discriminate | exact Hrest].
Qed.

Lemma key_of_lines_app (before : list string) (line : string) (after : list string) :
  Forall (fun l => strings.HasPrefix l "ANTHROPIC_API_KEY=" = false) before ->
  strings.HasPrefix line "ANTHROPIC_API_KEY=" = true ->
  key_of_lines (before ++ line :: after) = Some (TrimPrefix line "ANTHROPIC_API_KEY=").
Proof.
  intros F P. induction F as [|l before Hl F IH]; cbn [app key_of_lines].
  - now rewrite P.
  - now rewrite Hl.
Qed.

Lemma scan_lines_key_of_lines (apiKey : string) (lines : list string) :
  ChatMain.scan_lines apiKey lines
  = match key_of_lines lines with Some k => k | None => apiKey end.
Proof.
  induction lines as [|l rest IH]; cbn [ChatMain.scan_lines key_of_lines]; [reflexivity|].
  destruct (strings.HasPrefix l "ANTHROPIC_API_KEY="); [reflexivity | exact IH].
Qed.

Lemma length_nonempty (s : string) : (0 < String.length s)%nat -> String.eqb s "" = false.
Proof. destruct s; cbn; [lia | reflexivity]. Qed.

Lemma nonempty_eqb (s : string) : s <> "" -> String.eqb s "" = false.
Proof. intros N. apply String.eqb_neq. exact N. Qed.

End Startup.

(** X15.  With the variable ANTHROPIC_API_KEY set to a key of twenty
    bytes or more, [initializeClient] does not read config.env: it prints
    one line with the first twenty bytes of the key, leaves every variable
    of the environment as it was, and builds the client from that key. *)
Theorem initializeClient_key_from_environment
    (connect : string -> Client) (env : Env) (w : World) :
  (20 <= String.length (env KEY))%nat ->
  exists env',
    initializeClient connect env w
    = Returned (Ok (connect (env KEY)), env')
        (logged w [Stdout ("API Key loaded: " ++ slice_to 20 (env KEY) ++ "..." ++ LF)])
    /\ forall k, env' k = env k.
Proof.
  intros L. exists (Setenv env KEY (env KEY)).
  assert (E : String.eqb (env KEY) "" = false) by (apply length_nonempty; lia).
  assert (S : forall k, Setenv env KEY (env KEY) k = env k).
  { intros k. unfold Setenv.
    destruct (String.eqb KEY "" || has_byte "="%char KEY || has_byte zero KEY
              || has_byte zero (env KEY)); [reflexivity|].
    destruct (String.eqb k KEY) eqn:K; [|reflexivity].
    apply String.eqb_eq in K. now subst k. }
  split; [|exact S].
  unfold initializeClient, loadAPIKey, bind, ret, Print, emit, logged.
  rewrite E. cbn [negb]. rewrite E.
  assert (B : (String.length (env KEY) <? 20)%nat = false) by (apply Nat.ltb_ge; lia).
  rewrite B, S. reflexivity.
Qed.

Lemma initializeClient_key_from_environment_witness :
  exists env',
    initializeClient (fun _ => failing_client overloaded)
      (fun k => if String.eqb k KEY then "sk-ant-api03-0123456789" else "") demo_world
    = Returned (Ok (failing_client overloaded), env')
        (logged demo_world
           [Stdout ("API Key loaded: " ++ slice_to 20 "sk-ant-api03-0123456789" ++ "..." ++ LF)])
    /\ forall k, env' k = (if String.eqb k KEY then "sk-ant-api03-0123456789" else "").
Proof.
  apply (initializeClient_key_from_environment (fun _ => failing_client overloaded)
           (fun k => if String.eqb k KEY then "sk-ant-api03-0123456789" else "") demo_world).
  simpl. lia.
Defined.

(** X16.  Without the variable, [loadAPIKey] reads config.env and returns
    what follows ANTHROPIC_API_KEY= on the first line that starts with it,
    byte for byte: later lines, also later lines with the prefix, are not
    looked at, and nothing is printed. *)
Theorem loadAPIKey_from_config
    (env : Env) (w : World) (before after : list string) (value : string) :
  env KEY = "" ->
  vfs.read (fs w) "config.env"
  = Ok (join_lines (before ++ ("ANTHROPIC_API_KEY=" ++ value) :: after)) ->
  Forall one_line (before ++ ("ANTHROPIC_API_KEY=" ++ value) :: after) ->
  Forall (fun l => strings.HasPrefix l "ANTHROPIC_API_KEY=" = false) before ->
  loadAPIKey env w = Returned value (logged w [Syscall "ReadFile" "config.env"]).
Proof.
  intros E R F P. unfold loadAPIKey, bind, ret, os.ReadFile, logged.
  rewrite E. cbn [String.eqb negb fs stdin trace]. rewrite R.
  change (ascii_of_N 10) with nl.
  rewrite split_join_lines; [| now destruct before | exact F].
  rewrite (key_of_lines_app before ("ANTHROPIC_API_KEY=" ++ value) after P
             (HasPrefix_append "ANTHROPIC_API_KEY=" value)).
  unfold TrimPrefix. rewrite HasPrefix_append, slice_from_append. reflexivity.
Qed.

Lemma loadAPIKey_from_config_witness :
  loadAPIKey no_env
    (config_world (join_lines (["# keys"; "OTHER=1"]
                               ++ ("ANTHROPIC_API_KEY=" ++ "sk-ant-api03-0123456789")
                               :: ["ANTHROPIC_API_KEY=second"; ""])))
  = Returned "sk-ant-api03-0123456789"
      (logged (config_world (join_lines (["# keys"; "OTHER=1"]
                               ++ ("ANTHROPIC_API_KEY=" ++ "sk-ant-api03-0123456789")
                               :: ["ANTHROPIC_API_KEY=second"; ""])))
         [Syscall "ReadFile" "config.env"]).
Proof.
  apply (loadAPIKey_from_config no_env
           (config_world (join_lines (["# keys"; "OTHER=1"]
                               ++ ("ANTHROPIC_API_KEY=" ++ "sk-ant-api03-0123456789")
                               :: ["ANTHROPIC_API_KEY=second"; ""])))
           ["# keys"; "OTHER=1"] ["ANTHROPIC_API_KEY=second"; ""]
           "sk-ant-api03-0123456789").
  - reflexivity.
  - reflexivity.
  - repeat constructor.
  - repeat constructor.
Defined.

(** X17.  Without a key, neither in the environment nor on a line of a
    readable config.env, the program of main.go prints the four lines of
    advice, then the error line, and exits with status 1: it reads nothing
    from the standard input and calls the service not at all. *)
Theorem main_from_env_without_key
    (fuel : nat) (connect : string -> Client) (env : Env) (w : World) :
  env KEY = "" ->
  match vfs.read (fs w) "config.env" with
  | Ok data => key_of_lines (split_byte nl data) = None
  | Err _ => True
  end ->
  main_from_env fuel connect env w
  = Some (1, logged w (Syscall "ReadFile" "config.env"
                         :: remediation
                         ++ [Stdout ("Error: ANTHROPIC_API_KEY is required" ++ LF)])).
Proof.
  intros E H.
  unfold main_from_env, initializeClient, loadAPIKey, bind, ret, os.ReadFile, logged,
    Println, Print, emit, remediation.
  rewrite E. cbn [String.eqb negb fs stdin trace]. change (ascii_of_N 10) with nl.
  destruct (vfs.read (fs w) "config.env") as [data|e].
  - rewrite H. cbn [String.eqb fs stdin trace Error app]. rewrite <- !app_assoc. reflexivity.
  - cbn [String.eqb fs stdin trace Error app]. rewrite <- !app_assoc. reflexivity.
Qed.

Lemma main_from_env_without_key_witness :
  main_from_env 5 (fun _ => failing_client overloaded) no_env
    (mkWorld demo_fs ["hello"] [])
  = Some (1, logged (mkWorld demo_fs ["hello"] [])
               (Syscall "ReadFile" "config.env"
                  :: remediation
                  ++ [Stdout ("Error: ANTHROPIC_API_KEY is required" ++ LF)])).
Proof.
  apply (main_from_env_without_key 5 (fun _ => failing_client overloaded) no_env
           (mkWorld demo_fs ["hello"] [])).
  - reflexivity.
  - vm_compute. exact I.
Defined.

(** X18.  A key of one to nineteen bytes, from the environment or from
    config.env, makes [initializeClient] panic on the slice [apiKey[:20]]:
    the process ends with status 2 before the client is built, and without
    a line about the key. *)
Theorem initializeClient_short_key_panics
    (fuel : nat) (connect : string -> Client) (env : Env) (w w1 : World) (key : string) :
  loadAPIKey env w = Returned key w1 ->
  key <> "" ->
  (String.length key < 20)%nat ->
  initializeClient connect env w = Panicked (slice_bounds_error (String.length key)) w1
  /\ main_from_env fuel connect env w = Some (2, w1).
Proof.
  intros L N S.
  assert (I : initializeClient connect env w
              = Panicked (slice_bounds_error (String.length key)) w1).
  { unfold initializeClient, bind. rewrite L, (nonempty_eqb key N).
    apply Nat.ltb_lt in S. rewrite S. reflexivity. }
  split; [exact I|]. unfold main_from_env. rewrite I. reflexivity.
Qed.

Lemma initializeClient_short_key_panics_witness :
  initializeClient (fun _ => failing_client overloaded) (env_with_key "sk-test") demo_world
  = Panicked (slice_bounds_error (String.length "sk-test")) demo_world
  /\ main_from_env 5 (fun _ => failing_client overloaded) (env_with_key "sk-test") demo_world
     = Some (2, demo_world).
Proof.
  apply (initializeClient_short_key_panics 5 (fun _ => failing_client overloaded)
           (env_with_key "sk-test") demo_world demo_world "sk-test").
  - reflexivity.
  - discriminate.
  - simpl. lia.
Defined.

(** X19.  A config.env whose first line with the prefix has nothing after
    ANTHROPIC_API_KEY= counts as no key in both programs, with exit status
    1, but they print differently: main.go prints the error line alone,
    without the four lines of advice, and the chat-only program prints the
    four lines. *)
Theorem empty_key_in_config
    (fuel : nat) (connect : string -> Client)
    (connect' : string -> list anthropic.MessageParam -> result anthropic.Message)
    (env : Env) (w : World) (data : string) :
  env KEY = "" ->
  vfs.read (fs w) "config.env" = Ok data ->
  key_of_lines (split_byte nl data) = Some "" ->
  main_from_env fuel connect env w
  = Some (1, logged w [Syscall "ReadFile" "config.env";
                       Stdout ("Error: ANTHROPIC_API_KEY is required" ++ LF)])
  /\ ChatMain.main fuel connect' env w
     = Some (1, logged w (Syscall "ReadFile" "config.env" :: remediation)).
Proof.
  intros E R K. split.
  - unfold main_from_env, initializeClient, loadAPIKey, bind, ret, os.ReadFile, logged,
      Print, emit.
    rewrite E. cbn [String.eqb negb fs stdin trace]. change (ascii_of_N 10) with nl.
    rewrite R, K. cbn [String.eqb fs stdin trace Error app]. rewrite <- !app_assoc.
    reflexivity.
  - unfold ChatMain.main, ChatMain.resolve_key, bind, ret, os.ReadFile, logged,
      Println, Print, emit, remediation.
    rewrite E. cbn [String.eqb negb fs stdin trace]. change (ascii_of_N 10) with nl.
    rewrite R, scan_lines_key_of_lines, K.
    cbn [String.eqb fs stdin trace app]. rewrite <- !app_assoc. reflexivity.
Qed.

Lemma empty_key_in_config_witness :
  main_from_env 5 (fun _ => failing_client overloaded) no_env
    (config_world (join_lines ["ANTHROPIC_API_KEY="; "ANTHROPIC_API_KEY=sk-ant-api03-0123456789"]))
  = Some (1, logged (config_world
                       (join_lines ["ANTHROPIC_API_KEY=";
                                    "ANTHROPIC_API_KEY=sk-ant-api03-0123456789"]))
               [Syscall "ReadFile" "config.env";
                Stdout ("Error: ANTHROPIC_API_KEY is required" ++ LF)])
  /\ ChatMain.main 5 (fun _ _ => Err overloaded) no_env
       (config_world (join_lines ["ANTHROPIC_API_KEY=";
                                  "ANTHROPIC_API_KEY=sk-ant-api03-0123456789"]))
     = Some (1, logged (config_world
                          (join_lines ["ANTHROPIC_API_KEY=";
                                       "ANTHROPIC_API_KEY=sk-ant-api03-0123456789"]))
                  (Syscall "ReadFile" "config.env" :: remediation)).
Proof.
  apply (empty_key_in_config 5 (fun _ => failing_client overloaded)
           (fun _ _ => Err overloaded) no_env
           (config_world (join_lines ["ANTHROPIC_API_KEY=";
                                      "ANTHROPIC_API_KEY=sk-ant-api03-0123456789"]))
           (join_lines ["ANTHROPIC_API_KEY="; "ANTHROPIC_API_KEY=sk-ant-api03-0123456789"])).
  - reflexivity.
  - reflexivity.
  - reflexivity.
Defined.

(** X20.  The two programs resolve the same key from the same environment
    and the same files, and neither changes the file system while doing
    so. *)
Theorem key_resolution_agrees (env : Env) (w : World) :
  exists key w1 w2,
    loadAPIKey env w = Returned key w1
    /\ ChatMain.resolve_key env w = Returned key w2
    /\ fs w1 = fs w /\ fs w2 = fs w
    /\ stdin w1 = stdin w /\ stdin w2 = stdin w.
Proof.
  unfold loadAPIKey, ChatMain.resolve_key, bind, ret, os.ReadFile, Println, Print, emit.
  destruct (String.eqb (env KEY) "") eqn:E; cbn [negb fs stdin trace].
  - apply String.eqb_eq in E. rewrite E.
    destruct (vfs.read (fs w) "config.env") as [data|e].
    + rewrite scan_lines_key_of_lines.
      destruct (key_of_lines (split_byte (ascii_of_N 10) data)) as [k|];
        cbn [fs stdin trace]; do 3 eexists; repeat split; reflexivity.
    + cbn [fs stdin trace]. do 3 eexists; repeat split; reflexivity.
  - do 3 eexists; repeat split; reflexivity.
Qed.

(** X21.  A key of twenty bytes or more without a zero byte, found in
    config.env, is put into the environment of the process, where the
    client finds it; the other variables keep their values, and the line
    printed about the key shows twenty of its bytes. *)
Theorem initializeClient_key_from_config
    (connect : string -> Client) (env : Env) (w : World) (data key : string) :
  env KEY = "" ->
  vfs.read (fs w) "config.env" = Ok data ->
  key_of_lines (split_byte nl data) = Some key ->
  (20 <= String.length key)%nat ->
  has_byte zero key = false ->
  exists env',
    initializeClient connect env w
    = Returned (Ok (connect key), env')
        (logged w [Syscall "ReadFile" "config.env";
                   Stdout ("API Key loaded: " ++ slice_to 20 key ++ "..." ++ LF)])
    /\ env' KEY = key
    /\ (forall k, k <> KEY -> env' k = env k)
    /\ String.length (slice_to 20 key) = 20%nat.
Proof.
  intros E R K L Z. exists (Setenv env KEY key).
  assert (S : Setenv env KEY key = fun k => if String.eqb k KEY then key else env k).
  { unfold Setenv. rewrite Z. reflexivity. }
  repeat split.
  - unfold initializeClient, loadAPIKey, bind, ret, os.ReadFile, logged, Print, emit.
    rewrite E. cbn [String.eqb negb fs stdin trace]. change (ascii_of_N 10) with nl.
    rewrite R, K. cbn [fs stdin trace].
    rewrite (length_nonempty key) by lia.
    assert (B : (String.length key <? 20)%nat = false) by (apply Nat.ltb_ge; lia).
    rewrite B, S. cbn [fs stdin trace]. rewrite String.eqb_refl, <- !app_assoc. reflexivity.
  - rewrite S. now rewrite String.eqb_refl.
  - intros k Hk. rewrite S. apply String.eqb_neq in Hk. now rewrite Hk.
  - apply length_slice_to. exact L.
Qed.

Lemma initializeClient_key_from_config_witness :
  exists env',
    initializeClient (fun _ => failing_client overloaded) no_env
      (config_world (join_lines ["# key"; "ANTHROPIC_API_KEY=sk-ant-api03-0123456789"]))
    = Returned (Ok (failing_client overloaded), env')
        (logged (config_world
                   (join_lines ["# key"; "ANTHROPIC_API_KEY=sk-ant-api03-0123456789"]))
           [Syscall "ReadFile" "config.env";
            Stdout ("API Key loaded: " ++ slice_to 20 "sk-ant-api03-0123456789" ++ "..." ++ LF)])
    /\ env' KEY = "sk-ant-api03-0123456789"
    /\ (forall k, k <> KEY -> env' k = no_env k)
    /\ String.length (slice_to 20 "sk-ant-api03-0123456789") = 20%nat.
Proof.
  apply (initializeClient_key_from_config (fun _ => failing_client overloaded) no_env
           (config_world (join_lines ["# key"; "ANTHROPIC_API_KEY=sk-ant-api03-0123456789"]))
           (join_lines ["# key"; "ANTHROPIC_API_KEY=sk-ant-api03-0123456789"])
           "sk-ant-api03-0123456789").
  - reflexivity.
  - reflexivity.
  - reflexivity.
  - simpl. lia.
  - reflexivity.
Defined.

(** ** Tool calls in sequence, and inputs without a path *)

(** X22.  An edit_file call that replaces text, followed by a read_file
    call for the same path, both made through [executeTool]: the first
    answers "OK", the second returns the content with every occurrence
    replaced, and neither is reported as an error. *)
Theorem edit_then_read_through_dispatch
    (service : Client) (id1 id2 : string) (einput rinput : json.RawMessage)
    (path old new content : string) (i : nat) (w : World) :
  Unmarshal_EditFileInput einput = (mkEditFileInput path old new, None) ->
  Unmarshal_ReadFileInput rinput = (mkReadFileInput path, None) ->
  old <> "" -> old <> new ->
  vfs.read (fs w) path = Ok content ->
  strings.Index content old = Some i ->
  exists w1 w2,
    executeTool (main_agent service) id1 "edit_file" einput w
    = Returned (anthropic.NewToolResultBlock id1 "OK" false) w1
    /\ executeTool (main_agent service) id2 "read_file" rinput w1
       = Returned (anthropic.NewToolResultBlock id2
                     (strings.Replace content old new (-1)) false) w2
    /\ stdin w2 = stdin w.
Proof.
  intros De Dr Ho Hon R E.
  unfold executeTool. change (tools (main_agent service)) with main_tools.
  rewrite !main_find. cbn [String.eqb Ascii.eqb Bool.eqb].
  change (Function EditFileDefinition) with EditFile.
  change (Function ReadFileDefinition) with ReadFile.
  unfold bind at 1 2. unfold Print at 1, emit at 1.
  match goal with
  | |- context [EditFile einput ?w0] =>
      destruct (EditFile_writes_replacement einput path old new content i w0 De Ho Hon R E)
        as (fs' & -> & _ & R')
  end.
  cbn [fs stdin trace]. unfold ret at 1. eexists. eexists. split; [reflexivity|].
  unfold bind, Print, emit, ReadFile. rewrite Dr. cbn [ReadFileInput_Path].
  unfold bind, os.ReadFile, ret. cbn [fs stdin trace]. rewrite R'.
  split; reflexivity.
Qed.

Lemma edit_then_read_through_dispatch_witness :
  exists w1 w2,
    executeTool (main_agent (failing_client overloaded)) "toolu_1" "edit_file"
      (edit_request "notes.txt" "-" "+") demo_world
    = Returned (anthropic.NewToolResultBlock "toolu_1" "OK" false) w1
    /\ executeTool (main_agent (failing_client overloaded)) "toolu_2" "read_file"
         (path_request "notes.txt") w1
       = Returned (anthropic.NewToolResultBlock "toolu_2"
                     (strings.Replace "a-b-c" "-" "+" (-1)) false) w2
    /\ stdin w2 = stdin demo_world.
Proof.
  apply (edit_then_read_through_dispatch (failing_client overloaded) "toolu_1" "toolu_2"
           (edit_request "notes.txt" "-" "+") (path_request "notes.txt")
           "notes.txt" "-" "+" "a-b-c" 1 demo_world).
  - reflexivity.
  - reflexivity.
  - discriminate.
  - discriminate.
  - reflexivity.
  - reflexivity.
Defined.

Lemma decode_members_skipped (ty : string) (fields : list string)
    (members : list (string * json.Value)) (st : json.Struct) (saved : option error) :
  (forall k v, In (k, v) members -> json.find_field fields k = None) ->
  json.decode_members ty fields members st saved = (st, saved).
Proof.
  revert st saved. induction members as [|[k v] rest IH]; intros st saved H; [reflexivity|].
  cbn [json.decode_members]. rewrite (H k v (or_introl eq_refl)).
  apply IH. intros k' v' Hin. apply (H k' v'). now right.
Qed.

(** X23.  A read_file input that is a JSON object without a member for
    path (in any letter case) is not rejected as invalid: the tool tries
    to open the file of the empty name, and returns the error of that
    attempt. *)
Theorem ReadFile_without_path
    (input : json.RawMessage) (members : list (string * json.Value)) (w : World) :
  json.parsed input = inr (json.Object members) ->
  (forall k v, In (k, v) members -> json.find_field ["path"] k = None) ->
  exists err,
    ReadFile input w = Returned (Err err) (logged w [Syscall "ReadFile" ""])
    /\ Error err = "failed to read file : open : no such file or directory".
Proof.
  intros P H. unfold ReadFile, Unmarshal_ReadFileInput, json.Unmarshal. rewrite P.
  rewrite (decode_members_skipped _ _ _ _ _ H). cbn [ReadFileInput_Path].
  change (json.zero "path") with "".
  unfold bind, os.ReadFile, ret, logged, vfs.read, vfs.stat, vfs.namei.
  cbn [String.eqb fs stdin trace].
  eexists. split; reflexivity.
Qed.

Lemma ReadFile_without_path_witness :
  exists err,
    ReadFile (json.mkRaw ("{" ++ quoted "file" ++ ":" ++ quoted "x.go" ++ "}")
                         (inr (json.Object [("file", json.Str "x.go")]))) demo_world
    = Returned (Err err) (logged demo_world [Syscall "ReadFile" ""])
    /\ Error err = "failed to read file : open : no such file or directory".
Proof.
  apply (ReadFile_without_path
           (json.mkRaw ("{" ++ quoted "file" ++ ":" ++ quoted "x.go" ++ "}")
                       (inr (json.Object [("file", json.Str "x.go")])))
           [("file", json.Str "x.go")] demo_world).
  - reflexivity.
  - intros k v [E|[]]. injection E as <- _. reflexivity.
Defined.

(** X24.  A list_files input that is a JSON object without a member for
    path lists the working directory: the call behaves as the call with
    the path ".". *)
Theorem ListFiles_without_path
    (input : json.RawMessage) (members : list (string * json.Value)) (w : World) :
  json.parsed input = inr (json.Object members) ->
  (forall k v, In (k, v) members -> json.find_field ["path"] k = None) ->
  ListFiles input w = ListFiles (path_request ".") w.
Proof.
  intros P H. unfold ListFiles, Unmarshal_ListFilesInput, json.Unmarshal. rewrite P.
  rewrite (decode_members_skipped _ _ _ _ _ H). reflexivity.
Qed.

Lemma ListFiles_without_path_witness :
  ListFiles empty_object demo_world = ListFiles (path_request ".") demo_world.
Proof.
  apply (ListFiles_without_path empty_object [] demo_world).
  - reflexivity.
  - intros k v [].
Defined.
